(** * Retrieval pipeline of the web-to-RAG backend

    A shallow embedding of [scraper.py], [rag.py] and of the intent
    classification step of [excel_generator.py] and [visuals.py].

    External collaborators (the web, the embedding endpoint, the hosted
    LLM, the vector store's failures and its similarity search, the text
    splitter, the random and uuid generators) are fields of an environment
    record [Env]; the vector store's content, the log of the outgoing calls
    and the number of uuids drawn so far form the mutable [World] that
    every coroutine threads.  Each collaborator is a function of what it
    is asked: asked the same thing twice, it answers the same.  Python
    exceptions are the [Raise] outcome of the monad [M]; [try_except] is
    [try: ... except Exception: ...]. *)

From Stdlib Require Import List String Ascii ZArith Lia Bool Arith.
From Stdlib Require Import Permutation.
From Stdlib Require Import DecimalString.
From Stdlib Require Import Floats.
Import ListNotations.

Local Open Scope list_scope.
Local Open Scope string_scope.

(* ================================================================== *)
(** * Python strings *)

(** Strings are sequences of ASCII code points.  The functions below are
    the [str] methods the sources call, restricted to that range. *)
Module PyStr.

(** [str.isspace] on one ASCII character: TAB, LF, VT, FF, CR, the four
    separators FS, GS, RS, US, and the space. *)
Definition is_space (c : ascii) : bool :=
  let n := nat_of_ascii c in
  (((9 <=? n) && (n <=? 13)) || ((28 <=? n) && (n <=? 31)) || (n =? 32))%nat.

Definition is_empty (s : string) : bool :=
  match s with EmptyString => true | String _ _ => false end.

(** [s.lstrip()] *)
Fixpoint lstrip (s : string) : string :=
  match s with
  | EmptyString => EmptyString
  | String c r => if is_space c then lstrip r else s
  end.

(** [s.rstrip()] *)
Fixpoint rstrip (s : string) : string :=
  match s with
  | EmptyString => EmptyString
  | String c r =>
      let r' := rstrip r in
      if is_space c && is_empty r' then EmptyString else String c r'
  end.

(** [s.strip()] *)
Definition strip (s : string) : string := rstrip (lstrip s).

Definition lower_char (c : ascii) : ascii :=
  let n := nat_of_ascii c in
  if ((65 <=? n) && (n <=? 90))%nat then ascii_of_nat (n + 32) else c.

Definition upper_char (c : ascii) : ascii :=
  let n := nat_of_ascii c in
  if ((97 <=? n) && (n <=? 122))%nat then ascii_of_nat (n - 32) else c.

Fixpoint map_chars (f : ascii -> ascii) (s : string) : string :=
  match s with
  | EmptyString => EmptyString
  | String c r => String (f c) (map_chars f r)
  end.

(** [s.lower()] and [s.upper()] *)
Definition lower : string -> string := map_chars lower_char.
Definition upper : string -> string := map_chars upper_char.

(** [s.split()] with no separator: maximal runs of non-space characters.
    [cur] is the word being read, most recent character first. *)
Definition flush (cur : list ascii) : list string :=
  match cur with
  | [] => []
  | _ :: _ => [string_of_list_ascii (rev cur)]
  end.

Fixpoint split_aux (cur : list ascii) (s : string) : list string :=
  match s with
  | EmptyString => flush cur
  | String c r =>
      if is_space c then flush cur ++ split_aux [] r
      else split_aux (c :: cur) r
  end.

Definition split (s : string) : list string := split_aux [] s.

(** [sep.join(parts)] *)
Fixpoint join (sep : string) (parts : list string) : string :=
  match parts with
  | [] => EmptyString
  | [p] => p
  | p :: rest => p ++ sep ++ join sep rest
  end.

(** [s[:n]] for [n >= 0] *)
Definition prefix (n : nat) (s : string) : string := substring 0 n s.

Definition LF : string := String (ascii_of_nat 10) EmptyString.

(** [str(i)] for a non-negative integer *)
Definition of_nat (n : nat) : string :=
  NilEmpty.string_of_uint (Nat.to_uint n).

End PyStr.

(* ================================================================== *)
(** * Exceptions, outcomes of external calls, data of the services *)

(** The Python exceptions the pipeline raises itself, and [ExternalError]
    for whatever an external library raises (requests, httpx, playwright,
    pinecone, langchain).  All are subclasses of [Exception]. *)
Inductive exn : Type :=
| HTTPException (status_code : Z) (detail : string)
| ValueError (msg : string)
| IndexError (msg : string)
| AttributeError (msg : string)
| ExternalError (msg : string).

(** What a call into an external collaborator does: it returns a value or
    raises. *)
Inductive outcome (A : Type) : Type :=
| Returns (a : A)
| Fails (msg : string).
Arguments Returns {A} a.
Arguments Fails {A} msg.

Inductive result (A : Type) : Type :=
| Ok (a : A)
| Raise (e : exn).
Arguments Ok {A} a.
Arguments Raise {A} e.

(** An embedding vector: a list of floats. *)
Definition Vector : Type := list float.

(** One upserted record: [{"id": ..., "values": ..., "metadata": {"text": ...}}] *)
Record VectorRecord : Type := {
  rec_id : string;
  rec_values : Vector;
  rec_text : string
}.

(** One index of the vector store. *)
Record Index : Type := {
  idx_name : string;
  idx_dimension : Z;
  idx_metric : string;
  idx_vectors : list VectorRecord
}.

(** A match of [index.query]: a dict whose ["metadata"] and, inside it,
    ["text"] may be absent. *)
Record Metadata : Type := { md_text : option string }.
Record Match : Type := { match_metadata : option Metadata }.
(** The query response; ["matches"] may be absent or None. *)
Record QueryResponse : Type := { qr_matches : option (list Match) }.

(** The embedding endpoint's HTTP response: status code and decoded JSON
    body, whose ["embeddings"] key may be absent; decoding may raise. *)
Record HttpResponse : Type := {
  resp_status : Z;
  resp_json : outcome (option (list Vector))
}.

(** The chat model's reply object; [content] may be None. *)
Record AIMessage : Type := { content : option string }.

(** Calls on the pinecone client. *)
Inductive PineconeCall : Type :=
| ListIndexes
| DeleteIndex (name : string)
| CreateIndex (name : string) (dimension : Z)
| Upsert (name : string) (batch : list VectorRecord)
| Query (name : string) (top_k : Z).

(** Outgoing calls, in the order they are issued. *)
Inductive Event : Type :=
| EvPinecone (c : PineconeCall)
| EvEmbedding (texts : list string)
| EvLlm (key model_name prompt : string).

(** The mutable part: the store's indexes in listing order, the log of
    outgoing calls, the number of uuids drawn. *)
Record World : Type := {
  indexes : list Index;
  trace : list Event;
  uuid_count : nat
}.

(** The three ways the world changes. *)
Definition with_indexes (ixs : list Index) (w : World) : World :=
  {| indexes := ixs; trace := trace w; uuid_count := uuid_count w |}.

Definition add_event (e : Event) (w : World) : World :=
  {| indexes := indexes w; trace := (trace w ++ [e])%list;
     uuid_count := uuid_count w |}.

Definition next_uuid (w : World) : World :=
  {| indexes := indexes w; trace := trace w; uuid_count := S (uuid_count w) |}.

(** The environment: configuration ([config.py]) and the behaviour of the
    external collaborators. *)
Record Env : Type := {
  API_KEY : option string;
  GROQ_API_KEYS : list string;
  EMBEDDING_API_BATCH_SIZE : Z;
  (** [requests.get(url, ...).text] *)
  requests_get : string -> outcome string;
  (** [page.content()] of the headless browser after [page.goto(url)] *)
  playwright_content : string -> outcome string;
  (** [trafilatura.extract(html)] *)
  trafilatura_extract : string -> outcome (option string);
  (** [BeautifulSoup(html, "html.parser").get_text("\n", strip=True)] *)
  bs_get_text : string -> outcome string;
  (** [client.post(api_url, json={"texts": texts})] *)
  embedding_post : list string -> outcome HttpResponse;
  (** [RecursiveCharacterTextSplitter(1500, 200).split_text] *)
  split_text : string -> outcome (list string);
  (** [ChatGroq(groq_api_key=key, model_name=m).ainvoke(prompt)] *)
  groq_ainvoke : string -> string -> string -> outcome (option AIMessage);
  (** a failure of the store on a call, if any *)
  pinecone_fault : PineconeCall -> option string;
  (** the store's similarity search over its current content *)
  pinecone_query :
    list Index -> string -> Vector -> Z -> outcome QueryResponse;
  (** the random draws of [random.sample] and [random.choice] *)
  randbelow : nat -> nat;
  (** [uuid.uuid4().hex] of the n-th uuid drawn *)
  uuid4_hex : nat -> string
}.

(* ================================================================== *)
(** * The monad of coroutines *)

Definition M (A : Type) : Type := World -> result A * World.

Definition ret {A} (a : A) : M A := fun w => (Ok a, w).

Definition raise {A} (e : exn) : M A := fun w => (Raise e, w).

Definition bind {A B} (m : M A) (k : A -> M B) : M B :=
  fun w =>
    match m w with
    | (Ok a, w') => k a w'
    | (Raise e, w') => (Raise e, w')
    end.

(** [try: body  except Exception as e: handler e].  What the body did to
    the world before raising stays done. *)
Definition try_except {A} (body : M A) (handler : exn -> M A) : M A :=
  fun w =>
    match body w with
    | (Ok a, w') => (Ok a, w')
    | (Raise e, w') => handler e w'
    end.

Definition get_world : M World := fun w => (Ok w, w).

Definition set_indexes (ixs : list Index) : M unit :=
  fun w => (Ok tt, with_indexes ixs w).

Definition log (e : Event) : M unit :=
  fun w => (Ok tt, add_event e w).

(** An external call: its failure becomes an [ExternalError]. *)
Definition call {A} (o : outcome A) : M A :=
  match o with
  | Returns a => ret a
  | Fails msg => raise (ExternalError msg)
  end.

Declare Scope monad_scope.
Delimit Scope monad_scope with monad.
Notation "x <- c1 ;; c2" := (bind c1 (fun x => c2))
  (at level 61, c1 at next level, right associativity) : monad_scope.
Notation "c1 ;; c2" := (bind c1 (fun _ => c2))
  (at level 61, right associativity) : monad_scope.
Local Open Scope monad_scope.

(** [uuid.uuid4().hex] *)
Definition uuid4 (env : Env) : M string :=
  fun w => (Ok (uuid4_hex env (uuid_count w)), next_uuid w).

(** Truthiness of an optional string: None and the empty string are falsy. *)
Definition truthy (t : option string) : bool :=
  match t with
  | Some s => negb (PyStr.is_empty s)
  | None => false
  end.

(** [random.sample(pool, len(pool))]: draw the elements one by one without
    replacement; [random.choice(pool)]. *)
Fixpoint remove_nth {A} (n : nat) (l : list A) : list A :=
  match l with
  | [] => []
  | x :: r => match n with O => r | S n' => x :: remove_nth n' r end
  end.

Fixpoint sample_aux {A} (rand : nat -> nat) (k : nat) (pool : list A)
  : list A :=
  match k with
  | O => []
  | S k' =>
      match pool with
      | [] => []
      | d :: _ =>
          let j := Nat.modulo (rand k') (List.length pool) in
          nth j pool d :: sample_aux rand k' (remove_nth j pool)
      end
  end.

Definition random_sample (env : Env) (pool : list string) : list string :=
  sample_aux (randbelow env) (List.length pool) pool.

Definition random_choice (env : Env) (pool : list string) : M string :=
  match pool with
  | [] => raise (IndexError "Cannot choose from an empty sequence")
  | d :: _ => ret (nth (Nat.modulo (randbelow env 0) (List.length pool)) pool d)
  end.

(* ================================================================== *)
(** * scraper.py *)

Module Scraper.
Import PyStr.

(** [t and len(t.strip()) > 200] *)
Definition usable (t : option string) : bool :=
  match t with
  | Some s => negb (is_empty s) && (200 <? String.length (strip s))%nat
  | None => false
  end.

(** [extract_static(url)]: fetch, run the extraction heuristic, fall back
    to the tag-stripped text; everything inside one [try]. *)
Definition extract_static (env : Env) (url : string) : M (option string) :=
  try_except
    (html <- call (requests_get env url);;
     text <- call (trafilatura_extract env html);;
     if usable text then ret text
     else
       raw <- call (bs_get_text env html);;
       if usable (Some raw) then ret (Some raw) else ret None)
    (fun _ => ret None).

(** [extract_js(url)]: the same on the rendered page. *)
Definition extract_js (env : Env) (url : string) : M (option string) :=
  try_except
    (html <- call (playwright_content env url);;
     text <- call (trafilatura_extract env html);;
     if usable text then ret text
     else
       raw <- call (bs_get_text env html);;
       if usable (Some raw) then ret (Some raw) else ret None)
    (fun _ => ret None).

(** [f"[Could not extract content from: {url}]"] *)
Definition placeholder (url : string) : string :=
  "[Could not extract content from: " ++ url ++ "]".

(** [f"--- SOURCE: {url} ---\n{text}\n"] *)
Definition source_part (url text : string) : string :=
  "--- SOURCE: " ++ url ++ " ---" ++ LF ++ text ++ LF.

(** The [for url in urls] loop; [parts] is the list built so far. *)
Fixpoint fetch_loop (env : Env) (urls : list string) (parts : list string)
  : M (list string) :=
  match urls with
  | [] => ret parts
  | url :: rest =>
      text <- extract_static env url;;
      text <- (if negb (truthy text) then extract_js env url else ret text);;
      fetch_loop env rest
        (parts ++ [match text with
                   | Some t =>
                       if negb (truthy text) then placeholder url
                       else source_part url t
                   | None => placeholder url
                   end])
  end.

Definition fetch_and_combine (env : Env) (urls : list string) : M string :=
  parts <- fetch_loop env urls [];;
  ret (strip (join (LF ++ LF) parts)).

End Scraper.

(* ================================================================== *)
(** * The vector store behind [pinecone_client] *)

(** The store keeps its indexes in listing order.  A call is logged, then
    fails if the environment says so, and otherwise acts on the content:
    deleting a name that is not there and creating one that is are
    refused by the service. *)
Module Pinecone.

Definition has_index (name : string) (ixs : list Index) : bool :=
  existsb (fun ix => String.eqb (idx_name ix) name) ixs.

Definition names (w : World) : list string := map idx_name (indexes w).

Definition request (env : Env) (c : PineconeCall) : M unit :=
  log (EvPinecone c);;
  match pinecone_fault env c with
  | Some msg => raise (ExternalError msg)
  | None => ret tt
  end.

(** [pinecone_client.list_indexes().names()] *)
Definition list_indexes_names (env : Env) : M (list string) :=
  request env ListIndexes;;
  w <- get_world;;
  ret (names w).

(** [pinecone_client.delete_index(name)] *)
Definition delete_index (env : Env) (name : string) : M unit :=
  request env (DeleteIndex name);;
  w <- get_world;;
  if has_index name (indexes w)
  then set_indexes
         (filter (fun ix => negb (String.eqb (idx_name ix) name))
                 (indexes w))
  else raise (ExternalError "index not found").

(** [pinecone_client.create_index(name=..., dimension=..., metric=...)] *)
Definition create_index (env : Env) (name : string) (dimension : Z)
    (metric : string) : M unit :=
  request env (CreateIndex name dimension);;
  w <- get_world;;
  if has_index name (indexes w)
  then raise (ExternalError "index already exists")
  else set_indexes
         (indexes w ++ [{| idx_name := name; idx_dimension := dimension;
                           idx_metric := metric; idx_vectors := [] |}]).

(** One batch of [pinecone_client.Index(name).upsert(...)] *)
Definition upsert_batch (env : Env) (name : string)
    (batch : list VectorRecord) : M unit :=
  request env (Upsert name batch);;
  w <- get_world;;
  if has_index name (indexes w)
  then set_indexes
         (map (fun ix =>
                 if String.eqb (idx_name ix) name
                 then {| idx_name := idx_name ix;
                         idx_dimension := idx_dimension ix;
                         idx_metric := idx_metric ix;
                         idx_vectors := idx_vectors ix ++ batch |}
                 else ix)
              (indexes w))
  else raise (ExternalError "index not found").

(** [pinecone_client.Index(name).query(vector=..., top_k=...,
    include_metadata=True)] *)
Definition query (env : Env) (name : string) (vector : Vector) (top_k : Z)
  : M QueryResponse :=
  log (EvPinecone (Query name top_k));;
  w <- get_world;;
  call (pinecone_query env (indexes w) name vector top_k).

End Pinecone.

(* ================================================================== *)
(** * The hosted chat model *)

Module Groq.

(** [ChatGroq(temperature=0.0, groq_api_key=key, model_name=m)
    .ainvoke(prompt)] *)
Definition ainvoke (env : Env) (key model_name prompt : string)
  : M (option AIMessage) :=
  log (EvLlm key model_name prompt);;
  call (groq_ainvoke env key model_name prompt).

End Groq.

(* ================================================================== *)
(** * rag.py *)

Module Rag.
Import PyStr.

Record AnalyzeRequest : Type := { urls : list string }.

Record AnalyzeResponse : Type := {
  success : bool;
  index_name : option string;
  summary : option string
}.

Record ChatMessage : Type := { role : string; text : string }.

Record AskRequest : Type := {
  ask_index_name : string;
  question : string;
  history : option (list ChatMessage)
}.

Record AskResponse : Type := { answer : string }.

(** ** RemoteEmbeddingClient *)

(** [range(start, stop, step)] *)
Fixpoint range_up (fuel : nat) (i stop step : Z) : list Z :=
  match fuel with
  | O => []
  | S f => if (i <? stop)%Z then i :: range_up f (i + step)%Z stop step
           else []
  end.

Fixpoint range_down (fuel : nat) (i stop step : Z) : list Z :=
  match fuel with
  | O => []
  | S f => if (stop <? i)%Z then i :: range_down f (i + step)%Z stop step
           else []
  end.

Definition range (start stop step : Z) : M (list Z) :=
  if (step =? 0)%Z then raise (ValueError "range() arg 3 must not be zero")
  else if (0 <? step)%Z
       then ret (range_up (Z.to_nat (stop - start)) start stop step)
       else ret (range_down (Z.to_nat (start - stop)) start stop step).

(** [l[lo:hi]] for [0 <= lo] *)
Definition slice {A} (l : list A) (lo hi : Z) : list A :=
  firstn (Z.to_nat (hi - lo)) (skipn (Z.to_nat lo) l).

(** [asyncio.gather] over the tasks: every task runs; the results come back in
    the order of the tasks; if some task raised, its exception is
    raised (the first one in task order here). *)
Fixpoint gather {A} (tasks : list (M A)) : M (list A) :=
  match tasks with
  | [] => ret []
  | t :: rest =>
      fun w =>
        match t w with
        | (Ok a, w1) => (rs <- gather rest;; ret (a :: rs)) w1
        | (Raise e, w1) => (Raise e, snd (gather rest w1))
        end
  end.

Definition _call_embedding_api (env : Env) (texts : list string)
  : M (list Vector) :=
  log (EvEmbedding texts);;
  response <- call (embedding_post env texts);;
  (* response.raise_for_status() *)
  (if ((200 <=? resp_status response) && (resp_status response <=? 299))%Z
   then ret tt else raise (ExternalError "HTTPStatusError"));;
  data <- call (resp_json response);;
  match data with
  | None => raise (ValueError "Invalid embedding response")
  | Some embeddings => ret embeddings
  end.

Definition aembed_documents (env : Env) (texts : list string)
  : M (list Vector) :=
  let batch_size := EMBEDDING_API_BATCH_SIZE env in
  starts <- range 0 (Z.of_nat (List.length texts)) batch_size;;
  let tasks :=
    map (fun i => _call_embedding_api env (slice texts i (i + batch_size)%Z))
        starts in
  results <- gather tasks;;
  ret (List.concat results).

Definition aembed_query (env : Env) (text : string) : M Vector :=
  embs <- aembed_documents env [text];;
  match embs with
  | v :: _ => ret v
  | [] => raise (IndexError "list index out of range")
  end.

(** ** Pinecone helpers *)

Definition create_index_if_not_exists_async (env : Env)
    (index_name : string) (dimension : Z) : M unit :=
  names <- Pinecone.list_indexes_names env;;
  if negb (existsb (String.eqb index_name) names) then
    (if (5 <=? List.length names)%nat then
       match names with
       | to_delete :: _ =>
           try_except (Pinecone.delete_index env to_delete)
                      (fun _ => ret tt)
       | [] => raise (IndexError "list index out of range")
       end
     else ret tt);;
    Pinecone.create_index env index_name dimension "cosine"
  else ret tt.

Definition _chunk_text_sync (env : Env) (text : string) : M (list string) :=
  call (split_text env text).

(** The [for i, (chunk, vec) in enumerate(zip(chunks, vectors))] loop. *)
Fixpoint to_upsert_from (env : Env) (i : nat)
    (pairs : list (string * Vector)) : M (list VectorRecord) :=
  match pairs with
  | [] => ret []
  | (chunk, vec) :: rest =>
      h <- uuid4 env;;
      recs <- to_upsert_from env (S i) rest;;
      ret ({| rec_id := "doc_" ++ of_nat i ++ "_" ++ prefix 8 h;
              rec_values := vec;
              rec_text := chunk |} :: recs)
  end.

(** [l] cut into consecutive groups of [n]. *)
Fixpoint batches_of {A} (fuel n : nat) (l : list A) : list (list A) :=
  match fuel with
  | O => []
  | S f =>
      match l with
      | [] => []
      | _ :: _ => firstn n l :: batches_of f n (skipn n l)
      end
  end.

(** [index.upsert(vectors=vectors_batch, batch_size=100)] *)
Fixpoint _upsert_batches (env : Env) (index_name : string)
    (batches : list (list VectorRecord)) : M unit :=
  match batches with
  | [] => ret tt
  | b :: rest =>
      Pinecone.upsert_batch env index_name b;;
      _upsert_batches env index_name rest
  end.

Definition _upsert_sync (env : Env) (index_name : string)
    (vectors_batch : list VectorRecord) : M unit :=
  _upsert_batches env index_name
    (batches_of (List.length vectors_batch) 100 vectors_batch).

Definition process_text_and_upsert (env : Env) (index_name full_text : string)
  : M unit :=
  chunks <- _chunk_text_sync env full_text;;
  vectors <- aembed_documents env chunks;;
  to_upsert <- to_upsert_from env 0 (combine chunks vectors);;
  _upsert_sync env index_name to_upsert.

(** ** Groq utilities *)

Definition MODEL_NAME : string := "llama-3.1-8b-instant".

(** The [for i, key in enumerate(shuffled_keys)] loop of the three
    functions below: the stripped content of the first reply that has
    content, None once the keys are used up. *)
Fixpoint try_keys (env : Env) (prompt : string) (keys : list string)
  : M (option string) :=
  match keys with
  | [] => ret None
  | key :: rest =>
      r <- try_except
             (resp <- Groq.ainvoke env key MODEL_NAME prompt;;
              match resp with
              | Some msg =>
                  if truthy (content msg)
                  then ret (option_map strip (content msg))
                  else ret None
              | None => ret None
              end)
             (fun _ => ret None);;
      match r with
      | Some c => ret (Some c)
      | None => try_keys env prompt rest
      end
  end.

Definition summary_prompt (combined_text : string) : string :=
  "You are an experienced equity research analyst. "
  ++ "Given the combined extracted content below from multiple web pages, produce a concise, "
  ++ "professional, user-friendly analyst summary . "
  ++ "Just include everything dont miss anything basically give an overview of the content which was given."
  ++ "Focus on the most important facts, company profile, key metrics or indices mentioned, "
  ++ "and any notable points. Use short sentences and clear language." ++ LF ++ LF
  ++ "CONTENT:" ++ LF
  ++ combined_text
  ++ LF ++ LF ++ "SUMMARY (about 10 lines):".

Definition SUMMARY_FAILED : string :=
  "Summary could not be generated due to an external service error.".

Definition generate_summary_with_groq (env : Env) (combined_text : string)
  : M string :=
  let prompt := summary_prompt combined_text in
  let shuffled_keys := random_sample env (GROQ_API_KEYS env) in
  r <- try_keys env prompt shuffled_keys;;
  match r with
  | Some c => ret c
  | None => ret SUMMARY_FAILED
  end.

Definition optimize_prompt (text : string) : string :=
  "You are a data processing expert for RAG systems. "
  ++ "Your task is to take the following raw scraped text and rewrite it into a clean, structured, and comprehensive format. "
  ++ "Focus on preserving all factual data, especially financial metrics, numbers, dates, and key entities. "
  ++ "Fix any formatting issues where labels and values are separated by newlines (e.g., change 'Market Cap"
  ++ LF ++ "1.34T' to 'Market Cap: 1.34T'). "
  ++ "Remove irrelevant navigation links, ads, or boilerplate footer text. "
  ++ "Ensure the output is dense with information and optimized for semantic search retrieval."
  ++ LF ++ LF
  ++ "RAW TEXT:" ++ LF
  ++ text
  ++ LF ++ LF ++ "OPTIMIZED TEXT:".

Definition optimize_text_for_rag (env : Env) (text : string) : M string :=
  let prompt := optimize_prompt text in
  let shuffled_keys := random_sample env (GROQ_API_KEYS env) in
  r <- try_keys env prompt shuffled_keys;;
  match r with
  | Some c => ret c
  | None => ret text
  end.

(** [history[-10:]] *)
Definition last10 {A} (l : list A) : list A :=
  skipn (List.length l - 10) l.

(** The history block of [answer_with_context_groq]; the entries are the
    [ChatMessage] objects [ask] passes on, so [msg.role] and [msg.text]
    are read off the object. *)
Definition history_block (history : option (list ChatMessage)) : string :=
  match history with
  | None | Some [] => ""
  | Some h =>
      "CONVERSATION HISTORY:" ++ LF
      ++ join LF (map (fun msg => (upper (role msg) ++ ": " ++ text msg)%string)
                      (last10 h))
      ++ LF ++ LF
  end.

Definition answer_prompt (question context : string)
    (history : option (list ChatMessage)) : string :=
  "You are a helpful assistant. Answer only based on the CONTEXT below. "
  ++ "If the answer is not present in the context, say: 'I could not find the answer in the provided documents.' "
  ++ "Use the conversation history to understand follow-up questions. "
  ++ "Be concise and formal." ++ LF ++ LF
  ++ history_block history
  ++ "CONTEXT:" ++ LF ++ context ++ LF ++ LF
  ++ "QUESTION: " ++ question ++ LF ++ "ANSWER:".

Definition ANSWER_FAILED : string :=
  "The answer could not be generated due to an external service error.".

Definition answer_with_context_groq (env : Env) (question context : string)
    (history : option (list ChatMessage)) : M string :=
  let prompt := answer_prompt question context history in
  let shuffled_keys := random_sample env (GROQ_API_KEYS env) in
  r <- try_keys env prompt shuffled_keys;;
  match r with
  | Some c => ret c
  | None => ret ANSWER_FAILED
  end.

(** ** Search *)

(** [m.get("metadata", {}).get("text", "")] *)
Definition match_text (m : Match) : string :=
  match match_metadata m with
  | Some md => match md_text md with Some t => t | None => "" end
  | None => ""
  end.

Definition CONTEXT_SEP : string := LF ++ LF ++ "---" ++ LF ++ LF.

Definition _search_index_sync (env : Env) (index_name : string)
    (query_vector : Vector) (top_k : Z) : M string :=
  try_except
    (res <- Pinecone.query env index_name query_vector top_k;;
     let matches := match qr_matches res with Some ms => ms | None => [] end in
     let texts := map match_text matches in
     ret (join CONTEXT_SEP texts))
    (fun _ => ret "").

(** ** Endpoints *)

(** [API_KEY and authorization != f"Bearer {API_KEY}"] *)
Definition unauthorized (env : Env) (authorization : option string) : bool :=
  match API_KEY env with
  | Some k =>
      negb (is_empty k)
      && negb (match authorization with
               | Some a => String.eqb a ("Bearer " ++ k)
               | None => false
               end)
  | None => false
  end.

Definition EXTRACT_FAILED : string :=
  "Failed to extract content from provided URLs.".

Definition analyze (env : Env) (request : AnalyzeRequest)
    (authorization : option string) : M AnalyzeResponse :=
  if unauthorized env authorization
  then raise (HTTPException 401 "Invalid API Key.")
  else
  match urls request with
  | [] => raise (HTTPException 400 "No URLs provided.")
  | _ :: _ =>
      combined_text <- Scraper.fetch_and_combine env (urls request);;
      if is_empty combined_text
         || (String.length (strip combined_text) =? 0)%nat
      then raise (HTTPException 500 EXTRACT_FAILED)
      else
        h <- uuid4 env;;
        let index_name := ("webindex-" ++ prefix 8 h)%string in
        create_index_if_not_exists_async env index_name 768;;
        optimized_text <- optimize_text_for_rag env combined_text;;
        process_text_and_upsert env index_name optimized_text;;
        summary <- generate_summary_with_groq env optimized_text;;
        ret {| success := true; index_name := Some index_name;
               summary := Some summary |}
  end.

Definition NOT_AVAILABLE : string :=
  "This information is not available in the indexed documents.".

Definition ask (env : Env) (req : AskRequest) (authorization : option string)
  : M AskResponse :=
  if unauthorized env authorization
  then raise (HTTPException 401 "Invalid API Key.")
  else if is_empty (ask_index_name req)
  then raise (HTTPException 400 "index_name required")
  else
    query_vec <- aembed_query env (question req);;
    context <- _search_index_sync env (ask_index_name req) query_vec 5;;
    if is_empty (strip context)
    then ret {| answer := NOT_AVAILABLE |}
    else
      answer <- answer_with_context_groq env (question req) context
                  (history req);;
      ret {| answer := answer |}.

End Rag.

(* ================================================================== *)
(** * Intent classification in excel_generator.py and visuals.py *)

(** A value found in a history entry, as far as the code looks at it: a
    string, or anything else that JSON allows (null, a number, a list,
    ...), of which only what [str()] makes of it is kept. *)
Inductive Field : Type :=
| FStr (s : string)
| FOther (rendering : string).

(** A history entry that is a dict; its keys may be missing. *)
Record DictMessage : Type := {
  d_role : option Field;
  d_text : option Field
}.

(** An entry of a history that is a plain [list]: a dict, or any other
    value. *)
Inductive HistoryItem : Type :=
| Dict (d : DictMessage)
| NotDict.

(** [msg.get(key, "")]; only a dict has [get]. *)
Definition item_get (msg : HistoryItem) (key : DictMessage -> option Field)
  : M Field :=
  match msg with
  | Dict d => ret (match key d with Some v => v | None => FStr "" end)
  | NotDict => raise (AttributeError "get")
  end.

(** [v.upper()]; only a string has [upper]. *)
Definition field_upper (v : Field) : M string :=
  match v with
  | FStr s => ret (PyStr.upper s)
  | FOther _ => raise (AttributeError "upper")
  end.

(** [f"{v}"] *)
Definition field_str (v : Field) : string :=
  match v with FStr s => s | FOther rendering => rendering end.

(** The [for msg in history[-10:]] loop of the two [_format_history]:
    the lines built, unless an entry makes it raise. *)
Fixpoint history_lines (msgs : list HistoryItem) : M (list string) :=
  match msgs with
  | [] => ret []
  | msg :: rest =>
      role <- item_get msg d_role;;
      role <- field_upper role;;
      text <- item_get msg d_text;;
      lines <- history_lines rest;;
      ret ((role ++ ": " ++ field_str text)%string :: lines)
  end.

Module ExcelGenerator.
Import PyStr.

(** [history] is declared [Optional[list]]: its entries are not
    checked before the function runs. *)
Definition _format_history (history : option (list HistoryItem)) : M string :=
  match history with
  | None | Some [] => ret ""
  | Some h =>
      lines <- history_lines (Rag.last10 h);;
      ret ("CONVERSATION HISTORY:" ++ LF ++ join LF lines ++ LF ++ LF)
  end.

Record ExcelRequest : Type := {
  query : string;
  index : string;
  history : option (list HistoryItem)
}.

Definition classify_prompt (history_block query : string) : string :=
  "You are a smart intent classifier. Based on the conversation history and the latest user message, "
  ++ "decide if the user wants to GENERATE or MODIFY an Excel/spreadsheet/table, OR if they are just asking a general question or chatting."
  ++ LF ++ LF
  ++ "Reply with EXACTLY one word:" ++ LF
  ++ "- 'excel' if they want to create, modify, restructure, or download a spreadsheet/table/Excel"
  ++ LF
  ++ "- 'chat' if they are asking a question, greeting, or anything else"
  ++ LF ++ LF
  ++ history_block
  ++ "USER MESSAGE: " ++ query ++ LF ++ LF
  ++ "INTENT:".

(** Step 0 of [create_excel], up to the assignment of [intent]; the
    history block is built before the [try]. *)
Definition create_excel_intent (env : Env) (data : ExcelRequest) : M string :=
  match GROQ_API_KEYS env with
  | [] => raise (HTTPException 500 "GROQ API keys not configured.")
  | _ :: _ =>
      history_block <- _format_history (history data);;
      let prompt := classify_prompt history_block (query data) in
      key <- random_choice env (GROQ_API_KEYS env);;
      try_except
        (classify_resp <-
           Groq.ainvoke env key "llama-3.3-70b-versatile" prompt;;
         c <- match classify_resp with
              | Some {| content := Some c |} => ret c
              | _ => raise (AttributeError "content")
              end;;
         match split (lower (strip c)) with
         | w :: _ => ret w
         | [] => raise (IndexError "list index out of range")
         end)
        (fun _ => ret "excel")
  end.

(** The test that follows: [if intent != "excel"] answers in chat. *)
Definition is_chat (intent : string) : bool :=
  negb (String.eqb intent "excel").

End ExcelGenerator.

Module Visuals.
Import PyStr.

(** [history] is declared [Optional[List[dict]]]: its entries are dicts,
    with values of any kind. *)
Definition _format_history (history : option (list DictMessage)) : M string :=
  match history with
  | None | Some [] => ret ""
  | Some h =>
      lines <- history_lines (map Dict (Rag.last10 h));;
      ret ("CONVERSATION HISTORY:" ++ LF ++ join LF lines ++ LF ++ LF)
  end.

Record VisualRequest : Type := {
  query : string;
  index : string;
  history : option (list DictMessage)
}.

Definition classify_prompt (history_block query : string) : string :=
  "You are a smart intent classifier. Based on the conversation history and the latest user message, "
  ++ "decide if the user wants to GENERATE or MODIFY a chart/visualization/graph, OR if they are just asking a general question or chatting."
  ++ LF ++ LF
  ++ "Reply with EXACTLY one word:" ++ LF
  ++ "- 'viz' if they want to create, modify, or regenerate a chart/graph/visualization"
  ++ LF
  ++ "- 'chat' if they are asking a question, greeting, or anything else"
  ++ LF ++ LF
  ++ history_block
  ++ "USER MESSAGE: " ++ query ++ LF ++ LF
  ++ "INTENT:".

(** Step 0 of [create_visuals], up to the assignment of [intent]; the
    history block is built before the [try]. *)
Definition create_visuals_intent (env : Env) (data : VisualRequest)
  : M string :=
  match GROQ_API_KEYS env with
  | [] => raise (HTTPException 500 "GROQ API keys not configured.")
  | _ :: _ =>
      history_block <- _format_history (history data);;
      let prompt := classify_prompt history_block (query data) in
      key <- random_choice env (GROQ_API_KEYS env);;
      try_except
        (classify_resp <-
           Groq.ainvoke env key "llama-3.3-70b-versatile" prompt;;
         c <- match classify_resp with
              | Some {| content := Some c |} => ret c
              | _ => raise (AttributeError "content")
              end;;
         match split (lower (strip c)) with
         | w :: _ => ret w
         | [] => raise (IndexError "list index out of range")
         end)
        (fun _ => ret "viz")
  end.

(** The test that follows: [if intent != "viz"] answers in chat. *)
Definition is_chat (intent : string) : bool :=
  negb (String.eqb intent "viz").

End Visuals.

(* ================================================================== *)
(** * Vocabulary of the statements *)

(** [m] returns [a] and leaves the world as it found it. *)
Definition yields {A} (m : M A) (a : A) : Prop :=
  forall w, m w = (Ok a, w).

(** What both extractors make of a page once its HTML is there: the
    heuristic's text if usable, else the tag-stripped text if usable. *)
Definition from_html (env : Env) (html : string) : option string :=
  match trafilatura_extract env html with
  | Returns text =>
      if Scraper.usable text then text
      else match bs_get_text env html with
           | Returns raw => if Scraper.usable (Some raw) then Some raw else None
           | Fails _ => None
           end
  | Fails _ => None
  end.

(** The part one URL contributes to the combined text. *)
Definition part_of (env : Env) (url part : string) : Prop :=
  (exists t, yields (Scraper.extract_static env url) (Some t)
             /\ part = Scraper.source_part url t)
  \/ (exists t, yields (Scraper.extract_static env url) None
                /\ yields (Scraper.extract_js env url) (Some t)
                /\ part = Scraper.source_part url t)
  \/ (yields (Scraper.extract_static env url) None
      /\ yields (Scraper.extract_js env url) None
      /\ part = Scraper.placeholder url).

(** The first whitespace-delimited token of a string, if there is one:
    skip the leading whitespace, read up to the next whitespace. *)
Fixpoint take_word (s : string) : string :=
  match s with
  | EmptyString => EmptyString
  | String c r => if PyStr.is_space c then EmptyString
                  else String c (take_word r)
  end.

Definition first_token (s : string) : option string :=
  let t := take_word (PyStr.lstrip s) in
  if PyStr.is_empty t then None else Some t.

(** The k-th batch of the embedding client:
    [texts[k*batch_size : k*batch_size + batch_size]]. *)
Definition batch (texts : list string) (batch_size : Z) (k : nat)
  : list string :=
  Rag.slice texts (Z.of_nat k * batch_size)%Z
            (Z.of_nat k * batch_size + batch_size)%Z.

(** The vectors the endpoint's answers [resp] put together for the
    batches of [n] texts that start at [o], [o + n], ... *)
Definition vectors_from (resp : list string -> list Vector)
    (texts : list string) (n fuel o : nat) : list Vector :=
  List.concat
    (map resp
       (map (fun i => Rag.slice texts i (i + Z.of_nat n)%Z)
            (Rag.range_up fuel (Z.of_nat o) (Z.of_nat (List.length texts))
                          (Z.of_nat n)))).

(** An exception that is not an [HTTPException]. *)
Definition not_http (e : exn) : Prop :=
  forall c d, e <> HTTPException c d.

(** [m] changes the world only along [R], and raises no [HTTPException]. *)
Definition obeys {A} (R : World -> World -> Prop) (m : M A) : Prop :=
  forall w r w',
    m w = (r, w') -> R w w' /\ (forall e, r = Raise e -> not_http e).

Definition is_llm_call (ev : Event) : bool :=
  match ev with EvLlm _ _ _ => true | _ => false end.

(** From [w] to [w'] the listing of the store is the same. *)
Definition same_names (w w' : World) : Prop :=
  Pinecone.names w' = Pinecone.names w.

(** From [w] to [w'] the chat model was not called. *)
Definition no_llm_call (w w' : World) : Prop :=
  exists evs, trace w' = (trace w ++ evs)%list
              /\ forallb (fun ev => negb (is_llm_call ev)) evs = true.

(** An attempt with [key] fails: the call raises, or the reply has no
    content. *)
Definition key_fails (env : Env) (key model_name prompt : string) : Prop :=
  match groq_ainvoke env key model_name prompt with
  | Fails _ => True
  | Returns None => True
  | Returns (Some msg) => truthy (content msg) = false
  end.

(** The label the classifier takes from the model's reply: the first
    token of the content, lower-cased; [fallback] when the call raised or
    the reply holds no token. *)
Definition label_of (fallback : string) (reply : outcome (option AIMessage))
  : string :=
  match reply with
  | Returns (Some {| content := Some c |}) =>
      match first_token c with
      | Some t => PyStr.lower t
      | None => fallback
      end
  | _ => fallback
  end.

(** The embedding endpoint answers every batch with [resp batch], one
    vector per text. *)
Definition one_vector_per_text (env : Env)
    (resp : list string -> list Vector) : Prop :=
  forall batch,
    List.length (resp batch) = List.length batch
    /\ exists r, embedding_post env batch = Returns r
                 /\ (200 <= resp_status r <= 299)%Z
                 /\ resp_json r = Returns (Some (resp batch)).


(* ================================================================== *)
(** * A concrete environment and world, for running the model *)

Module Demo.

Definition page : string :=
  "Revenue: 10. Profit: 2. Revenue: 10. Profit: 2. Revenue: 10. Profit: 2. "
  ++ "Revenue: 10. Profit: 2. Revenue: 10. Profit: 2. Revenue: 10. Profit: 2. "
  ++ "Revenue: 10. Profit: 2. Revenue: 10. Profit: 2. Revenue: 10. Profit: 2. "
  ++ "Revenue: 10. Profit: 2.".

Definition post_ok (texts : list string) : outcome HttpResponse :=
  Returns {| resp_status := 200;
             resp_json := Returns (Some (map (fun _ => [1%float]) texts)) |}.

Definition reply (c : string) : outcome (option AIMessage) :=
  Returns (Some {| content := Some c |}).

(** An environment from its batch size, embedding endpoint, chat model
    and store failures; the web always serves [page]. *)
Definition make (batch_size : Z)
    (post : list string -> outcome HttpResponse)
    (groq : string -> string -> string -> outcome (option AIMessage))
    (fault : PineconeCall -> option string) : Env := {|
  API_KEY := None;
  GROQ_API_KEYS := ["k1"; "k2"];
  EMBEDDING_API_BATCH_SIZE := batch_size;
  requests_get := fun url => Returns ("<html>" ++ url ++ "</html>");
  playwright_content := fun url => Returns ("<html>" ++ url ++ "</html>");
  trafilatura_extract := fun _ => Returns (Some page);
  bs_get_text := fun html => Returns html;
  embedding_post := post;
  split_text := fun t => Returns [t];
  groq_ainvoke := groq;
  pinecone_fault := fault;
  pinecone_query := fun _ _ _ _ => Returns {| qr_matches := Some [] |};
  randbelow := fun n => n;
  uuid4_hex := fun _ => "0123456789abcdef0123456789abcdef"
|}.

(** Every collaborator answers; batches of two. *)
Definition env : Env :=
  make 2 post_ok (fun _ _ _ => reply " Excel now ") (fun _ => None).

(** The store refuses every deletion. *)
Definition env_delete_refused : Env :=
  make 2 post_ok (fun _ _ _ => reply " Excel now ")
       (fun c => match c with
                 | DeleteIndex _ => Some "deletion refused"
                 | _ => None
                 end).

(** [EMBEDDING_API_BATCH_SIZE=0] *)
Definition env_batch_zero : Env :=
  make 0 post_ok (fun _ _ _ => reply " Excel now ") (fun _ => None).

(** The embedding endpoint is down. *)
Definition env_embedding_down : Env :=
  make 2 (fun _ => Fails "connection refused")
       (fun _ _ _ => reply " Excel now ") (fun _ => None).

(** Every key is rate-limited. *)
Definition env_llm_down : Env :=
  make 2 post_ok (fun _ _ _ => Fails "rate limit") (fun _ => None).

Definition ix (name : string) : Index :=
  {| idx_name := name; idx_dimension := 768; idx_metric := "cosine";
     idx_vectors := [] |}.

Definition empty_world : World :=
  {| indexes := []; trace := []; uuid_count := 0 |}.

(** A store at its ceiling. *)
Definition full_world : World :=
  {| indexes := [ix "a"; ix "b"; ix "c"; ix "d"; ix "e"];
     trace := []; uuid_count := 0 |}.

End Demo.

(** The entries of a history that [_format_history] looks at: the last
    ten. *)
Definition recent_items (history : option (list HistoryItem))
  : list HistoryItem :=
  Rag.last10 (match history with Some h => h | None => [] end).

Definition recent_dicts (history : option (list DictMessage))
  : list HistoryItem :=
  map Dict (Rag.last10 (match history with Some h => h | None => [] end)).

(** The entry is a dict whose role, if given, is a string. *)
Definition well_formed (msg : HistoryItem) : bool :=
  match msg with
  | Dict d => match d_role d with Some (FOther _) => false | _ => true end
  | NotDict => false
  end.

(** The entry is a dict whose role and text, if given, are strings. *)
Definition typed (msg : HistoryItem) : bool :=
  match msg with
  | Dict d =>
      match d_role d with Some (FOther _) => false | _ => true end
      && match d_text d with Some (FOther _) => false | _ => true end
  | NotDict => false
  end.

(** The text a match of the store carries: that of its metadata, the
    empty string when the metadata or its text is missing. *)
Definition carries (m : Match) (t : string) : Prop :=
  match match_metadata m with
  | None => t = ""
  | Some md =>
      match md_text md with
      | None => t = ""
      | Some text => t = text
      end
  end.

(* ================================================================== *)
(** * More vocabulary *)

(** Every character of the string is whitespace. *)
Fixpoint all_space (s : string) : bool :=
  match s with
  | EmptyString => true
  | String c r => PyStr.is_space c && all_space r
  end.

(** The endpoint's answer to a batch is no list of vectors: the request
    raises, the status is not 2xx, the body does not decode, or it has no
    ["embeddings"] key. *)
Definition batch_fails (env : Env) (b : list string) : Prop :=
  match embedding_post env b with
  | Fails _ => True
  | Returns r =>
      ((200 <=? resp_status r) && (resp_status r <=? 299))%Z = false
      \/ match resp_json r with
         | Returns (Some _) => False
         | _ => True
         end
  end.

(** The chat model answers [key] on [prompt] with the content [c]. *)
Definition key_answers (env : Env) (key prompt c : string) : Prop :=
  groq_ainvoke env key Rag.MODEL_NAME prompt
  = Returns (Some {| content := Some c |})
  /\ c <> "".

(** The calls to the chat model that trying [keys] on [prompt] logs. *)
Definition llm_events (prompt : string) (keys : list string) : list Event :=
  map (fun key => EvLlm key Rag.MODEL_NAME prompt) keys.

(** The world after the calls [evs] were logged. *)
Definition add_events (evs : list Event) (w : World) : World :=
  {| indexes := indexes w; trace := (trace w ++ evs)%list;
     uuid_count := uuid_count w |}.

(** More environments for running the model: [Demo.env] with one
    collaborator replaced. *)
Module Demo2.

Definition with_query
    (q : list Index -> string -> Vector -> Z -> outcome QueryResponse)
    (env : Env) : Env := {|
  API_KEY := API_KEY env;
  GROQ_API_KEYS := GROQ_API_KEYS env;
  EMBEDDING_API_BATCH_SIZE := EMBEDDING_API_BATCH_SIZE env;
  requests_get := requests_get env;
  playwright_content := playwright_content env;
  trafilatura_extract := trafilatura_extract env;
  bs_get_text := bs_get_text env;
  embedding_post := embedding_post env;
  split_text := split_text env;
  groq_ainvoke := groq_ainvoke env;
  pinecone_fault := pinecone_fault env;
  pinecone_query := q;
  randbelow := randbelow env;
  uuid4_hex := uuid4_hex env
|}.

Definition with_api_key (k : option string) (env : Env) : Env := {|
  API_KEY := k;
  GROQ_API_KEYS := GROQ_API_KEYS env;
  EMBEDDING_API_BATCH_SIZE := EMBEDDING_API_BATCH_SIZE env;
  requests_get := requests_get env;
  playwright_content := playwright_content env;
  trafilatura_extract := trafilatura_extract env;
  bs_get_text := bs_get_text env;
  embedding_post := embedding_post env;
  split_text := split_text env;
  groq_ainvoke := groq_ainvoke env;
  pinecone_fault := pinecone_fault env;
  pinecone_query := pinecone_query env;
  randbelow := randbelow env;
  uuid4_hex := uuid4_hex env
|}.

(** Two matches, neither with any text. *)
Definition env_textless_matches : Env :=
  with_query
    (fun _ _ _ _ =>
       Returns {| qr_matches :=
                    Some [ {| match_metadata := None |};
                           {| match_metadata := Some {| md_text := None |} |} ] |})
    Demo.env.

(** The first key tried is rate-limited, the second one answers. *)
Definition env_first_key_down : Env :=
  Demo.make 2 Demo.post_ok
    (fun key _ _ => if String.eqb key "k2" then Fails "rate limit"
                    else Demo.reply "  Revenue is 10.  ")
    (fun _ => None).

(** The endpoint refuses every batch that holds the text ["c"]. *)
Definition env_one_batch_fails : Env :=
  Demo.make 2
    (fun texts => if existsb (String.eqb "c") texts then Fails "timeout"
                  else Demo.post_ok texts)
    (fun _ _ _ => Demo.reply "ok") (fun _ => None).

(** The store refuses every creation. *)
Definition env_create_refused : Env :=
  Demo.make 2 Demo.post_ok (fun _ _ _ => Demo.reply "ok")
    (fun c => match c with
              | CreateIndex _ _ => Some "quota exceeded"
              | _ => None
              end).

(** A store below its ceiling. *)
Definition small_world : World :=
  {| indexes := [Demo.ix "a"; Demo.ix "b"]; trace := []; uuid_count := 0 |}.

(** A store above its ceiling. *)
Definition crowded_world : World :=
  {| indexes := [Demo.ix "a"; Demo.ix "b"; Demo.ix "c"; Demo.ix "d";
                 Demo.ix "e"; Demo.ix "g"];
     trace := []; uuid_count := 0 |}.

End Demo2.

(** The records [process_text_and_upsert] builds for the pairs of a chunk
    and its vector, the first one being number [i] and taking the [u]-th
    uuid. *)
Fixpoint records_of (env : Env) (i u : nat) (pairs : list (string * Vector))
  : list VectorRecord :=
  match pairs with
  | [] => []
  | (chunk, vec) :: rest =>
      {| rec_id := "doc_" ++ PyStr.of_nat i ++ "_"
                   ++ PyStr.prefix 8 (uuid4_hex env u);
         rec_values := vec;
         rec_text := chunk |} :: records_of env (S i) (S u) rest
  end.

(** The indexes after [recs] were written to the index called [name]. *)
Definition append_records (name : string) (recs : list VectorRecord)
    (ixs : list Index) : list Index :=
  map (fun ix =>
         if String.eqb (idx_name ix) name
         then {| idx_name := idx_name ix;
                 idx_dimension := idx_dimension ix;
                 idx_metric := idx_metric ix;
                 idx_vectors := (idx_vectors ix ++ recs)%list |}
         else ix)
      ixs.

(* ================================================================== *)
(** * The rest of excel_generator.py and visuals.py *)

(** Substring search of Python strings, for a non-empty separator. *)
Module PyText.

Fixpoint starts_with (p s : string) : bool :=
  match p with
  | EmptyString => true
  | String a p' =>
      match s with
      | EmptyString => false
      | String b s' => Ascii.eqb a b && starts_with p' s'
      end
  end.

(** [sep in s] *)
Fixpoint contains (sep s : string) : bool :=
  starts_with sep s
  || match s with
     | EmptyString => false
     | String _ r => contains sep r
     end.

(** [s.split(sep)]: the occurrences of [sep] are found from the left and
    do not overlap; [skip] counts the characters of an occurrence still
    to be passed over, [cur] is the piece being read. *)
Fixpoint split_sep_aux (sep : string) (skip : nat) (cur s : string)
  : list string :=
  match s with
  | EmptyString => [cur]
  | String c r =>
      match skip with
      | S k => split_sep_aux sep k cur r
      | O =>
          if starts_with sep s
          then cur :: split_sep_aux sep (String.length sep - 1) "" r
          else split_sep_aux sep 0 (cur ++ String c "") r
      end
  end.

Definition split_sep (sep s : string) : list string :=
  split_sep_aux sep 0 "" s.

(** [l[i]] *)
Definition item {A} (l : list A) (i : nat) : M A :=
  match nth_error l i with
  | Some x => ret x
  | None => raise (IndexError "list index out of range")
  end.

Definition DQ : string := String (ascii_of_nat 34) EmptyString.

End PyText.

(** A value as [json.loads] returns it. *)
#[warnings="-register-all"] Inductive Json : Type :=
| JNull
| JBool (b : bool)
| JNumber (literal : string)
| JString (s : string)
| JArray (items : list Json)
| JObject (fields : list (string * Json)).

(** The collaborators of the two export endpoints. *)
Record Tools : Type := {
  (** [json.loads] of a string; a failure is a [JSONDecodeError] *)
  json_loads : string -> outcome Json;
  (** [build_excel_base64], with pandas and openpyxl behind it *)
  build_excel_base64 : list Json -> outcome string;
  (** [rag.ChatMessage(role=r, text=t)] when [r] or [t] is no string:
      what pydantic's validation makes of it *)
  chat_message_of : Field -> Field -> outcome Rag.ChatMessage
}.

(** The second [random.choice] of a request. *)
Definition random_choice_at (env : Env) (draw : nat) (pool : list string)
  : M string :=
  match pool with
  | [] => raise (IndexError "Cannot choose from an empty sequence")
  | d :: _ =>
      ret (nth (Nat.modulo (randbelow env draw) (List.length pool)) pool d)
  end.

(** [except HTTPException: raise] followed by
    [except Exception as e: raise HTTPException(500, detail(str(e)))];
    the message of a failure stands for [str(e)]. *)
Definition http_or_500 {A} (detail : string -> string) (body : M A) : M A :=
  try_except body
    (fun e =>
       match e with
       | HTTPException _ _ => raise e
       | ValueError m | IndexError m | AttributeError m | ExternalError m =>
           raise (HTTPException 500 (detail m))
       end).

(** [rag.ChatMessage(role=m.get("role", ""), text=m.get("text", ""))] *)
Definition to_chat_message (tools : Tools) (m : HistoryItem)
  : M Rag.ChatMessage :=
  role <- item_get m d_role;;
  text <- item_get m d_text;;
  match role, text with
  | FStr r, FStr t => ret {| Rag.role := r; Rag.text := t |}
  | _, _ => call (chat_message_of tools role text)
  end.

(** [[rag.ChatMessage(...) for m in (data.history or [])]] *)
Fixpoint chat_history (tools : Tools) (msgs : list HistoryItem)
  : M (list Rag.ChatMessage) :=
  match msgs with
  | [] => ret []
  | m :: rest =>
      c <- to_chat_message tools m;;
      cs <- chat_history tools rest;;
      ret (c :: cs)
  end.

(** The request of the chat branch, with the whole history, and the one
    of the data step, whose history is the default. *)
Definition chat_request (index query : string)
    (history : list Rag.ChatMessage) : Rag.AskRequest :=
  {| Rag.ask_index_name := index;
     Rag.question := query;
     Rag.history := Some history |}.

Definition data_request (index query : string) : Rag.AskRequest :=
  {| Rag.ask_index_name := index;
     Rag.question := query;
     Rag.history := Some [] |}.

(** [response.content.strip()] *)
Definition stripped_content (response : option AIMessage) : M string :=
  match response with
  | Some {| content := Some c |} => ret (PyStr.strip c)
  | _ => raise (AttributeError "content")
  end.

(** The removal of a Markdown code fence, the same lines in both
    files. *)
Definition unfence (content : string) : M string :=
  if PyText.contains "```json" content then
    part <- PyText.item (PyText.split_sep "```json" content) 1;;
    body <- PyText.item (PyText.split_sep "```" part) 0;;
    ret (PyStr.strip body)
  else if PyText.contains "```" content then
    part <- PyText.item (PyText.split_sep "```" content) 1;;
    body <- PyText.item (PyText.split_sep "```" part) 0;;
    ret (PyStr.strip body)
  else ret content.

Module ExcelEndpoint.
Import PyStr PyText ExcelGenerator.

Record ExcelResponse : Type := {
  message : string;
  response_type : string;
  filename : option string;
  file_base64 : option string
}.

Definition structure_prompt (history_block rag_answer query : string)
  : string :=
  "You are a Data Structuring Assistant." ++ LF
  ++ "Convert the text data below into a JSON array of objects suitable for an Excel spreadsheet."
  ++ LF ++ LF
  ++ "RULES:" ++ LF
  ++ "- Each object in the array represents ONE ROW." ++ LF
  ++ "- The keys of every object are the COLUMN HEADERS (use short, clean names)."
  ++ LF
  ++ "- Remove any markdown formatting (**, ##, etc.) from values." ++ LF
  ++ "- If the data compares entities (e.g. companies), each entity should be its own row."
  ++ LF
  ++ "- If the data is a list of metrics, each metric should be its own row."
  ++ LF
  ++ "- Keep numbers as numbers, not strings." ++ LF
  ++ "- Use the conversation history (if any) to understand follow-up requests like restructuring or reformatting."
  ++ LF
  ++ "- Return ONLY the raw JSON array. No explanation, no markdown code fences."
  ++ LF ++ LF
  ++ history_block
  ++ "DATA:" ++ LF ++ rag_answer ++ LF ++ LF
  ++ "USER REQUEST: " ++ query ++ LF ++ LF
  ++ "JSON ARRAY:".

(** The [try] block of step 2.  Its two [except] clauses tell a
    [JSONDecodeError] from any other exception: the former, which only
    [json.loads] is taken to raise, is carried out of the block as None,
    the latter are raised in it. *)
Definition structure (env : Env) (tools : Tools) (key prompt : string)
  : M (option (list Json)) :=
  response <- Groq.ainvoke env key "llama-3.3-70b-versatile" prompt;;
  content <- stripped_content response;;
  content <- unfence content;;
  match json_loads tools content with
  | Fails _ => ret None
  | Returns (JArray (row :: rows)) => ret (Some (row :: rows))
  | Returns _ => raise (ValueError "LLM returned empty or non-list JSON.")
  end.

Definition create_excel (env : Env) (tools : Tools) (data : ExcelRequest)
    (authorization : option string) : M ExcelResponse :=
  intent <- create_excel_intent env data;;
  if is_chat intent then
    http_or_500 (fun m => m)
      (chat_history <-
         chat_history tools
           (match history data with Some h => h | None => [] end);;
       ask_response <-
         Rag.ask env (chat_request (index data) (query data) chat_history)
           authorization;;
       ret {| message := Rag.answer ask_response;
              response_type := "chat";
              filename := None;
              file_base64 := None |})
  else
    rag_answer <-
      http_or_500 (fun m => "Failed to retrieve data for Excel: " ++ m)
        (ask_response <-
           Rag.ask env (data_request (index data) (query data))
             authorization;;
         ret (Rag.answer ask_response));;
    if is_empty rag_answer
    then raise (HTTPException 400 "No data found to export.")
    else
      history_block <- _format_history (history data);;
      let prompt := structure_prompt history_block rag_answer (query data) in
      match GROQ_API_KEYS env with
      | [] => raise (HTTPException 500 "GROQ API keys not configured.")
      | _ :: _ =>
          key <- random_choice_at env 1 (GROQ_API_KEYS env);;
          parsed <-
            try_except (structure env tools key prompt)
              (fun _ =>
                 raise (HTTPException 500
                          "Failed to generate structured data for Excel."));;
          match parsed with
          | None =>
              raise (HTTPException 500
                       "Failed to structure data into table format.")
          | Some table_data =>
              file_base64 <-
                try_except (call (build_excel_base64 tools table_data))
                  (fun _ =>
                     raise (HTTPException 500
                              "Failed to generate Excel file."));;
              ret {| message :=
                       "Excel generated with "
                       ++ of_nat (List.length table_data) ++ " rows.";
                     response_type := "excel";
                     filename := Some "export.xlsx";
                     file_base64 := Some file_base64 |}
          end
      end.

End ExcelEndpoint.

Module VisualsEndpoint.
Import PyStr PyText Visuals.

(** How far [create_visuals] is followed: to the response of the chat
    branch, or to the three values read off the model's JSON, before the
    generated code is run. *)
Inductive Plan : Type :=
| Chat (message : string)
| Code (task viz_type code : Json).

Definition code_prompt (history_block rag_answer query : string) : string :=
  "You are a Data Visualization Code Generator." ++ LF ++ LF
  ++ "STRICT RULES — FOLLOW EVERY SINGLE ONE:" ++ LF
  ++ "1. Use ONLY 'matplotlib.pyplot' (imported as plt). Do NOT call plt.show()."
  ++ LF
  ++ "2. Extract data values EXACTLY as they appear in the DATA section below. "
  ++ "DO NOT invent, estimate, or hallucinate any numbers. "
  ++ "If DATA says 'Market Cap: 3.94T', use 3.94 (in Trillions). If it says '226.5B', use 226.5 (in Billions)."
  ++ LF
  ++ "3. Keep the UNIT consistent across all values. Convert all to the same unit "
  ++ "(e.g., all in Trillions or all in Billions). Label the axis with the unit you chose (e.g., 'Market Cap (T)' or 'Revenue (B)')."
  ++ LF
  ++ "4. Use plt.figure(figsize=(12, 7)) for good sizing." ++ LF
  ++ "5. Use plt.xticks(rotation=45, ha='right') for readable x-labels. Use plt.tight_layout()."
  ++ LF
  ++ "6. For bar charts, use distinct colors or a colormap for visual clarity."
  ++ LF
  ++ "7. If the user's follow-up request asks to change the chart (e.g., scale, style, type), "
  ++ "apply the change to the SAME data from the DATA section — do NOT re-extract or guess new numbers."
  ++ LF
  ++ "8. If the user asks for a specific y-axis scale (e.g., '100, 200, 300'), set plt.yticks accordingly "
  ++ "and make sure the data values match the unit implied by that scale."
  ++ LF ++ LF
  ++ "Return ONLY a valid JSON object with this structure:" ++ LF
  ++ "{" ++ LF
  ++ "  " ++ DQ ++ "task" ++ DQ ++ ": " ++ DQ
  ++ "Short description of what is being visualized" ++ DQ ++ "," ++ LF
  ++ "  " ++ DQ ++ "visualization_type" ++ DQ ++ ": " ++ DQ
  ++ "Type of chart (e.g., Bar Chart, Pie Chart)" ++ DQ ++ "," ++ LF
  ++ "  " ++ DQ ++ "code" ++ DQ ++ ": " ++ DQ
  ++ "The python code string (use \n for newlines)" ++ DQ ++ LF
  ++ "}" ++ LF ++ LF
  ++ history_block
  ++ "DATA:" ++ LF ++ rag_answer ++ LF ++ LF
  ++ "USER REQUEST: " ++ query ++ LF
  ++ "JSON OUTPUT:".

(** [parsed_json.get(key, default)]; only a dict has [get]. *)
Definition json_get (parsed_json : Json) (key : string) (default : Json)
  : M Json :=
  match parsed_json with
  | JObject fields =>
      match find (fun kv => String.eqb (fst kv) key) fields with
      | Some kv => ret (snd kv)
      | None => ret default
      end
  | _ => raise (AttributeError "get")
  end.

(** The [try] block of step 2. *)
Definition generate_code (env : Env) (tools : Tools) (key prompt : string)
  : M Plan :=
  response <- Groq.ainvoke env key "llama-3.3-70b-versatile" prompt;;
  content <- stripped_content response;;
  content <- unfence content;;
  parsed_json <- match json_loads tools content with
                 | Returns j => ret j
                 | Fails m => raise (ValueError m)
                 end;;
  task <- json_get parsed_json "task" (JString "Visualization");;
  viz_type <- json_get parsed_json "visualization_type" (JString "Chart");;
  code <- json_get parsed_json "code" (JString "");;
  ret (Code task viz_type code).

(** [create_visuals] up to the call of [execute_generated_code]. *)
Definition create_visuals (env : Env) (tools : Tools) (data : VisualRequest)
    (authorization : option string) : M Plan :=
  intent <- create_visuals_intent env data;;
  if is_chat intent then
    http_or_500 (fun m => m)
      (chat_history <-
         chat_history tools
           (map Dict (match history data with Some h => h | None => [] end));;
       ask_response <-
         Rag.ask env (chat_request (index data) (query data) chat_history)
           authorization;;
       ret (Chat (Rag.answer ask_response)))
  else
    rag_answer <-
      http_or_500 (fun m => "Failed to retrieve data for visualization: " ++ m)
        (ask_response <-
           Rag.ask env (data_request (index data) (query data))
             authorization;;
         ret (Rag.answer ask_response));;
    history_block <- _format_history (history data);;
    let prompt := code_prompt history_block rag_answer (query data) in
    match GROQ_API_KEYS env with
    | [] => raise (HTTPException 500 "GROQ API keys not configured.")
    | _ :: _ =>
        key <- random_choice_at env 1 (GROQ_API_KEYS env);;
        try_except (generate_code env tools key prompt)
          (fun _ =>
             raise (HTTPException 500
                      "Failed to generate visualization code."))
    end.

End VisualsEndpoint.

(** The string holds no backtick. *)
Fixpoint tickless (s : string) : bool :=
  match s with
  | EmptyString => true
  | String c r => negb (Ascii.eqb c "`") && tickless r
  end.

(** The exception is an [HTTPException] with one of the three status
    codes the endpoints use. *)
Definition is_http (e : exn) : Prop :=
  exists status detail,
    e = HTTPException status detail
    /\ (status = 400 \/ status = 401 \/ status = 500)%Z.

(** Whatever [m] raises is such an exception. *)
Definition only_http {A} (m : M A) : Prop :=
  forall w e w', m w = (Raise e, w') -> is_http e.

(** Environments for running the export endpoints. *)
Module Demo3.

(** Nothing parses as JSON. *)
Definition tools : Tools := {|
  json_loads := fun _ => Fails "Expecting value";
  build_excel_base64 := fun _ => Returns "UEsDBA==";
  chat_message_of := fun _ _ => Fails "Input should be a valid string"
|}.

(** The classifier says excel, the store has one match for every query,
    and the answering model replies with a blank. *)
Definition env_blank_answer : Env :=
  Demo2.with_query
    (fun _ _ _ _ =>
       Returns {| qr_matches :=
                    Some [ {| match_metadata :=
                                Some {| md_text := Some "Revenue: 10" |} |} ] |})
    (Demo.make 2 Demo.post_ok
       (fun _ model _ =>
          if String.eqb model "llama-3.3-70b-versatile"
          then Demo.reply "excel" else Demo.reply " ")
       (fun _ => None)).

(** [API_KEY] is set. *)
Definition env_locked : Env := Demo2.with_api_key (Some "secret") Demo.env.

Definition excel_request : ExcelGenerator.ExcelRequest :=
  {| ExcelGenerator.query := "Export the revenue";
     ExcelGenerator.index := "webindex-01234567";
     ExcelGenerator.history := Some [] |}.

Definition visual_request : Visuals.VisualRequest :=
  {| Visuals.query := "Plot the revenue";
     Visuals.index := "webindex-01234567";
     Visuals.history := Some [] |}.

(** A history whose one entry has the number 1 as its role. *)
Definition excel_request_role_1 : ExcelGenerator.ExcelRequest :=
  {| ExcelGenerator.query := "Export the revenue";
     ExcelGenerator.index := "webindex-01234567";
     ExcelGenerator.history :=
       Some [Dict {| d_role := Some (FOther "1"); d_text := None |}] |}.

Definition visual_request_role_1 : Visuals.VisualRequest :=
  {| Visuals.query := "Plot the revenue";
     Visuals.index := "webindex-01234567";
     Visuals.history :=
       Some [{| d_role := Some (FOther "1"); d_text := None |}] |}.

End Demo3.

(** [s.strip(chars)], the set of characters given by its test, and the
    cleaning of a column header in [build_excel_base64]:
    [col.strip().strip("*")]. *)
Module Header.

Fixpoint lstrip_of (p : ascii -> bool) (s : string) : string :=
  match s with
  | EmptyString => EmptyString
  | String c r => if p c then lstrip_of p r else s
  end.

Fixpoint rstrip_of (p : ascii -> bool) (s : string) : string :=
  match s with
  | EmptyString => EmptyString
  | String c r =>
      let r' := rstrip_of p r in
      if p c && PyStr.is_empty r' then EmptyString else String c r'
  end.

Definition is_star (c : ascii) : bool := Ascii.eqb c "*".

Definition clean_header (col : string) : string :=
  rstrip_of is_star (lstrip_of is_star (PyStr.strip col)).

(** Every character of the string passes the test. *)
Fixpoint all_chars (p : ascii -> bool) (s : string) : bool :=
  match s with
  | EmptyString => true
  | String c r => p c && all_chars p r
  end.

(** The last character of [String c r]. *)
Fixpoint last_of (c : ascii) (r : string) : ascii :=
  match r with
  | EmptyString => c
  | String d r' => last_of d r'
  end.

End Header.

(** A page whose heuristic text has exactly 200 characters and whose
    tag-stripped text is short. *)
Module Demo4.

Definition text_200 : string := PyStr.join "" (repeat "0123456789" 20).

Definition env_heuristic_200 : Env := {|
  API_KEY := API_KEY Demo.env;
  GROQ_API_KEYS := GROQ_API_KEYS Demo.env;
  EMBEDDING_API_BATCH_SIZE := EMBEDDING_API_BATCH_SIZE Demo.env;
  requests_get := requests_get Demo.env;
  playwright_content := playwright_content Demo.env;
  trafilatura_extract := fun _ => Returns (Some text_200);
  bs_get_text := fun _ => Returns "Menu";
  embedding_post := embedding_post Demo.env;
  split_text := split_text Demo.env;
  groq_ainvoke := groq_ainvoke Demo.env;
  pinecone_fault := pinecone_fault Demo.env;
  pinecone_query := pinecone_query Demo.env;
  randbelow := randbelow Demo.env;
  uuid4_hex := uuid4_hex Demo.env
|}.

End Demo4.

(* ================================================================== *)
(** * Facts about the monad *)

Section MonadFacts.
Context {A B : Type}.

Lemma bind_ok (m : M A) (k : A -> M B) w a w' :
  m w = (Ok a, w') -> bind m k w = k a w'.
Proof. intros H. unfold bind. rewrite H. reflexivity. Qed.

Lemma bind_raise (m : M A) (k : A -> M B) w e w' :
  m w = (Raise e, w') -> bind m k w = (Raise e, w').
Proof. intros H. unfold bind. rewrite H. reflexivity. Qed.

Lemma bind_yields (m : M A) (k : A -> M B) a w :
  yields m a -> bind m k w = k a w.
Proof. intros H. apply bind_ok, H. Qed.

Lemma bind_inv (m : M A) (k : A -> M B) w r w' :
  bind m k w = (r, w') ->
  (exists a w1, m w = (Ok a, w1) /\ k a w1 = (r, w'))
  \/ (exists e, m w = (Raise e, w') /\ r = Raise e).
Proof.
  unfold bind. destruct (m w) as [[a|e] w1]; intros H.
  - left. eauto.
  - right. inversion H; subst. eauto.
Qed.

End MonadFacts.

(* ================================================================== *)
(** * Facts about Python strings *)

Module PyStrFacts.
Import PyStr.

Lemma is_space_lower_char c : is_space (lower_char c) = is_space c.
Proof. destruct c as [[] [] [] [] [] [] [] []]; reflexivity. Qed.

(** A string that starts with a non-space character keeps it through
    [strip]. *)
Lemma strip_head c r :
  is_space c = false -> strip (String c r) = String c (rstrip r).
Proof.
  intros H. unfold strip. simpl. rewrite H. simpl. rewrite H. reflexivity.
Qed.

(** What [lstrip] leaves is empty or starts with a non-space. *)
Lemma lstrip_head s :
  lstrip s = "" \/ exists c r, lstrip s = String c r /\ is_space c = false.
Proof.
  induction s as [|c r IH]; simpl; [left; reflexivity|].
  destruct (is_space c) eqn:E; [exact IH | right; eauto].
Qed.

Lemma lstrip_strip s : lstrip (strip s) = strip s.
Proof.
  unfold strip. destruct (lstrip_head s) as [E | (c & r & E & Hc)];
    rewrite E; simpl; [reflexivity|].
  rewrite Hc. simpl. rewrite Hc. reflexivity.
Qed.

Lemma take_word_rstrip s : take_word (rstrip s) = take_word s.
Proof.
  induction s as [|c r IH]; simpl; [reflexivity|].
  destruct (is_space c) eqn:E; simpl.
  - destruct (is_empty (rstrip r)); simpl; [reflexivity|].
    rewrite E. reflexivity.
  - rewrite E, IH. reflexivity.
Qed.

Lemma lstrip_lower s : lstrip (lower s) = lower (lstrip s).
Proof.
  unfold lower. induction s as [|c r IH]; simpl; [reflexivity|].
  rewrite is_space_lower_char.
  destruct (is_space c); [exact IH | reflexivity].
Qed.

Lemma take_word_lower s : take_word (lower s) = lower (take_word s).
Proof.
  unfold lower. induction s as [|c r IH]; simpl; [reflexivity|].
  rewrite is_space_lower_char.
  destruct (is_space c); simpl; [reflexivity | rewrite IH; reflexivity].
Qed.

Lemma is_empty_lower s : is_empty (lower s) = is_empty s.
Proof. destruct s; reflexivity. Qed.

Lemma append_empty_r s : (s ++ "")%string = s.
Proof. induction s as [|c r IH]; simpl; [|rewrite IH]; reflexivity. Qed.

Lemma string_of_snoc l c t :
  (string_of_list_ascii (l ++ [c]) ++ t)%string
  = (string_of_list_ascii l ++ String c t)%string.
Proof. induction l as [|a l IH]; simpl; [|rewrite IH]; reflexivity. Qed.

(** With a word in progress, the first item of the split is that word
    completed up to the next space. *)
Lemma split_aux_head cur s :
  cur <> [] ->
  hd_error (split_aux cur s)
  = Some (string_of_list_ascii (rev cur) ++ take_word s)%string.
Proof.
  revert cur. induction s as [|c r IH]; intros cur Hcur; simpl.
  - destruct cur as [|a cur]; [contradiction|].
    simpl. rewrite append_empty_r. reflexivity.
  - destruct (is_space c).
    + destruct cur as [|a cur]; [contradiction|].
      simpl. rewrite append_empty_r. reflexivity.
    + rewrite IH by discriminate. simpl. rewrite string_of_snoc.
      reflexivity.
Qed.

(** [s.split()[0]], when it exists, is the first token of [s]. *)
Lemma split_head s : hd_error (split s) = first_token s.
Proof.
  unfold split, first_token.
  induction s as [|c r IH]; simpl; [reflexivity|].
  destruct (is_space c) eqn:E.
  - exact IH.
  - rewrite split_aux_head by discriminate. simpl. rewrite E. reflexivity.
Qed.

Lemma first_token_strip s : first_token (strip s) = first_token s.
Proof.
  unfold first_token. rewrite lstrip_strip. unfold strip.
  rewrite take_word_rstrip. reflexivity.
Qed.

Lemma first_token_lower s :
  first_token (lower s) = option_map lower (first_token s).
Proof.
  unfold first_token. rewrite lstrip_lower, take_word_lower, is_empty_lower.
  destruct (is_empty (take_word (lstrip s))); reflexivity.
Qed.

(** The parse of the classifier's reply: [c.strip().lower().split()[0]]
    is the first token of [c], lower-cased. *)
Lemma parse_head c :
  hd_error (split (lower (strip c))) = option_map lower (first_token c).
Proof.
  rewrite split_head, first_token_lower, first_token_strip. reflexivity.
Qed.

End PyStrFacts.

(* ================================================================== *)
(** * The text extractor *)

Module ScraperFacts.
Import PyStr PyStrFacts Scraper.

Lemma usable_long t : usable (Some t) = true -> 200 < String.length (strip t).
Proof.
  simpl. intros H. apply andb_true_iff in H. destruct H as [_ H].
  apply Nat.ltb_lt in H. exact H.
Qed.

Lemma long_usable t : 200 < String.length (strip t) -> usable (Some t) = true.
Proof.
  intros H. simpl. apply andb_true_iff. split.
  - destruct t; [simpl in H; lia | reflexivity].
  - apply Nat.ltb_lt. exact H.
Qed.

Lemma usable_truthy t : usable t = true -> truthy t = true.
Proof.
  destruct t as [s|]; simpl; [|discriminate].
  intros H. apply andb_true_iff in H. tauto.
Qed.

Lemma from_html_usable env html t :
  from_html env html = Some t -> usable (Some t) = true.
Proof.
  unfold from_html.
  destruct (trafilatura_extract env html) as [text|]; [|discriminate].
  destruct (usable text) eqn:U; [intros ->; exact U|].
  destruct (bs_get_text env html) as [raw|]; [|discriminate].
  destruct (usable (Some raw)) eqn:U'; [|discriminate].
  intros H. inversion H; subst. exact U'.
Qed.

Ltac run_extractor :=
  unfold extract_static, extract_js, from_html, try_except, bind, call,
    ret, raise;
  repeat match goal with
    | |- context [match ?o with Returns _ => _ | Fails _ => _ end] =>
        destruct o; simpl
    | |- context [if ?b then _ else _] => destruct b; simpl
    end;
  reflexivity.

Lemma extract_static_yields env url :
  yields (extract_static env url)
         (match requests_get env url with
          | Returns html => from_html env html
          | Fails _ => None
          end).
Proof. intros w. run_extractor. Qed.

Lemma extract_js_yields env url :
  yields (extract_js env url)
         (match playwright_content env url with
          | Returns html => from_html env html
          | Fails _ => None
          end).
Proof. intros w. run_extractor. Qed.

(** Neither extractor raises, and what it returns is None or a text
    that passed the length test. *)
Lemma extract_static_total env url :
  exists r, yields (extract_static env url) r
            /\ forall t, r = Some t -> usable (Some t) = true.
Proof.
  eexists. split; [apply extract_static_yields|].
  intros t. destruct (requests_get env url); [apply from_html_usable|].
  discriminate.
Qed.

Lemma extract_js_total env url :
  exists r, yields (extract_js env url) r
            /\ forall t, r = Some t -> usable (Some t) = true.
Proof.
  eexists. split; [apply extract_js_yields|].
  intros t. destruct (playwright_content env url); [apply from_html_usable|].
  discriminate.
Qed.

Lemma fetch_loop_parts env urls :
  forall parts, exists new,
    yields (fetch_loop env urls parts) (parts ++ new)%list
    /\ Forall2 (part_of env) urls new.
Proof.
  induction urls as [|url rest IH]; intros parts.
  - exists []. split; [|constructor].
    intros w. simpl. rewrite app_nil_r. reflexivity.
  - destruct (extract_static_total env url) as (rs & Hs & Us).
    destruct (extract_js_total env url) as (rj & Hj & Uj).
    destruct rs as [t|].
    + (* the static path succeeded *)
      pose proof (usable_truthy _ (Us t eq_refl)) as Tt.
      destruct (IH (parts ++ [source_part url t])%list) as (new & Hn & Fn).
      exists (source_part url t :: new). split.
      * intros w. simpl. rewrite (bind_yields _ _ _ _ Hs). rewrite Tt. simpl.
        unfold bind at 1, ret at 1. rewrite Tt. simpl. rewrite Hn.
        rewrite <- app_assoc. reflexivity.
      * constructor; [left; eauto | exact Fn].
    + destruct rj as [t|].
      * (* the rendered path succeeded *)
        pose proof (usable_truthy _ (Uj t eq_refl)) as Tt.
        destruct (IH (parts ++ [source_part url t])%list) as (new & Hn & Fn).
        exists (source_part url t :: new). split.
        -- intros w. simpl. rewrite (bind_yields _ _ _ _ Hs). simpl.
           rewrite (bind_yields _ _ _ _ Hj). rewrite Tt. simpl. rewrite Hn.
           rewrite <- app_assoc. reflexivity.
        -- constructor; [right; left; eauto | exact Fn].
      * (* both failed *)
        destruct (IH (parts ++ [placeholder url])%list) as (new & Hn & Fn).
        exists (placeholder url :: new). split.
        -- intros w. simpl. rewrite (bind_yields _ _ _ _ Hs). simpl.
           rewrite (bind_yields _ _ _ _ Hj). rewrite Hn.
           rewrite <- app_assoc. reflexivity.
        -- constructor; [right; right; auto | exact Fn].
Qed.

(** Every part starts with a character that is not whitespace. *)
Lemma part_head env url part :
  part_of env url part ->
  exists c r, part = String c r /\ is_space c = false.
Proof.
  intros [(t & _ & ->) | [(t & _ & _ & ->) | (_ & _ & ->)]];
    unfold source_part, placeholder; simpl; eauto.
Qed.

Lemma join_head sep c r rest :
  exists r', join sep (String c r :: rest) = String c r'.
Proof. destruct rest; simpl; eauto. Qed.

End ScraperFacts.

(* ================================================================== *)
(** * Frames: what a coroutine may do to the world *)

Section Frames.
Variable R : World -> World -> Prop.
Variable allowed : Event -> Prop.
Hypothesis R_refl : forall w, R w w.
Hypothesis R_trans : forall a b c, R a b -> R b c -> R a c.
Hypothesis R_event : forall e w, allowed e -> R w (add_event e w).
Hypothesis R_uuid : forall w, R w (next_uuid w).
Hypothesis R_vectors :
  forall w ixs, map idx_name ixs = map idx_name (indexes w) ->
                R w (with_indexes ixs w).

Lemma obeys_ret {A} (a : A) : obeys R (ret a).
Proof.
  intros w r w' H. inversion H; subst. split; [apply R_refl|discriminate].
Qed.

Lemma obeys_raise {A} e : not_http e -> obeys R (@raise A e).
Proof.
  intros He w r w' H. inversion H; subst. split; [apply R_refl|].
  intros e' E. inversion E; subst. exact He.
Qed.

Lemma obeys_call {A} (o : outcome A) : obeys R (call o).
Proof.
  destruct o; simpl; [apply obeys_ret | apply obeys_raise].
  intros c d; discriminate.
Qed.

Lemma obeys_log e : allowed e -> obeys R (log e).
Proof.
  intros He w r w' H. inversion H; subst.
  split; [apply R_event, He | discriminate].
Qed.

Lemma obeys_get_world : obeys R get_world.
Proof.
  intros w r w' H. inversion H; subst. split; [apply R_refl|discriminate].
Qed.

Lemma obeys_uuid4 env : obeys R (uuid4 env).
Proof.
  intros w r w' H. inversion H; subst. split; [apply R_uuid|discriminate].
Qed.

Lemma obeys_bind {A B} (m : M A) (k : A -> M B) :
  obeys R m -> (forall a, obeys R (k a)) -> obeys R (bind m k).
Proof.
  intros Hm Hk w r w' H.
  destruct (bind_inv _ _ _ _ _ H) as [(a & w1 & H1 & H2) | (e & H1 & ->)].
  - destruct (Hm _ _ _ H1) as [R1 _]. destruct (Hk a _ _ _ H2) as [R2 E2].
    split; [eapply R_trans; eauto | exact E2].
  - destruct (Hm _ _ _ H1) as [R1 E1]. split; [exact R1|].
    intros e' E. inversion E; subst. apply E1. reflexivity.
Qed.

Lemma obeys_try {A} (body : M A) (handler : exn -> M A) :
  obeys R body -> (forall e, obeys R (handler e)) ->
  obeys R (try_except body handler).
Proof.
  intros Hb Hh w r w' H. unfold try_except in H.
  destruct (body w) as [[a|e] w1] eqn:Eb.
  - inversion H; subst. split; [exact (proj1 (Hb _ _ _ Eb)) | discriminate].
  - destruct (Hh e _ _ _ H) as [R2 E2].
    split; [eapply R_trans; [exact (proj1 (Hb _ _ _ Eb)) | exact R2] | exact E2].
Qed.

Lemma obeys_gather {A} (tasks : list (M A)) :
  Forall (obeys R) tasks -> obeys R (Rag.gather tasks).
Proof.
  induction 1 as [|t rest Ht _ IH]; simpl; [apply obeys_ret|].
  intros w r w' H. destruct (t w) as [[a|e] w1] eqn:Et.
  - destruct (Ht _ _ _ Et) as [R1 _].
    assert (Hk : obeys R (bind (Rag.gather rest) (fun rs => ret (a :: rs))))
      by (apply obeys_bind; [exact IH | intros; apply obeys_ret]).
    destruct (Hk _ _ _ H) as [R2 E2].
    split; [eapply R_trans; eauto | exact E2].
  - destruct (Ht _ _ _ Et) as [R1 E1].
    destruct (Rag.gather rest w1) as [r2 w2] eqn:Eg. simpl in H.
    inversion H; subst. destruct (IH _ _ _ Eg) as [R2 _].
    split; [eapply R_trans; eauto|].
    intros e' E. inversion E; subst. apply E1. reflexivity.
Qed.

(** One step of a frame proof, by the shape of the program. *)
Ltac frame_step :=
  match goal with
  | |- obeys _ (bind _ _) => apply obeys_bind; [|intros ?]
  | |- obeys _ (try_except _ _) => apply obeys_try; [|intros ?]
  | |- obeys _ (ret _) => apply obeys_ret
  | |- obeys _ (raise _) => apply obeys_raise; intros ? ?; discriminate
  | |- obeys _ (call _) => apply obeys_call
  | |- obeys _ get_world => apply obeys_get_world
  | |- obeys _ (uuid4 _) => apply obeys_uuid4
  | |- obeys _ (log _) => apply obeys_log; auto
  | |- obeys _ (if ?b then _ else _) => destruct b
  | |- obeys _ (match ?x with _ => _ end) => destruct x
  end.
Ltac frame := repeat frame_step.

(** *** The embedding client *)

Hypothesis embedding_allowed : forall texts, allowed (EvEmbedding texts).

Lemma obeys_range a b c : obeys R (Rag.range a b c).
Proof. unfold Rag.range. frame. Qed.

Lemma obeys_call_embedding_api env texts :
  obeys R (Rag._call_embedding_api env texts).
Proof. unfold Rag._call_embedding_api. frame. Qed.

Lemma obeys_aembed_documents env texts :
  obeys R (Rag.aembed_documents env texts).
Proof.
  unfold Rag.aembed_documents. frame_step; [apply obeys_range|].
  frame_step; [|frame]. apply obeys_gather, Forall_forall.
  intros t Ht. apply in_map_iff in Ht. destruct Ht as (i & <- & _).
  apply obeys_call_embedding_api.
Qed.

Lemma obeys_aembed_query env text : obeys R (Rag.aembed_query env text).
Proof.
  unfold Rag.aembed_query. frame_step; [apply obeys_aembed_documents|].
  frame.
Qed.

(** *** The store's reads and vector writes *)

Hypothesis query_allowed : forall n k, allowed (EvPinecone (Query n k)).
Hypothesis upsert_allowed : forall n b, allowed (EvPinecone (Upsert n b)).

Lemma obeys_search env name v k :
  obeys R (Rag._search_index_sync env name v k).
Proof. unfold Rag._search_index_sync, Pinecone.query. frame. Qed.

Lemma obeys_upsert_batch env name batch :
  obeys R (Pinecone.upsert_batch env name batch).
Proof.
  intros w r w' H.
  pose proof (R_event (EvPinecone (Upsert name batch)) w (upsert_allowed _ _))
    as Rlog.
  unfold Pinecone.upsert_batch, Pinecone.request, bind, log, get_world,
    set_indexes, ret, raise in H.
  destruct (pinecone_fault env (Upsert name batch)); simpl in H.
  - inversion H; subst. split; [exact Rlog|].
    intros e E. inversion E; subst. intros c d; discriminate.
  - destruct (Pinecone.has_index name (indexes w)); inversion H; subst.
    + split; [|discriminate]. eapply R_trans; [exact Rlog|].
      apply R_vectors. simpl. rewrite map_map. apply map_ext.
      intros ix. destruct (String.eqb (idx_name ix) name); reflexivity.
    + split; [exact Rlog|].
      intros e E. inversion E; subst. intros c d; discriminate.
Qed.

Lemma obeys_upsert_batches env name batches :
  obeys R (Rag._upsert_batches env name batches).
Proof.
  induction batches as [|b rest IH]; simpl; frame.
  - apply obeys_upsert_batch.
  - exact IH.
Qed.

Lemma obeys_to_upsert_from env pairs :
  forall i, obeys R (Rag.to_upsert_from env i pairs).
Proof.
  induction pairs as [|[chunk vec] rest IH]; intros i; simpl; frame.
  apply IH.
Qed.

Lemma obeys_process_text_and_upsert env name text :
  obeys R (Rag.process_text_and_upsert env name text).
Proof.
  unfold Rag.process_text_and_upsert, Rag._chunk_text_sync, Rag._upsert_sync.
  frame.
  - apply obeys_aembed_documents.
  - apply obeys_to_upsert_from.
  - apply obeys_upsert_batches.
Qed.

(** *** The chat model *)

Hypothesis llm_allowed : forall k m p, allowed (EvLlm k m p).

Lemma obeys_try_keys env prompt keys :
  obeys R (Rag.try_keys env prompt keys).
Proof.
  induction keys as [|key rest IH]; simpl; [frame|].
  frame_step.
  - unfold Groq.ainvoke. frame.
  - destruct a; [frame | exact IH].
Qed.

Lemma obeys_optimize env text : obeys R (Rag.optimize_text_for_rag env text).
Proof.
  unfold Rag.optimize_text_for_rag. frame_step; [apply obeys_try_keys|].
  frame.
Qed.

Lemma obeys_summary env text :
  obeys R (Rag.generate_summary_with_groq env text).
Proof.
  unfold Rag.generate_summary_with_groq. frame_step; [apply obeys_try_keys|].
  frame.
Qed.

End Frames.

(* ================================================================== *)
(** * The index store *)

Module StoreFacts.
Import Pinecone.

Lemma existsb_eqb_in name l :
  existsb (String.eqb name) l = true <-> In name l.
Proof.
  rewrite existsb_exists. split.
  - intros (x & Hx & E). apply String.eqb_eq in E. subst. exact Hx.
  - intros H. exists name. split; [exact H | apply String.eqb_refl].
Qed.

Lemma existsb_eqb_notin name l :
  existsb (String.eqb name) l = false <-> ~ In name l.
Proof.
  split.
  - intros H Hin. apply existsb_eqb_in in Hin. congruence.
  - intros H. destruct (existsb (String.eqb name) l) eqn:E; [|reflexivity].
    apply existsb_eqb_in in E. contradiction.
Qed.

Lemma has_index_in name ixs :
  has_index name ixs = true <-> In name (map idx_name ixs).
Proof.
  unfold has_index. rewrite existsb_exists, in_map_iff. split.
  - intros (ix & Hix & E). apply String.eqb_eq in E. eauto.
  - intros (ix & E & Hix). exists ix. split; [exact Hix|].
    apply String.eqb_eq. exact E.
Qed.

Lemma has_index_notin name ixs :
  has_index name ixs = false <-> ~ In name (map idx_name ixs).
Proof.
  split.
  - intros H Hin. apply has_index_in in Hin. congruence.
  - intros H. destruct (has_index name ixs) eqn:E; [|reflexivity].
    apply has_index_in in E. contradiction.
Qed.

Lemma names_add_event e w : names (add_event e w) = names w.
Proof. reflexivity. Qed.

(** Dropping a name that occurs only at the head drops the head. *)
Lemma filter_head_only name ixs :
  ~ In name (map idx_name ixs) ->
  filter (fun ix => negb (String.eqb (idx_name ix) name)) ixs = ixs.
Proof.
  induction ixs as [|ix rest IH]; simpl; intros H; [reflexivity|].
  destruct (String.eqb (idx_name ix) name) eqn:E.
  - apply String.eqb_eq in E. exfalso. apply H. left. exact E.
  - simpl. rewrite IH; [reflexivity|]. intros Hin. apply H. right. exact Hin.
Qed.

Lemma filter_names_incl name ixs :
  incl (map idx_name
          (filter (fun ix => negb (String.eqb (idx_name ix) name)) ixs))
       (map idx_name ixs).
Proof.
  intros n Hn. apply in_map_iff in Hn. destruct Hn as (ix & <- & Hix).
  apply filter_In in Hix. apply in_map. tauto.
Qed.

(** *** The calls one by one *)

Lemma list_indexes_run env w :
  list_indexes_names env w
  = (match pinecone_fault env ListIndexes with
     | Some msg => Raise (ExternalError msg)
     | None => Ok (names w)
     end, add_event (EvPinecone ListIndexes) w).
Proof.
  unfold list_indexes_names, request, bind, log, get_world, ret, raise.
  destruct (pinecone_fault env ListIndexes); reflexivity.
Qed.

Lemma delete_index_ok env name w :
  pinecone_fault env (DeleteIndex name) = None ->
  In name (names w) ->
  delete_index env name w
  = (Ok tt,
     with_indexes
       (filter (fun ix => negb (String.eqb (idx_name ix) name)) (indexes w))
       (add_event (EvPinecone (DeleteIndex name)) w)).
Proof.
  intros F Hin.
  unfold delete_index, request, bind, log, get_world, set_indexes, ret.
  rewrite F. simpl. apply has_index_in in Hin. rewrite Hin. reflexivity.
Qed.

Lemma delete_index_fault env name w msg :
  pinecone_fault env (DeleteIndex name) = Some msg ->
  delete_index env name w
  = (Raise (ExternalError msg), add_event (EvPinecone (DeleteIndex name)) w).
Proof.
  intros F. unfold delete_index, request, bind, log, raise.
  rewrite F. reflexivity.
Qed.

(** Whatever a deletion does, it adds no name and logs one call. *)
Lemma delete_index_incl env name w r w' :
  delete_index env name w = (r, w') ->
  incl (names w') (names w)
  /\ trace w' = (trace w ++ [EvPinecone (DeleteIndex name)])%list.
Proof.
  unfold delete_index, request, bind, log, get_world, set_indexes, ret, raise.
  destruct (pinecone_fault env (DeleteIndex name)); simpl.
  - intros H. inversion H; subst. split; [apply incl_refl | reflexivity].
  - destruct (has_index name (indexes w)); intros H; inversion H; subst.
    + split; [apply filter_names_incl | reflexivity].
    + split; [apply incl_refl | reflexivity].
Qed.

Lemma create_index_ok env name dim metric w :
  pinecone_fault env (CreateIndex name dim) = None ->
  ~ In name (names w) ->
  create_index env name dim metric w
  = (Ok tt,
     with_indexes
       (indexes w ++ [{| idx_name := name; idx_dimension := dim;
                         idx_metric := metric; idx_vectors := [] |}])%list
       (add_event (EvPinecone (CreateIndex name dim)) w)).
Proof.
  intros F Hin.
  unfold create_index, request, bind, log, get_world, set_indexes, ret.
  rewrite F. simpl. apply has_index_notin in Hin. rewrite Hin. reflexivity.
Qed.

(** A creation that returns has appended the index. *)
Lemma create_index_inv env name dim metric w w' :
  create_index env name dim metric w = (Ok tt, w') ->
  names w' = (names w ++ [name])%list
  /\ trace w' = (trace w ++ [EvPinecone (CreateIndex name dim)])%list.
Proof.
  unfold create_index, request, bind, log, get_world, set_indexes, ret, raise.
  destruct (pinecone_fault env (CreateIndex name dim)); simpl;
    [discriminate|].
  destruct (has_index name (indexes w)); intros H; inversion H; subst.
  unfold names. simpl. rewrite map_app. split; reflexivity.
Qed.

(** Only an [ExternalError] can come out of a creation. *)
Lemma create_index_external env name dim metric w e w' :
  create_index env name dim metric w = (Raise e, w') -> not_http e.
Proof.
  unfold create_index, request, bind, log, get_world, set_indexes, ret, raise.
  destruct (pinecone_fault env (CreateIndex name dim)); simpl.
  - intros H. inversion H; subst. intros c d; discriminate.
  - destruct (has_index name (indexes w)); intros H; inversion H; subst.
    intros c d; discriminate.
Qed.

(** *** [create_index_if_not_exists_async] by cases *)

(** The name is listed: one listing call, nothing else. *)
Lemma ensure_existing env name dim w :
  In name (names w) ->
  Rag.create_index_if_not_exists_async env name dim w
  = (match pinecone_fault env ListIndexes with
     | Some msg => Raise (ExternalError msg)
     | None => Ok tt
     end, add_event (EvPinecone ListIndexes) w).
Proof.
  intros Hin. unfold Rag.create_index_if_not_exists_async.
  unfold bind at 1. rewrite list_indexes_run.
  destruct (pinecone_fault env ListIndexes); [reflexivity|].
  apply existsb_eqb_in in Hin. rewrite Hin. reflexivity.
Qed.

(** The name is new and the call returns: the index was appended to
    what the eviction step left, which holds no name that was not
    there before. *)
Lemma ensure_new_inv env name dim w w' :
  ~ In name (names w) ->
  Rag.create_index_if_not_exists_async env name dim w = (Ok tt, w') ->
  exists kept, names w' = (kept ++ [name])%list /\ incl kept (names w)
               /\ (List.length (names w) < 5 -> kept = names w).
Proof.
  intros Hin. unfold Rag.create_index_if_not_exists_async.
  unfold bind at 1. rewrite list_indexes_run.
  destruct (pinecone_fault env ListIndexes); [discriminate|].
  apply existsb_eqb_notin in Hin. rewrite Hin. cbn [negb].
  intros H. apply bind_inv in H.
  destruct H as [(u & w1 & H1 & H2) | (e & _ & E)]; [|discriminate E].
  destruct u. apply create_index_inv in H2. destruct H2 as [H2 _].
  exists (names w1). split; [exact H2|].
  destruct (5 <=? List.length (names w))%nat eqn:Efull.
  - apply Nat.leb_le in Efull. split; [|lia].
    destruct (names w) as [|oldest rest] eqn:En; [discriminate H1|].
    unfold try_except in H1.
    destruct (delete_index env oldest (add_event (EvPinecone ListIndexes) w))
      as [[[]|e] w2] eqn:Ed.
    + inversion H1; subst. rewrite <- En.
      exact (proj1 (delete_index_incl _ _ _ _ _ Ed)).
    + inversion H1; subst. rewrite <- En.
      exact (proj1 (delete_index_incl _ _ _ _ _ Ed)).
  - inversion H1; subst. split; [apply incl_refl | reflexivity].
Qed.

(** A call that returns leaves the name listed. *)
Lemma ensure_listed env name dim w w' :
  Rag.create_index_if_not_exists_async env name dim w = (Ok tt, w') ->
  In name (names w').
Proof.
  intros H. destruct (in_dec string_dec name (names w)) as [Hin|Hin].
  - rewrite (ensure_existing _ _ _ _ Hin) in H.
    inversion H; subst. exact Hin.
  - destruct (ensure_new_inv _ _ _ _ _ Hin H) as (kept & E & _ & _).
    rewrite E. apply in_or_app. right. left. reflexivity.
Qed.

(** No [HTTPException] comes out of it. *)
Lemma ensure_external env name dim w e w' :
  Rag.create_index_if_not_exists_async env name dim w = (Raise e, w') ->
  not_http e.
Proof.
  unfold Rag.create_index_if_not_exists_async.
  unfold bind at 1. rewrite list_indexes_run.
  destruct (pinecone_fault env ListIndexes).
  - intros H. inversion H; subst. intros c d; discriminate.
  - destruct (negb _); [|discriminate].
    intros H. apply bind_inv in H.
    destruct H as [(u & w1 & _ & H2) | (e' & H1 & E)].
    + exact (create_index_external _ _ _ _ _ _ _ H2).
    + inversion E; subst e'. clear E.
      destruct (5 <=? _)%nat; [|discriminate H1].
      destruct (names _) as [|oldest rest].
      * inversion H1; subst. intros c d; discriminate.
      * unfold try_except in H1.
        destruct (delete_index env oldest _) as [[[]|e2] w2];
          discriminate H1.
Qed.

End StoreFacts.

(* ================================================================== *)
(** * Index eviction and idempotence *)

Import Pinecone StoreFacts.

(** C1, as the code has it: for every store holding exactly 5 distinct
    indexes and every name not among them, if the store carries out the
    listing and the creation, then [create_index_if_not_exists_async]
    returns and
    - when the store carries out the deletion of the first-listed index,
      exactly that index is gone, the others stay, the new name is
      listed and the total is still 5 (one listing, one deletion and one
      creation call were made);
    - when the store refuses that deletion, the failure is swallowed:
      nothing is removed, the new index is created all the same and the
      store holds 6. *)
Theorem ensure_index_evicts_oldest env name dim w oldest rest :
  names w = oldest :: rest ->
  List.length (names w) = 5 ->
  NoDup (names w) ->
  ~ In name (names w) ->
  pinecone_fault env ListIndexes = None ->
  pinecone_fault env (CreateIndex name dim) = None ->
  exists w',
    Rag.create_index_if_not_exists_async env name dim w = (Ok tt, w')
    /\ match pinecone_fault env (DeleteIndex oldest) with
       | None =>
           names w' = (rest ++ [name])%list
           /\ ~ In oldest (names w')
           /\ (forall n, In n rest -> In n (names w'))
           /\ List.length (names w') = 5
           /\ trace w' = (trace w ++ [EvPinecone ListIndexes;
                                      EvPinecone (DeleteIndex oldest);
                                      EvPinecone (CreateIndex name dim)])%list
       | Some _ =>
           names w' = (oldest :: rest ++ [name])%list
           /\ List.length (names w') = 6
           /\ trace w' = (trace w ++ [EvPinecone ListIndexes;
                                      EvPinecone (DeleteIndex oldest);
                                      EvPinecone (CreateIndex name dim)])%list
       end.
Proof.
  intros En Hlen Hnd Hnew Fl Fc.
  assert (Hlen' : List.length rest = 4) by (rewrite En in Hlen; simpl in Hlen; lia).
  assert (Hold : ~ In oldest rest) by (rewrite En in Hnd; inversion Hnd; assumption).
  assert (Hnew' : name <> oldest /\ ~ In name rest).
  { rewrite En in Hnew. simpl in Hnew. split; [intros ->|]; tauto. }
  destruct Hnew' as [Hno Hnr].
  unfold Rag.create_index_if_not_exists_async.
  unfold bind at 1. rewrite list_indexes_run, Fl.
  apply existsb_eqb_notin in Hnew. rewrite Hnew. cbn [negb].
  rewrite Hlen. cbn [Nat.leb]. rewrite En.
  set (w0 := add_event (EvPinecone ListIndexes) w).
  assert (En0 : names w0 = oldest :: rest) by exact En.
  destruct (pinecone_fault env (DeleteIndex oldest)) as [msg|] eqn:Fd.
  - (* the deletion is refused *)
    unfold bind, try_except. rewrite (delete_index_fault _ _ _ _ Fd).
    unfold ret.
    set (w1 := add_event (EvPinecone (DeleteIndex oldest)) w0).
    assert (En1 : names w1 = oldest :: rest) by exact En.
    rewrite create_index_ok;
      [|exact Fc | rewrite En1; simpl; intros [E|E]; [congruence | tauto]].
    eexists. split; [reflexivity|].
    unfold names in *. simpl. rewrite map_app. simpl.
    rewrite En. simpl. rewrite length_app. simpl.
    rewrite <- !app_assoc. simpl. repeat split; try reflexivity. lia.
  - (* the deletion is carried out *)
    unfold bind, try_except.
    rewrite delete_index_ok; [|exact Fd | rewrite En0; left; reflexivity].
    set (w1 := with_indexes _ _).
    assert (En1 : names w1 = rest).
    { unfold w1, names. simpl. unfold names in En.
      destruct (indexes w) as [|ix ixs]; [discriminate En|].
      simpl in En. inversion En; subst. simpl.
      rewrite String.eqb_refl. simpl. rewrite filter_head_only; auto. }
    rewrite create_index_ok; [|exact Fc | rewrite En1; exact Hnr].
    eexists. split; [reflexivity|].
    assert (Ef : names (with_indexes
                   (indexes w1 ++ [{| idx_name := name; idx_dimension := dim;
                                      idx_metric := "cosine";
                                      idx_vectors := [] |}])%list
                   (add_event (EvPinecone (CreateIndex name dim)) w1))
                 = (rest ++ [name])%list).
    { unfold names. cbn [indexes with_indexes]. rewrite map_app.
      change (map idx_name (indexes w1)) with (names w1).
      rewrite En1. reflexivity. }
    rewrite Ef. repeat split.
    + intros Hin. apply in_app_or in Hin. destruct Hin as [Hin|[E|[]]];
        [tauto | congruence].
    + intros n Hn. apply in_or_app. left. exact Hn.
    + rewrite length_app. simpl. lia.
    + simpl. rewrite <- !app_assoc. reflexivity.
Qed.

Lemma full_world_nodup : NoDup (names Demo.full_world).
Proof.
  unfold names. simpl.
  repeat (constructor; [simpl; intuition discriminate|]). constructor.
Qed.

Lemma full_world_new : ~ In "f" (names Demo.full_world).
Proof. unfold names. simpl. intuition discriminate. Qed.

Lemma ensure_index_evicts_oldest_witness :
  exists w',
    Rag.create_index_if_not_exists_async Demo.env "f" 768 Demo.full_world
    = (Ok tt, w')
    /\ names w' = ["b"; "c"; "d"; "e"; "f"].
Proof.
  destruct (ensure_index_evicts_oldest Demo.env "f" 768 Demo.full_world
              "a" ["b"; "c"; "d"; "e"]
              eq_refl eq_refl full_world_nodup full_world_new eq_refl eq_refl)
    as (w' & Hrun & Hnames & _).
  exists w'. split; [exact Hrun | exact Hnames].
Defined.

(** C1 as stated fails: the store holds 5 indexes, ["f"] is not among
    them, the store refuses the deletion; the call returns, ["a"] is
    still listed and the store holds 6 indexes. *)
Lemma ensure_index_eviction_refused :
  let run := Rag.create_index_if_not_exists_async
               Demo.env_delete_refused "f" 768 Demo.full_world in
  List.length (names Demo.full_world) = 5
  /\ ~ In "f" (names Demo.full_world)
  /\ fst run = Ok tt
  /\ names (snd run) = ["a"; "b"; "c"; "d"; "e"; "f"]
  /\ List.length (names (snd run)) <> 5.
Proof.
  cbv zeta. split; [reflexivity|]. split; [exact full_world_new|].
  split; [reflexivity|]. split; [reflexivity|]. vm_compute. discriminate.
Qed.

(** C2: if an index of the name is listed, the call makes one listing
    call and nothing else: no deletion, no creation, the store as it
    was.  Hence, on a store whose names are distinct, once a first call
    has returned, the name is listed, a second call with the same name
    returns and changes nothing, and exactly one index bears the name. *)
Theorem ensure_index_idempotent env name dim w w1 :
  NoDup (names w) ->
  Rag.create_index_if_not_exists_async env name dim w = (Ok tt, w1) ->
  (forall w0, In name (names w0) ->
     exists r,
       Rag.create_index_if_not_exists_async env name dim w0
       = (r, add_event (EvPinecone ListIndexes) w0))
  /\ In name (names w1)
  /\ exists w2,
       Rag.create_index_if_not_exists_async env name dim w1 = (Ok tt, w2)
       /\ indexes w2 = indexes w1
       /\ trace w2 = (trace w1 ++ [EvPinecone ListIndexes])%list
       /\ count_occ string_dec (names w2) name = 1.
Proof.
  intros Hnd Hrun.
  split; [intros w0 H0; rewrite (ensure_existing _ _ _ _ H0); eauto|].
  pose proof (ensure_listed _ _ _ _ _ Hrun) as Hin1.
  split; [exact Hin1|].
  assert (Fl : pinecone_fault env ListIndexes = None).
  { unfold Rag.create_index_if_not_exists_async in Hrun.
    unfold bind at 1 in Hrun. rewrite list_indexes_run in Hrun.
    destruct (pinecone_fault env ListIndexes); [discriminate Hrun|reflexivity]. }
  exists (add_event (EvPinecone ListIndexes) w1).
  rewrite (ensure_existing _ _ _ _ Hin1), Fl.
  repeat split. rewrite names_add_event.
  destruct (in_dec string_dec name (names w)) as [Hin|Hin].
  - rewrite (ensure_existing _ _ _ _ Hin), Fl in Hrun.
    inversion Hrun; subst. rewrite names_add_event.
    apply NoDup_count_occ'; assumption.
  - destruct (ensure_new_inv _ _ _ _ _ Hin Hrun) as (kept & E & Hk & _).
    rewrite E, count_occ_app. simpl.
    destruct (string_dec name name) as [_|N]; [|congruence].
    rewrite (proj1 (count_occ_not_In string_dec kept name)); [reflexivity|].
    intros Hc. apply Hin, Hk, Hc.
Qed.

Lemma ensure_index_idempotent_witness :
  exists w2,
    Rag.create_index_if_not_exists_async Demo.env "f" 768
      (snd (Rag.create_index_if_not_exists_async Demo.env "f" 768
              Demo.full_world))
    = (Ok tt, w2)
    /\ count_occ string_dec (names w2) "f" = 1.
Proof.
  destruct (ensure_index_idempotent Demo.env "f" 768 Demo.full_world _
              full_world_nodup eq_refl)
    as (_ & _ & w2 & Hrun & _ & _ & Hcount).
  exists w2. split; [exact Hrun | exact Hcount].
Defined.

(* ================================================================== *)
(** * The embedder *)

Module EmbedderFacts.
Import Rag.

Lemma slice_nat {A} (l : list A) o n :
  slice l (Z.of_nat o) (Z.of_nat o + Z.of_nat n)%Z = firstn n (skipn o l).
Proof.
  unfold slice.
  replace (Z.of_nat o + Z.of_nat n - Z.of_nat o)%Z with (Z.of_nat n) by lia.
  rewrite !Nat2Z.id. reflexivity.
Qed.

Lemma call_embedding_api_ok env resp texts w :
  one_vector_per_text env resp ->
  _call_embedding_api env texts w
  = (Ok (resp texts), add_event (EvEmbedding texts) w).
Proof.
  intros H. destruct (H texts) as (_ & r & Hp & [Hlo Hhi] & Hj).
  unfold _call_embedding_api, bind, log, call. rewrite Hp. unfold ret at 1.
  apply Z.leb_le in Hlo, Hhi. rewrite Hlo, Hhi. cbn [andb].
  unfold ret at 1. rewrite Hj. reflexivity.
Qed.

Lemma gather_ok env resp batches :
  one_vector_per_text env resp ->
  forall w, exists w',
    gather (map (_call_embedding_api env) batches) w
    = (Ok (map resp batches), w').
Proof.
  intros H. induction batches as [|b rest IH]; intros w; simpl.
  - eexists. reflexivity.
  - rewrite (call_embedding_api_ok _ _ _ _ H).
    destruct (IH (add_event (EvEmbedding b) w)) as (w' & E).
    exists w'. unfold bind. rewrite E. reflexivity.
Qed.

Section Batches.
Variable resp : list string -> list Vector.
Variable texts : list string.
Variable n : nat.
Hypothesis n_pos : 0 < n.
Hypothesis resp_length : forall b, List.length (resp b) = List.length b.

Lemma vectors_from_aligned :
  forall fuel o, List.length texts - o <= fuel ->
    List.length (vectors_from resp texts n fuel o) = List.length texts - o
    /\ forall i, o <= i < List.length texts ->
         exists k j,
           i = o + k * n + j /\ j < n
           /\ nth_error (firstn n (skipn (o + k * n) texts)) j
              = nth_error texts i
           /\ nth_error (vectors_from resp texts n fuel o) (i - o)
              = nth_error (resp (firstn n (skipn (o + k * n) texts))) j.
Proof.
  unfold vectors_from. set (N := List.length texts).
  induction fuel as [|f IH]; intros o Hf; simpl.
  - split; [lia | intros i Hi; lia].
  - destruct (Z.of_nat o <? Z.of_nat N)%Z eqn:E.
    + apply Z.ltb_lt in E. assert (Ho : o < N) by lia.
      simpl. rewrite slice_nat.
      replace (Z.of_nat o + Z.of_nat n)%Z with (Z.of_nat (o + n)) by lia.
      destruct (IH (o + n)) as [Hlen Hnth]; [lia|].
      set (b := firstn n (skipn o texts)).
      assert (Hb : List.length b = Nat.min n (N - o)).
      { unfold b. rewrite length_firstn, length_skipn. reflexivity. }
      split.
      * rewrite length_app, resp_length, Hb, Hlen. lia.
      * intros i Hi. destruct (Nat.lt_ge_cases i (o + n)) as [Hlt|Hge].
        -- exists 0, (i - o). rewrite Nat.add_0_r. fold b.
           repeat split; try lia.
           ++ unfold b. rewrite nth_error_firstn, nth_error_skipn.
              replace (i - o <? n)%nat with true
                by (symmetry; apply Nat.ltb_lt; lia).
              f_equal. lia.
           ++ apply nth_error_app1. rewrite resp_length, Hb. lia.
        -- destruct (Hnth i) as (k & j & Ei & Hj & Ht & Hv); [lia|].
           exists (S k), j.
           replace (o + S k * n) with (o + n + k * n) by lia.
           repeat split; try lia; try exact Ht.
           rewrite nth_error_app2 by (rewrite resp_length, Hb; lia).
           rewrite resp_length, Hb.
           replace (i - o - Nat.min n (N - o)) with (i - (o + n)) by lia.
           exact Hv.
    + apply Z.ltb_ge in E. simpl. split; [lia | intros i Hi; lia].
Qed.

End Batches.

End EmbedderFacts.

(** C3, as the code has it: for every list of texts and every positive
    batch size, if the endpoint answers every batch with one vector per
    text, [aembed_documents] returns as many vectors as there are texts,
    and the vector at position [i] is the one the endpoint gave, at the
    position of text [i] in its batch, for the batch that holds text
    [i]. *)
Theorem aembed_documents_in_order env resp texts w :
  (0 < EMBEDDING_API_BATCH_SIZE env)%Z ->
  one_vector_per_text env resp ->
  exists vs w',
    Rag.aembed_documents env texts w = (Ok vs, w')
    /\ List.length vs = List.length texts
    /\ forall i, i < List.length texts ->
         exists k j,
           i = k * Z.to_nat (EMBEDDING_API_BATCH_SIZE env) + j
           /\ j < Z.to_nat (EMBEDDING_API_BATCH_SIZE env)
           /\ nth_error (batch texts (EMBEDDING_API_BATCH_SIZE env) k) j
              = nth_error texts i
           /\ nth_error vs i
              = nth_error
                  (resp (batch texts (EMBEDDING_API_BATCH_SIZE env) k)) j.
Proof.
  intros Hpos Hapi.
  set (bs := EMBEDDING_API_BATCH_SIZE env) in *.
  set (n := Z.to_nat bs).
  assert (Ebs : bs = Z.of_nat n) by (unfold n; lia).
  assert (Hn : 0 < n) by lia.
  unfold Rag.aembed_documents. fold bs. unfold Rag.range.
  replace (bs =? 0)%Z with false by (symmetry; apply Z.eqb_neq; lia).
  replace (0 <? bs)%Z with true by (symmetry; apply Z.ltb_lt; lia).
  unfold bind at 1, ret at 1.
  rewrite <- (map_map (fun i => Rag.slice texts i (i + bs)%Z)
                      (Rag._call_embedding_api env)).
  destruct (EmbedderFacts.gather_ok env resp
              (map (fun i => Rag.slice texts i (i + bs)%Z)
                   (Rag.range_up (Z.to_nat (Z.of_nat (List.length texts) - 0))
                                 0 (Z.of_nat (List.length texts)) bs))
              Hapi w) as (w' & Eg).
  unfold bind. rewrite Eg. unfold ret.
  eexists. exists w'. split; [reflexivity|].
  replace (Z.to_nat (Z.of_nat (List.length texts) - 0)) with (List.length texts)
    by lia.
  destruct (EmbedderFacts.vectors_from_aligned resp texts n Hn
              (fun b => proj1 (Hapi b)) (List.length texts) 0) as [Hlen Hnth];
    [lia|].
  unfold vectors_from in Hlen, Hnth.
  rewrite <- Ebs in Hlen, Hnth. change (Z.of_nat 0) with 0%Z in Hlen, Hnth.
  split; [rewrite Hlen; lia|].
  intros i Hi. destruct (Hnth i) as (k & j & Ei & Hj & Ht & Hv); [lia|].
  exists k, j. unfold batch.
  replace (Z.of_nat k * bs)%Z with (Z.of_nat (k * n)) by lia.
  rewrite Ebs at 1 3. rewrite !EmbedderFacts.slice_nat.
  simpl in Ei, Ht, Hv. rewrite Nat.sub_0_r in Hv.
  repeat split; assumption.
Qed.

Lemma demo_one_vector_per_text :
  one_vector_per_text Demo.env (map (fun _ => [1%float])).
Proof.
  intros b. split; [apply length_map|].
  eexists. split; [reflexivity|]. split; [simpl; lia | reflexivity].
Qed.

Lemma aembed_documents_in_order_witness :
  exists vs w',
    Rag.aembed_documents Demo.env ["a"; "b"; "c"] Demo.empty_world
    = (Ok vs, w')
    /\ List.length vs = 3.
Proof.
  destruct (aembed_documents_in_order Demo.env (map (fun _ => [1%float]))
              ["a"; "b"; "c"] Demo.empty_world
              eq_refl demo_one_vector_per_text)
    as (vs & w' & Hrun & Hlen & _).
  exists vs, w'. split; [exact Hrun | exact Hlen].
Defined.

(** C3 as stated fails for a batch size that is not positive: the
    endpoint answers with one vector per text, and with batch size 0
    the call raises, with batch size -1 it returns no vector for one
    text. *)
Lemma aembed_documents_batch_size_not_positive :
  one_vector_per_text Demo.env_batch_zero (map (fun _ => [1%float]))
  /\ fst (Rag.aembed_documents Demo.env_batch_zero ["a"]
            Demo.empty_world)
     = Raise (ValueError "range() arg 3 must not be zero")
  /\ fst (Rag.aembed_documents
            (Demo.make (-1) Demo.post_ok
               (fun _ _ _ => Demo.reply "ok") (fun _ => None))
            ["a"] Demo.empty_world)
     = Ok [].
Proof.
  split; [|split; reflexivity].
  intros b. split; [apply length_map|].
  eexists. split; [reflexivity|]. split; [simpl; lia | reflexivity].
Qed.

(* ================================================================== *)
(** * Key failover *)

Module FailoverFacts.
Import Rag.

Lemma remove_nth_incl {A} (l : list A) :
  forall n, incl (remove_nth n l) l.
Proof.
  induction l as [|x r IH]; intros [|n]; simpl; try apply incl_refl.
  - apply incl_tl, incl_refl.
  - apply incl_cons; [left; reflexivity | apply incl_tl, IH].
Qed.

(** [random.sample] draws from the pool. *)
Lemma sample_aux_incl {A} rand k :
  forall pool : list A, incl (sample_aux rand k pool) pool.
Proof.
  induction k as [|k IH]; intros pool; simpl; [intros x []|].
  destruct pool as [|d rest] eqn:Ep; [intros x []|]. rewrite <- Ep.
  apply incl_cons.
  - apply nth_In. apply Nat.mod_upper_bound. rewrite Ep. discriminate.
  - eapply incl_tran; [apply IH | apply remove_nth_incl].
Qed.

Lemma random_sample_incl env pool : incl (random_sample env pool) pool.
Proof. apply sample_aux_incl. Qed.

Lemma try_keys_all_fail env prompt keys :
  (forall key, In key keys -> key_fails env key MODEL_NAME prompt) ->
  forall w, exists w', try_keys env prompt keys w = (Ok None, w').
Proof.
  induction keys as [|key rest IH]; intros Hfail w; simpl.
  - eexists. reflexivity.
  - pose proof (Hfail key (or_introl eq_refl)) as Hk.
    unfold key_fails in Hk.
    destruct (IH (fun k Hin => Hfail k (or_intror Hin))
                 (add_event (EvLlm key MODEL_NAME prompt) w)) as (w' & E).
    exists w'.
    unfold bind, try_except, Groq.ainvoke, bind, log, call.
    destruct (groq_ainvoke env key MODEL_NAME prompt) as [[msg|]|m]; simpl.
    + rewrite Hk. simpl. exact E.
    + exact E.
    + exact E.
Qed.

End FailoverFacts.

(** C5: when every configured key fails on the prompt at hand (the call
    raises, or the reply has no content), [optimize_text_for_rag]
    returns its input text unchanged and [answer_with_context_groq]
    returns the fixed failure string; both return, neither raises. *)
Theorem llm_keys_exhausted env :
  (forall text w,
     (forall key, In key (GROQ_API_KEYS env) ->
        key_fails env key Rag.MODEL_NAME (Rag.optimize_prompt text)) ->
     exists w', Rag.optimize_text_for_rag env text w = (Ok text, w'))
  /\ (forall question context history w,
        (forall key, In key (GROQ_API_KEYS env) ->
           key_fails env key Rag.MODEL_NAME
             (Rag.answer_prompt question context history)) ->
        exists w',
          Rag.answer_with_context_groq env question context history w
          = (Ok "The answer could not be generated due to an external service error.",
             w')).
Proof.
  split.
  - intros text w Hfail. unfold Rag.optimize_text_for_rag.
    destruct (FailoverFacts.try_keys_all_fail env (Rag.optimize_prompt text)
                (random_sample env (GROQ_API_KEYS env))
                (fun k Hin => Hfail k (FailoverFacts.random_sample_incl _ _ _ Hin))
                w) as (w' & E).
    exists w'. unfold bind. rewrite E. reflexivity.
  - intros q c h w Hfail. unfold Rag.answer_with_context_groq.
    destruct (FailoverFacts.try_keys_all_fail env (Rag.answer_prompt q c h)
                (random_sample env (GROQ_API_KEYS env))
                (fun k Hin => Hfail k (FailoverFacts.random_sample_incl _ _ _ Hin))
                w) as (w' & E).
    exists w'. unfold bind. rewrite E. reflexivity.
Qed.

Lemma llm_keys_exhausted_witness :
  (exists w', Rag.optimize_text_for_rag Demo.env_llm_down "Revenue: 10."
                Demo.empty_world = (Ok "Revenue: 10.", w'))
  /\ (exists w', Rag.answer_with_context_groq Demo.env_llm_down
                   "What is the revenue?" "Revenue: 10." None
                   Demo.empty_world
                 = (Ok "The answer could not be generated due to an external service error.",
                    w')).
Proof.
  split.
  - apply (proj1 (llm_keys_exhausted Demo.env_llm_down)).
    intros key _. exact I.
  - apply (proj2 (llm_keys_exhausted Demo.env_llm_down)).
    intros key _. exact I.
Defined.

(* ================================================================== *)
(** * The endpoints *)

Module EndpointFacts.
Import PyStr PyStrFacts Rag.

(** *** The frames in use *)

Lemma no_llm_refl w : no_llm_call w w.
Proof. exists []. rewrite app_nil_r. split; reflexivity. Qed.

Lemma no_llm_trans a b c : no_llm_call a b -> no_llm_call b c -> no_llm_call a c.
Proof.
  intros (e1 & T1 & F1) (e2 & T2 & F2). exists (e1 ++ e2)%list.
  rewrite T2, T1, app_assoc, forallb_app, F1, F2. split; reflexivity.
Qed.

Lemma no_llm_event e w :
  is_llm_call e = false -> no_llm_call w (add_event e w).
Proof. intros H. exists [e]. simpl. rewrite H. split; reflexivity. Qed.

Lemma aembed_query_no_llm env text :
  obeys no_llm_call (aembed_query env text).
Proof.
  apply obeys_aembed_query with (allowed := fun e => is_llm_call e = false);
    first [ exact no_llm_refl | exact no_llm_trans | exact no_llm_event
          | intros; reflexivity ].
Qed.

Lemma search_no_llm env name v k :
  obeys no_llm_call (_search_index_sync env name v k).
Proof.
  apply obeys_search with (allowed := fun e => is_llm_call e = false);
    first [ exact no_llm_refl | exact no_llm_trans | exact no_llm_event
          | intros; reflexivity ].
Qed.

Lemma same_names_trans a b c : same_names a b -> same_names b c -> same_names a c.
Proof. unfold same_names. congruence. Qed.

Lemma optimize_same_names env text :
  obeys same_names (optimize_text_for_rag env text).
Proof.
  apply obeys_optimize with (allowed := fun _ => True);
    first [ exact same_names_trans | intros; exact I
          | unfold same_names, Pinecone.names; intros; simpl; congruence ].
Qed.

Lemma process_same_names env name text :
  obeys same_names (process_text_and_upsert env name text).
Proof.
  apply obeys_process_text_and_upsert with (allowed := fun _ => True);
    first [ exact same_names_trans | intros; exact I
          | unfold same_names, Pinecone.names; intros; simpl; congruence ].
Qed.

(** *** The search *)

Lemma search_run env name v k w :
  _search_index_sync env name v k w
  = (Ok (match pinecone_query env (indexes w) name v k with
         | Returns res =>
             join CONTEXT_SEP
                  (map match_text
                       (match qr_matches res with
                        | Some ms => ms
                        | None => []
                        end))
         | Fails _ => ""
         end),
     add_event (EvPinecone (Query name k)) w).
Proof.
  unfold _search_index_sync, try_except, Pinecone.query, bind, log,
    get_world, call.
  cbn [indexes add_event].
  destruct (pinecone_query env (indexes w) name v k); reflexivity.
Qed.

End EndpointFacts.

(** C4: for every request that reaches the vector search (the caller is
    authorised, the index name is given, the question was embedded)
    and whose search yields no content (the store query raises, it
    returns no matches, or the joined text of the matches is empty once
    stripped), [ask] returns the fixed answer and the world it returns
    is the one the search left: the chat model is not called. *)
Theorem ask_without_context env req authorization w query_vec w1 :
  Rag.unauthorized env authorization = false ->
  Rag.ask_index_name req <> "" ->
  Rag.aembed_query env (Rag.question req) w = (Ok query_vec, w1) ->
  ((exists msg,
      pinecone_query env (indexes w1) (Rag.ask_index_name req) query_vec 5
      = Fails msg)
   \/ (exists res,
         pinecone_query env (indexes w1) (Rag.ask_index_name req) query_vec 5
         = Returns res
         /\ (qr_matches res = None \/ qr_matches res = Some []))
   \/ (exists context w2,
         Rag._search_index_sync env (Rag.ask_index_name req) query_vec 5 w1
         = (Ok context, w2)
         /\ PyStr.strip context = "")) ->
  exists context w2,
    Rag._search_index_sync env (Rag.ask_index_name req) query_vec 5 w1
    = (Ok context, w2)
    /\ Rag.ask env req authorization w
       = (Ok {| Rag.answer :=
                  "This information is not available in the indexed documents." |},
          w2)
    /\ no_llm_call w w2.
Proof.
  intros Hauth Hname Hembed Hempty.
  assert (Hctx : exists context w2,
             Rag._search_index_sync env (Rag.ask_index_name req) query_vec 5 w1
             = (Ok context, w2)
             /\ PyStr.strip context = "").
  { destruct Hempty as [(msg & E) | [(res & E & Hm) | H]]; [| |exact H].
    - eexists _, _. rewrite EndpointFacts.search_run, E. split; reflexivity.
    - eexists _, _. rewrite EndpointFacts.search_run, E.
      split; [reflexivity|]. destruct Hm as [-> | ->]; reflexivity. }
  destruct Hctx as (context & w2 & Hsearch & Hstrip).
  exists context, w2. split; [exact Hsearch|]. split.
  - unfold Rag.ask. rewrite Hauth.
    destruct (Rag.ask_index_name req) as [|c r] eqn:En; [contradiction|].
    cbn [PyStr.is_empty].
    rewrite (bind_ok _ _ _ _ _ Hembed), (bind_ok _ _ _ _ _ Hsearch).
    rewrite Hstrip. reflexivity.
  - eapply EndpointFacts.no_llm_trans.
    + exact (proj1 (EndpointFacts.aembed_query_no_llm _ _ _ _ _ Hembed)).
    + exact (proj1 (EndpointFacts.search_no_llm _ _ _ _ _ _ _ Hsearch)).
Qed.

Lemma ask_without_context_witness :
  exists w2,
    Rag.ask Demo.env
      {| Rag.ask_index_name := "webindex-01234567";
         Rag.question := "What is the revenue?";
         Rag.history := None |}
      None Demo.empty_world
    = (Ok {| Rag.answer :=
               "This information is not available in the indexed documents." |},
       w2)
    /\ no_llm_call Demo.empty_world w2.
Proof.
  destruct (ask_without_context Demo.env
              {| Rag.ask_index_name := "webindex-01234567";
                 Rag.question := "What is the revenue?";
                 Rag.history := None |}
              None Demo.empty_world _ _ eq_refl
              ltac:(discriminate) eq_refl
              (or_intror (or_introl
                 (ex_intro _ {| qr_matches := Some [] |}
                    (conj eq_refl (or_intror eq_refl))))))
    as (context & w2 & _ & Hask & Hllm).
  exists w2. split; [exact Hask | exact Hllm].
Defined.

(* ================================================================== *)
(** * Intent classification *)

Module IntentFacts.
Import PyStr PyStrFacts.

(** The [try] block shared by both endpoints, for a given reply of the
    model: parse the first word, or fall back. *)
Lemma parse_or_fallback (fallback : string)
    (reply : outcome (option AIMessage)) w :
  try_except
    (classify_resp <- call reply;;
     c <- match classify_resp with
          | Some {| content := Some c |} => ret c
          | _ => raise (AttributeError "content")
          end;;
     match split (lower (strip c)) with
     | t :: _ => ret t
     | [] => raise (IndexError "list index out of range")
     end)
    (fun _ => ret fallback) w
  = (Ok (label_of fallback reply), w).
Proof.
  unfold try_except, bind, call, label_of.
  destruct reply as [[[[c|]]|]|msg]; try reflexivity.
  cbv [ret raise]. pose proof (parse_head c) as Hp.
  destruct (split (lower (strip c))) as [|t ts]; simpl in Hp;
    destruct (first_token c); simpl in Hp; try discriminate Hp.
  - reflexivity.
  - inversion Hp; subst. reflexivity.
Qed.

Lemma random_choice_in env pool :
  pool <> [] ->
  exists key, In key pool /\ yields (random_choice env pool) key.
Proof.
  intros Hne. destruct pool as [|d rest] eqn:Ep; [contradiction|].
  rewrite <- Ep. exists (nth (Nat.modulo (randbelow env 0) (List.length pool)) pool d).
  split.
  - apply nth_In, Nat.mod_upper_bound. rewrite Ep. discriminate.
  - intros w. rewrite Ep. reflexivity.
Qed.

(** The loop over the entries returns when every entry is a dict with
    a string for a role, and raises [AttributeError] at the first entry
    that is not, before anything else is done. *)
Lemma history_lines_well_formed msgs :
  forallb well_formed msgs = true ->
  exists lines, yields (history_lines msgs) lines.
Proof.
  induction msgs as [|msg rest IH]; intros H.
  - exists []. intros w. reflexivity.
  - simpl in H. apply andb_prop in H. destruct H as [Hm Hr].
    destruct (IH Hr) as (lines & Hl).
    destruct msg as [[r t]|]; [|discriminate Hm].
    destruct r as [[r|r]|]; try discriminate Hm;
      eexists; intros w; simpl; unfold bind, item_get, field_upper, ret;
      simpl; rewrite Hl; reflexivity.
Qed.

Lemma history_lines_malformed msgs :
  forallb well_formed msgs = false ->
  exists m, forall w, history_lines msgs w = (Raise (AttributeError m), w).
Proof.
  induction msgs as [|msg rest IH]; intros H; [discriminate H|].
  simpl in H. destruct (well_formed msg) eqn:Hm.
  - destruct (IH H) as (m & Hr). exists m. intros w.
    destruct msg as [[r t]|]; [|discriminate Hm].
    destruct r as [[r|r]|]; try discriminate Hm;
      simpl; unfold bind, item_get, field_upper, ret; simpl;
      rewrite Hr; reflexivity.
  - destruct msg as [[r t]|].
    + destruct r as [[r|r]|]; try discriminate Hm.
      exists "upper". intros w. reflexivity.
    + exists "get". intros w. reflexivity.
Qed.

Lemma format_excel_ok history :
  forallb well_formed (recent_items history) = true ->
  exists block, yields (ExcelGenerator._format_history history) block.
Proof.
  unfold recent_items, ExcelGenerator._format_history. intros H.
  destruct history as [[|m h]|]; try (eexists; intros w; reflexivity).
  destruct (history_lines_well_formed _ H) as (lines & Hl).
  eexists. intros w. unfold bind. rewrite Hl. reflexivity.
Qed.

Lemma format_excel_bad history :
  forallb well_formed (recent_items history) = false ->
  exists m, forall w,
    ExcelGenerator._format_history history w = (Raise (AttributeError m), w).
Proof.
  unfold recent_items, ExcelGenerator._format_history. intros H.
  destruct history as [[|m h]|]; try discriminate H.
  destruct (history_lines_malformed _ H) as (msg & Hl).
  exists msg. intros w. unfold bind. rewrite Hl. reflexivity.
Qed.

Lemma format_visuals_ok history :
  forallb well_formed (recent_dicts history) = true ->
  exists block, yields (Visuals._format_history history) block.
Proof.
  unfold recent_dicts, Visuals._format_history. intros H.
  destruct history as [[|m h]|]; try (eexists; intros w; reflexivity).
  destruct (history_lines_well_formed _ H) as (lines & Hl).
  eexists. intros w. unfold bind. rewrite Hl. reflexivity.
Qed.

Lemma format_visuals_bad history :
  forallb well_formed (recent_dicts history) = false ->
  exists m, forall w,
    Visuals._format_history history w = (Raise (AttributeError m), w).
Proof.
  unfold recent_dicts, Visuals._format_history. intros H.
  destruct history as [[|m h]|]; try discriminate H.
  destruct (history_lines_malformed _ H) as (msg & Hl).
  exists msg. intros w. unfold bind. rewrite Hl. reflexivity.
Qed.

(** With a key configured and a history block built, the classification
    makes one call to the model and returns a label. *)
Lemma excel_intent_run env :
  GROQ_API_KEYS env <> [] ->
  exists key,
    In key (GROQ_API_KEYS env)
    /\ forall data block w,
         yields (ExcelGenerator._format_history
                   (ExcelGenerator.history data)) block ->
         ExcelGenerator.create_excel_intent env data w
         = (Ok (label_of "excel"
                  (groq_ainvoke env key "llama-3.3-70b-versatile"
                     (ExcelGenerator.classify_prompt block
                        (ExcelGenerator.query data)))),
            add_event
              (EvLlm key "llama-3.3-70b-versatile"
                 (ExcelGenerator.classify_prompt block
                    (ExcelGenerator.query data))) w).
Proof.
  intros Hkeys.
  destruct (random_choice_in env _ Hkeys) as (key & Hin & Hch).
  exists key. split; [exact Hin|]. intros data block w Hb.
  unfold ExcelGenerator.create_excel_intent.
  destruct (GROQ_API_KEYS env) as [|k ks] eqn:Ek; [contradiction|].
  rewrite (bind_yields _ _ _ _ Hb), (bind_yields _ _ _ _ Hch).
  unfold Groq.ainvoke. unfold try_except, bind at 1 2, log.
  exact (parse_or_fallback "excel" _ _).
Qed.

Lemma visuals_intent_run env :
  GROQ_API_KEYS env <> [] ->
  exists key,
    In key (GROQ_API_KEYS env)
    /\ forall data block w,
         yields (Visuals._format_history (Visuals.history data)) block ->
         Visuals.create_visuals_intent env data w
         = (Ok (label_of "viz"
                  (groq_ainvoke env key "llama-3.3-70b-versatile"
                     (Visuals.classify_prompt block (Visuals.query data)))),
            add_event
              (EvLlm key "llama-3.3-70b-versatile"
                 (Visuals.classify_prompt block (Visuals.query data))) w).
Proof.
  intros Hkeys.
  destruct (random_choice_in env _ Hkeys) as (key & Hin & Hch).
  exists key. split; [exact Hin|]. intros data block w Hb.
  unfold Visuals.create_visuals_intent.
  destruct (GROQ_API_KEYS env) as [|k ks] eqn:Ek; [contradiction|].
  rewrite (bind_yields _ _ _ _ Hb), (bind_yields _ _ _ _ Hch).
  unfold Groq.ainvoke. unfold try_except, bind at 1 2, log.
  exact (parse_or_fallback "viz" _ _).
Qed.

End IntentFacts.

(** C8, as the code has it: with at least one key configured, for
    every message and every history whose last ten entries are dicts
    with a string (or nothing) for a role, the history block is built and
    the intent is the first whitespace-delimited token of the model's
    reply to the classification prompt, lower-cased; when the call
    raises, or the reply has no content or no token, the intent is
    ['excel'] in the export flow and ['viz'] in the visualization flow,
    and neither of these takes the chat branch. *)
Theorem intent_label env :
  GROQ_API_KEYS env <> [] ->
  (forall data,
     forallb well_formed (recent_items (ExcelGenerator.history data)) = true ->
     exists block,
       yields (ExcelGenerator._format_history (ExcelGenerator.history data))
              block
       /\ forall w, exists key w',
            In key (GROQ_API_KEYS env)
            /\ ExcelGenerator.create_excel_intent env data w
               = (Ok (label_of "excel"
                        (groq_ainvoke env key "llama-3.3-70b-versatile"
                           (ExcelGenerator.classify_prompt block
                              (ExcelGenerator.query data)))),
                  w'))
  /\ (forall data,
        forallb well_formed (recent_dicts (Visuals.history data)) = true ->
        exists block,
          yields (Visuals._format_history (Visuals.history data)) block
          /\ forall w, exists key w',
               In key (GROQ_API_KEYS env)
               /\ Visuals.create_visuals_intent env data w
                  = (Ok (label_of "viz"
                           (groq_ainvoke env key "llama-3.3-70b-versatile"
                              (Visuals.classify_prompt block
                                 (Visuals.query data)))),
                     w'))
  /\ ExcelGenerator.is_chat "excel" = false
  /\ Visuals.is_chat "viz" = false.
Proof.
  intros Hkeys. split; [|split; [|split; reflexivity]].
  - destruct (IntentFacts.excel_intent_run env Hkeys) as (key & Hin & Hrun).
    intros data Hwf.
    destruct (IntentFacts.format_excel_ok _ Hwf) as (block & Hb).
    exists block. split; [exact Hb|]. intros w. exists key. eexists.
    split; [exact Hin | exact (Hrun data block w Hb)].
  - destruct (IntentFacts.visuals_intent_run env Hkeys) as (key & Hin & Hrun).
    intros data Hwf.
    destruct (IntentFacts.format_visuals_ok _ Hwf) as (block & Hb).
    exists block. split; [exact Hb|]. intros w. exists key. eexists.
    split; [exact Hin | exact (Hrun data block w Hb)].
Qed.

Lemma intent_label_witness :
  exists w',
    ExcelGenerator.create_excel_intent Demo.env
      {| ExcelGenerator.query := "put the revenue in a sheet";
         ExcelGenerator.index := "webindex-01234567";
         ExcelGenerator.history :=
           Some [Dict {| d_role := Some (FStr "user");
                         d_text := Some (FStr "Hello") |}] |}
      Demo.empty_world
    = (Ok "excel", w').
Proof.
  destruct (proj1 (intent_label Demo.env ltac:(discriminate))
              {| ExcelGenerator.query := "put the revenue in a sheet";
                 ExcelGenerator.index := "webindex-01234567";
                 ExcelGenerator.history :=
                   Some [Dict {| d_role := Some (FStr "user");
                                 d_text := Some (FStr "Hello") |}] |}
              eq_refl)
    as (block & _ & Hrun).
  destruct (Hrun Demo.empty_world) as (key & w' & _ & E).
  exists w'. exact E.
Defined.

(** C8 as stated fails for a history whose one entry has the number 1
    for a role: both request models accept it, and [_format_history],
    which runs before the [try], raises [AttributeError] on it.  The
    classification then gives no label, neither the model's nor the
    default, and the model is not called. *)
Lemma intent_label_malformed_history :
  ExcelGenerator.create_excel_intent Demo.env Demo3.excel_request_role_1
    Demo.empty_world
  = (Raise (AttributeError "upper"), Demo.empty_world)
  /\ Visuals.create_visuals_intent Demo.env Demo3.visual_request_role_1
       Demo.empty_world
     = (Raise (AttributeError "upper"), Demo.empty_world).
Proof. split; reflexivity. Qed.

(* ================================================================== *)
(** * Extraction *)

Import PyStr PyStrFacts ScraperFacts.

(** C7, as the code has it: when the page was fetched, [extract_static]
    returns (it does not raise, whatever the world) and
    - the heuristic's text is returned when it is present and its
      stripped length exceeds 200, and no text is returned whose
      stripped length does not exceed 200 (the test is [> 200]);
    - when the heuristic's text is missing or its stripped length is at
      most 200, the result is the tag-stripped text when that one's
      stripped length exceeds 200, and None when the tag-stripped text
      could not be had or its stripped length is at most 200;
    - when the heuristic itself raises, nothing falls back: the result
      is None. *)
Theorem extract_static_threshold env url html :
  requests_get env url = Returns html ->
  exists r,
    yields (Scraper.extract_static env url) r
    /\ (forall t, trafilatura_extract env html = Returns (Some t) ->
          200 < String.length (strip t) -> r = Some t)
    /\ (forall t, r = Some t -> 200 < String.length (strip t))
    /\ ((trafilatura_extract env html = Returns None
         \/ exists t, trafilatura_extract env html = Returns (Some t)
                      /\ String.length (strip t) <= 200) ->
        (forall raw, bs_get_text env html = Returns raw ->
           200 < String.length (strip raw) -> r = Some raw)
        /\ (((exists msg, bs_get_text env html = Fails msg)
             \/ (exists raw, bs_get_text env html = Returns raw
                             /\ String.length (strip raw) <= 200)) ->
            r = None))
    /\ (forall msg, trafilatura_extract env html = Fails msg -> r = None).
Proof.
  intros Hget.
  exists (from_html env html). split.
  - pose proof (extract_static_yields env url) as Hy.
    rewrite Hget in Hy. exact Hy.
  - assert (Hshort : forall t, String.length (strip t) <= 200 ->
                               Scraper.usable (Some t) = false).
    { intros t Ht. destruct (Scraper.usable (Some t)) eqn:U; [|reflexivity].
      apply usable_long in U. lia. }
    split; [|split; [|split]].
    + intros t Hheur Hlong. unfold from_html. rewrite Hheur.
      rewrite (long_usable _ Hlong). reflexivity.
    + intros t Hr. exact (usable_long _ (from_html_usable _ _ _ Hr)).
    + intros Hmiss.
      assert (Hu : exists heuristic,
                 trafilatura_extract env html = Returns heuristic
                 /\ Scraper.usable heuristic = false).
      { destruct Hmiss as [E | (t & E & Ht)].
        - exists None. split; [exact E | reflexivity].
        - exists (Some t). split; [exact E | exact (Hshort _ Ht)]. }
      destruct Hu as (heuristic & Hheur & Hu).
      unfold from_html. rewrite Hheur, Hu. split.
      * intros raw -> Hlong. rewrite (long_usable _ Hlong). reflexivity.
      * intros [(msg & ->) | (raw & -> & Hraw)]; [reflexivity|].
        rewrite (Hshort _ Hraw). reflexivity.
    + intros msg E. unfold from_html. rewrite E. reflexivity.
Qed.

Lemma extract_static_threshold_witness :
  yields (Scraper.extract_static Demo.env "https://example.com/a")
         (Some Demo.page).
Proof.
  destruct (extract_static_threshold Demo.env "https://example.com/a"
              _ eq_refl) as (r & Hy & Hlong & _).
  rewrite <- (Hlong Demo.page eq_refl ltac:(vm_compute; lia)).
  exact Hy.
Defined.

(** C7 as stated fails at the threshold itself: the heuristic's text is
    present and has exactly 200 characters, so it is not below the
    threshold of 200; it is not returned all the same.  The short
    tag-stripped text is tried in its place, and the result is None. *)
Lemma extract_static_exactly_200 :
  trafilatura_extract Demo4.env_heuristic_200
    "<html>https://example.com/a</html>"
  = Returns (Some Demo4.text_200)
  /\ String.length (strip Demo4.text_200) = 200
  /\ yields (Scraper.extract_static Demo4.env_heuristic_200
               "https://example.com/a") None.
Proof.
  split; [reflexivity|]. split; [vm_compute; reflexivity|].
  intros w. vm_compute. reflexivity.
Qed.


Lemma combined_not_blank env urls :
  urls <> [] ->
  exists c r, yields (Scraper.fetch_and_combine env urls) (String c r)
              /\ is_space c = false.
Proof.
  intros Hne. destruct (fetch_loop_parts env urls []) as (parts & Hy & Hf).
  destruct Hf as [|url part urls' parts' Hp _]; [contradiction|].
  destruct (part_head _ _ _ Hp) as (c & r & -> & Hc).
  destruct (join_head (LF ++ LF) c r parts') as (r' & Ej).
  exists c, (rstrip r'). split; [|exact Hc].
  intros w. unfold Scraper.fetch_and_combine.
  rewrite (bind_yields _ _ _ _ Hy). unfold ret. simpl app at 1.
  rewrite Ej, (strip_head _ _ Hc). reflexivity.
Qed.

(** After the extraction, [analyze] raises no [HTTPException]. *)
Lemma analyze_tail_external env combined :
  obeys (fun _ _ => True)
    (h <- uuid4 env;;
     Rag.create_index_if_not_exists_async env
       ("webindex-" ++ prefix 8 h) 768;;
     optimized_text <- Rag.optimize_text_for_rag env combined;;
     Rag.process_text_and_upsert env ("webindex-" ++ prefix 8 h)
       optimized_text;;
     summary <- Rag.generate_summary_with_groq env optimized_text;;
     ret {| Rag.success := true;
            Rag.index_name := Some ("webindex-" ++ prefix 8 h);
            Rag.summary := Some summary |}).
Proof.
  assert (T : forall a b c : World, True -> True -> True) by auto.
  apply obeys_bind; [exact T | apply obeys_uuid4; auto | intros h].
  apply obeys_bind; [exact T | | intros _].
  { intros w r w' H. split; [exact I|]. intros e ->.
    exact (ensure_external _ _ _ _ _ _ H). }
  apply obeys_bind; [exact T | | intros opt].
  { apply obeys_optimize with (allowed := fun _ => True); auto. }
  apply obeys_bind; [exact T | | intros _].
  { apply obeys_process_text_and_upsert with (allowed := fun _ => True); auto. }
  apply obeys_bind; [exact T | | intros summary].
  { apply obeys_summary with (allowed := fun _ => True); auto. }
  apply obeys_ret; auto.
Qed.

(** C9: for every non-empty list of URLs [fetch_and_combine] returns a
    string that is not empty and not blank, and [analyze] does not raise
    the HTTP 500 "Failed to extract content from provided URLs.". *)
Theorem extract_failure_unreachable env urls :
  urls <> [] ->
  (exists s, yields (Scraper.fetch_and_combine env urls) s
             /\ s <> "" /\ strip s <> "")
  /\ forall authorization w,
       fst (Rag.analyze env {| Rag.urls := urls |} authorization w)
       <> Raise (HTTPException 500
                   "Failed to extract content from provided URLs.").
Proof.
  intros Hne. destruct (combined_not_blank env urls Hne) as (c & r & Hy & Hc).
  split.
  - exists (String c r). split; [exact Hy|]. split; [discriminate|].
    rewrite (strip_head _ _ Hc). discriminate.
  - intros authorization w. unfold Rag.analyze.
    destruct (Rag.unauthorized env authorization); [simpl; discriminate|].
    cbn [Rag.urls]. destruct urls as [|u us]; [contradiction|].
    rewrite (bind_yields _ _ _ _ Hy).
    cbn [is_empty orb]. rewrite (strip_head _ _ Hc). cbn [String.length Nat.eqb].
    match goal with
    | |- fst (?m w) <> _ => destruct (m w) as [res w'] eqn:Erun
    end. simpl.
    intros ->.
    destruct (analyze_tail_external env (String c r) _ _ _ Erun) as [_ Hx].
    exact (Hx _ eq_refl 500%Z _ eq_refl).
Qed.

Lemma extract_failure_unreachable_witness :
  fst (Rag.analyze Demo.env {| Rag.urls := ["https://example.com/a"] |}
         None Demo.empty_world)
  <> Raise (HTTPException 500 "Failed to extract content from provided URLs.").
Proof.
  apply (proj2 (extract_failure_unreachable Demo.env
                  ["https://example.com/a"] ltac:(discriminate))).
Defined.

(* ================================================================== *)
(** * Ingestion is not atomic *)

(** C10: [analyze] creates the index before it optimises, chunks, embeds
    and upserts, and nothing removes it afterwards: when the request
    passes the checks, the index step returns and
    [process_text_and_upsert] (chunking, embedding, upsert) raises,
    [analyze] raises that exception and the store it leaves still lists
    the index, with the listing the index step left; if the name was new
    and the store below its ceiling, that is the former listing plus the
    new name. *)
Theorem analyze_not_atomic env request authorization w combined name w1
    optimized w2 e w3 :
  Rag.unauthorized env authorization = false ->
  Rag.urls request <> [] ->
  Scraper.fetch_and_combine env (Rag.urls request) w = (Ok combined, w) ->
  name = "webindex-" ++ prefix 8 (uuid4_hex env (uuid_count w)) ->
  Rag.create_index_if_not_exists_async env name 768 (next_uuid w)
  = (Ok tt, w1) ->
  Rag.optimize_text_for_rag env combined w1 = (Ok optimized, w2) ->
  Rag.process_text_and_upsert env name optimized w2 = (Raise e, w3) ->
  Rag.analyze env request authorization w = (Raise e, w3)
  /\ In name (names w3)
  /\ names w3 = names w1
  /\ (~ In name (names w) -> List.length (names w) < 5 ->
      names w3 = (names w ++ [name])%list).
Proof.
  intros Hauth Hne Hfetch -> Hensure Hopt Hproc.
  assert (E31 : names w3 = names w1).
  { pose proof (proj1 (EndpointFacts.process_same_names _ _ _ _ _ _ Hproc)) as A.
    pose proof (proj1 (EndpointFacts.optimize_same_names _ _ _ _ _ Hopt)) as B.
    unfold same_names in A, B. congruence. }
  split; [|split; [|split]].
  - destruct (combined_not_blank env _ Hne) as (c & r & Hy & Hc).
    rewrite Hy in Hfetch. inversion Hfetch; subst combined. clear Hfetch.
    unfold Rag.analyze. rewrite Hauth.
    destruct (Rag.urls request) as [|u us]; [contradiction|].
    rewrite (bind_yields _ _ _ _ Hy).
    cbn [is_empty orb]. rewrite (strip_head _ _ Hc).
    cbn [String.length Nat.eqb].
    unfold bind at 1, uuid4 at 1.
    rewrite (bind_ok _ _ _ _ _ Hensure), (bind_ok _ _ _ _ _ Hopt).
    apply bind_raise. exact Hproc.
  - rewrite E31. exact (ensure_listed _ _ _ _ _ Hensure).
  - exact E31.
  - intros Hnew Hbelow.
    destruct (ensure_new_inv env _ 768 (next_uuid w) w1 Hnew Hensure)
      as (kept & E & _ & Hk).
    rewrite E31, E, (Hk Hbelow). reflexivity.
Qed.

Lemma analyze_not_atomic_witness :
  let run := Rag.analyze Demo.env_embedding_down
               {| Rag.urls := ["https://example.com/a"] |} None
               Demo.empty_world in
  fst run = Raise (ExternalError "connection refused")
  /\ names (snd run) = ["webindex-01234567"].
Proof.
  destruct (analyze_not_atomic Demo.env_embedding_down
              {| Rag.urls := ["https://example.com/a"] |} None
              Demo.empty_world _ _ _ _ _ _ _
              eq_refl ltac:(discriminate) eq_refl eq_refl eq_refl eq_refl
              eq_refl)
    as (Hrun & _ & _ & Hnames).
  cbv zeta. rewrite Hrun. split; [reflexivity|].
  apply Hnames; [intros [] | simpl; lia].
Defined.

(* ================================================================== *)
(** * Further properties of the text extractor *)

Module MoreStrFacts.
Import PyStr PyStrFacts.

Lemma rstrip_idem s : rstrip (rstrip s) = rstrip s.
Proof.
  induction s as [|c r IH]; simpl; [reflexivity|].
  destruct (is_space c && is_empty (rstrip r)) eqn:E; [reflexivity|].
  simpl. rewrite IH, E. reflexivity.
Qed.

Lemma strip_idem s : strip (strip s) = strip s.
Proof.
  unfold strip at 1. rewrite lstrip_strip. unfold strip.
  apply rstrip_idem.
Qed.

Lemma lstrip_all_space s : lstrip s = "" <-> all_space s = true.
Proof.
  induction s as [|c r IH]; simpl; [tauto|].
  destruct (is_space c); simpl; [exact IH|].
  split; discriminate.
Qed.

(** A string is blank exactly when it holds nothing but whitespace. *)
Lemma strip_empty_iff s : strip s = "" <-> all_space s = true.
Proof.
  rewrite <- lstrip_all_space. unfold strip.
  destruct (lstrip_head s) as [E | (c & r & E & Hc)]; rewrite E.
  - simpl. tauto.
  - simpl. rewrite Hc. simpl. split; discriminate.
Qed.

Lemma all_space_app a b :
  all_space (a ++ b) = all_space a && all_space b.
Proof.
  induction a as [|c r IH]; simpl; [reflexivity|].
  rewrite IH, andb_assoc. reflexivity.
Qed.

End MoreStrFacts.

(** X1: whatever the web serves, [extract_static] and [extract_js]
    return without raising and without touching the world; the result is
    None when the page could not be fetched (or rendered), and otherwise
    None or a text whose stripped length exceeds 200. *)
Theorem extractors_never_raise env url :
  exists rs rj,
    yields (Scraper.extract_static env url) rs
    /\ yields (Scraper.extract_js env url) rj
    /\ (forall t, rs = Some t -> 200 < String.length (strip t))
    /\ (forall t, rj = Some t -> 200 < String.length (strip t))
    /\ (forall msg, requests_get env url = Fails msg -> rs = None)
    /\ (forall msg, playwright_content env url = Fails msg -> rj = None).
Proof.
  eexists _, _.
  split; [apply extract_static_yields|].
  split; [apply extract_js_yields|].
  split; [|split; [|split]].
  - intros t. destruct (requests_get env url); [|discriminate].
    intros H. apply usable_long, (from_html_usable _ _ _ H).
  - intros t. destruct (playwright_content env url); [|discriminate].
    intros H. apply usable_long, (from_html_usable _ _ _ H).
  - intros msg ->. reflexivity.
  - intros msg ->. reflexivity.
Qed.

(** X2: the text [fetch_and_combine] returns is already stripped
    (stripping it again, as [analyze] does, changes nothing), and it is
    empty exactly when no URL was given. *)
Theorem fetch_and_combine_stripped env urls :
  exists s,
    yields (Scraper.fetch_and_combine env urls) s
    /\ strip s = s
    /\ (s = "" <-> urls = []).
Proof.
  destruct (fetch_loop_parts env urls []) as (parts & Hl & Hf).
  pose proof (Forall2_length Hf) as Hlen.
  assert (Hy : yields (Scraper.fetch_and_combine env urls)
                      (strip (join (LF ++ LF) parts))).
  { intros w. unfold Scraper.fetch_and_combine.
    rewrite (bind_yields _ _ _ _ Hl). reflexivity. }
  exists (strip (join (LF ++ LF) parts)).
  split; [exact Hy|]. split; [apply MoreStrFacts.strip_idem|].
  destruct urls as [|u us].
  - destruct parts; [|discriminate Hlen]. split; reflexivity.
  - destruct (combined_not_blank env (u :: us) ltac:(discriminate))
      as (c & r & Hy' & _).
    assert (E : strip (join (LF ++ LF) parts) = String c r).
    { pose proof (Hy Demo.empty_world) as H1.
      rewrite (Hy' Demo.empty_world) in H1. congruence. }
    rewrite E. split; discriminate.
Qed.

(* ================================================================== *)
(** * Further properties of the query flow *)

Module QueryFacts.
Import PyStr PyStrFacts MoreStrFacts Rag.

Lemma context_sep_not_blank : all_space CONTEXT_SEP = false.
Proof. reflexivity. Qed.

(** Two texts or more: the separator between them keeps the join from
    being blank. *)
Lemma join_two_not_blank a b rest :
  all_space (join CONTEXT_SEP (a :: b :: rest)) = false.
Proof.
  change (join CONTEXT_SEP (a :: b :: rest))
    with (a ++ CONTEXT_SEP ++ join CONTEXT_SEP (b :: rest))%string.
  rewrite !all_space_app, context_sep_not_blank.
  rewrite andb_false_l, andb_false_r. reflexivity.
Qed.

Lemma join_blank_iff texts :
  strip (join CONTEXT_SEP texts) = ""
  <-> texts = [] \/ exists t, texts = [t] /\ strip t = "".
Proof.
  destruct texts as [|a [|b rest]].
  - split; [left; reflexivity | reflexivity].
  - simpl. split.
    + intros H. right. exists a. split; [reflexivity | exact H].
    + intros [H | (t & E & H)]; [discriminate H|]. inversion E; subst.
      exact H.
  - rewrite strip_empty_iff, join_two_not_blank. split; [discriminate|].
    intros [H | (t & E & _)]; discriminate.
Qed.

Lemma add_events_nil w : add_events [] w = w.
Proof. destruct w. unfold add_events. simpl. rewrite app_nil_r. reflexivity. Qed.

Lemma add_events_app e1 e2 w :
  add_events e2 (add_events e1 w) = add_events (e1 ++ e2) w.
Proof. unfold add_events. simpl. rewrite app_assoc. reflexivity. Qed.

(** Keys that fail are passed over, each at the cost of one call. *)
Lemma try_keys_skip env prompt pre rest :
  (forall key, In key pre -> key_fails env key MODEL_NAME prompt) ->
  forall w,
    try_keys env prompt (pre ++ rest) w
    = try_keys env prompt rest (add_events (llm_events prompt pre) w).
Proof.
  induction pre as [|key pre IH]; intros Hfail w.
  - simpl. rewrite add_events_nil. reflexivity.
  - pose proof (Hfail key (or_introl eq_refl)) as Hk. unfold key_fails in Hk.
    assert (E : try_keys env prompt ((key :: pre) ++ rest) w
                = try_keys env prompt (pre ++ rest)
                    (add_event (EvLlm key MODEL_NAME prompt) w)).
    { simpl. unfold bind, try_except, Groq.ainvoke, bind, log, call.
      destruct (groq_ainvoke env key MODEL_NAME prompt) as [[msg|]|m]; simpl;
        [rewrite Hk|..]; reflexivity. }
    rewrite E, IH by (intros k Hin; apply Hfail; right; exact Hin).
    change (add_event (EvLlm key MODEL_NAME prompt) w)
      with (add_events [EvLlm key MODEL_NAME prompt] w).
    rewrite add_events_app. reflexivity.
Qed.

(** The first key that answers ends the loop. *)
Lemma try_keys_answer env prompt key c post w :
  key_answers env key prompt c ->
  try_keys env prompt (key :: post) w
  = (Ok (Some (strip c)), add_event (EvLlm key MODEL_NAME prompt) w).
Proof.
  intros [E Hc]. simpl. unfold bind, try_except, Groq.ainvoke, bind, log, call.
  rewrite E. simpl. destruct c; [contradiction|]. reflexivity.
Qed.

Lemma try_keys_first_answer env prompt pre key c post w :
  (forall k, In k pre -> key_fails env k MODEL_NAME prompt) ->
  key_answers env key prompt c ->
  try_keys env prompt (pre ++ key :: post) w
  = (Ok (Some (strip c)), add_events (llm_events prompt (pre ++ [key])) w).
Proof.
  intros Hfail Hans. rewrite (try_keys_skip _ _ _ _ Hfail).
  rewrite (try_keys_answer _ _ _ _ _ _ Hans).
  change (add_event (EvLlm key MODEL_NAME prompt)
            (add_events (llm_events prompt pre) w))
    with (add_events [EvLlm key MODEL_NAME prompt]
            (add_events (llm_events prompt pre) w)).
  rewrite add_events_app. unfold llm_events. rewrite map_app. reflexivity.
Qed.

Lemma try_keys_none env prompt keys w :
  (forall k, In k keys -> key_fails env k MODEL_NAME prompt) ->
  try_keys env prompt keys w
  = (Ok None, add_events (llm_events prompt keys) w).
Proof.
  intros Hfail. rewrite <- (app_nil_r keys) at 1.
  rewrite (try_keys_skip _ _ _ _ Hfail). reflexivity.
Qed.

(** The loop over the keys never raises. *)
Lemma try_keys_total env prompt keys :
  forall w, exists r w', try_keys env prompt keys w = (Ok r, w').
Proof.
  induction keys as [|key rest IH]; intros w; simpl.
  - eexists _, _. reflexivity.
  - unfold bind, try_except, Groq.ainvoke, bind, log, call.
    destruct (groq_ainvoke env key MODEL_NAME prompt) as [[msg|]|m]; simpl;
      try apply IH.
    destruct (truthy (content msg)); simpl; [|apply IH].
    destruct (content msg); simpl; [|apply IH].
    eexists _, _. reflexivity.
Qed.

Lemma nth_remove_nth_perm {A} (d : A) :
  forall pool j, j < List.length pool ->
    Permutation (nth j pool d :: remove_nth j pool) pool.
Proof.
  induction pool as [|x r IH]; intros [|j] Hj; simpl in *; try lia.
  - apply Permutation_refl.
  - eapply perm_trans; [apply perm_swap|].
    apply perm_skip, IH. lia.
Qed.

Lemma remove_nth_length {A} :
  forall (pool : list A) j, j < List.length pool ->
    List.length (remove_nth j pool) = List.length pool - 1.
Proof.
  induction pool as [|x r IH]; intros [|j] Hj; simpl in *; try lia.
  rewrite IH by lia. lia.
Qed.

(** [random.sample(pool, len(pool))] is a rearrangement of the pool. *)
Lemma sample_aux_perm {A} rand :
  forall k (pool : list A), k = List.length pool ->
    Permutation (sample_aux rand k pool) pool.
Proof.
  induction k as [|k IH]; intros pool Hk.
  - destruct pool; [apply Permutation_refl | discriminate].
  - destruct pool as [|d rest]; [discriminate|].
    assert (Hj : rand k mod List.length (d :: rest) < List.length (d :: rest))
      by (apply Nat.mod_upper_bound; discriminate).
    change (sample_aux rand (S k) (d :: rest))
      with (nth (rand k mod List.length (d :: rest)) (d :: rest) d
            :: sample_aux rand k
                 (remove_nth (rand k mod List.length (d :: rest)) (d :: rest))).
    eapply perm_trans; [|apply (nth_remove_nth_perm d _ _ Hj)].
    apply perm_skip, IH. rewrite remove_nth_length by exact Hj.
    simpl in *. lia.
Qed.

End QueryFacts.

Import QueryFacts.

(** X3: when the store query returns, [_search_index_sync] returns the
    texts the matches carry, in the order of the matches, joined by the
    separator (a line of three dashes between two blank lines); that
    context is blank exactly when there is no match or a single match
    whose text is blank: with two matches or more the separator keeps it
    from being blank, even if no match carries any text. *)
Theorem search_context_blank_iff env name v k w res matches :
  pinecone_query env (indexes w) name v k = Returns res ->
  matches = match qr_matches res with Some ms => ms | None => [] end ->
  exists texts,
    Forall2 carries matches texts
    /\ Rag._search_index_sync env name v k w
       = (Ok (join (LF ++ LF ++ "---" ++ LF ++ LF) texts),
          add_event (EvPinecone (Query name k)) w)
    /\ (strip (join (LF ++ LF ++ "---" ++ LF ++ LF) texts) = ""
        <-> matches = []
            \/ exists m t, matches = [m] /\ carries m t /\ strip t = "").
Proof.
  intros E ->.
  set (matches := match qr_matches res with Some ms => ms | None => [] end).
  assert (Hc : forall m, carries m (Rag.match_text m)).
  { intros m. unfold carries, Rag.match_text.
    destruct (match_metadata m) as [md|]; [|reflexivity].
    destruct (md_text md); reflexivity. }
  assert (Hu : forall m t, carries m t -> t = Rag.match_text m).
  { intros m t. unfold carries, Rag.match_text.
    destruct (match_metadata m) as [md|]; [|auto].
    destruct (md_text md); auto. }
  exists (map Rag.match_text matches). split; [|split].
  - induction matches as [|m ms IH]; simpl; constructor; [apply Hc | exact IH].
  - rewrite EndpointFacts.search_run, E. reflexivity.
  - change (LF ++ LF ++ "---" ++ LF ++ LF)%string with Rag.CONTEXT_SEP.
    rewrite join_blank_iff.
    destruct matches as [|m [|m' ms]]; simpl.
    + split; intros _; left; reflexivity.
    + split.
      * intros [H | (t & Et & Ht)]; [discriminate H|]. right.
        inversion Et; subst. exists m, (Rag.match_text m).
        split; [reflexivity|]. split; [apply Hc | exact Ht].
      * intros [H | (m0 & t & Em & Hm & Ht)]; [discriminate H|]. right.
        inversion Em; subst. rewrite (Hu _ _ Hm) in Ht.
        eexists. split; [reflexivity | exact Ht].
    + split; [intros [H | (t & Et & _)]; discriminate|].
      intros [H | (m0 & t & Em & _)]; discriminate.
Qed.

Lemma search_context_blank_iff_witness :
  Rag._search_index_sync Demo2.env_textless_matches "webindex-01234567"
    [1%float] 5 Demo.empty_world
  = (Ok (LF ++ LF ++ "---" ++ LF ++ LF)%string,
     add_event (EvPinecone (Query "webindex-01234567" 5)) Demo.empty_world)
  /\ strip (LF ++ LF ++ "---" ++ LF ++ LF) <> "".
Proof.
  destruct (search_context_blank_iff Demo2.env_textless_matches
              "webindex-01234567" [1%float] 5 Demo.empty_world _ _
              eq_refl eq_refl)
    as (texts & Hc & Hrun & Hiff).
  assert (Et : texts = [""; ""]).
  { inversion Hc as [|m1 t1 ms1 ts1 H1 Hr1]; subst.
    inversion Hr1 as [|m2 t2 ms2 ts2 H2 Hr2]; subst.
    inversion Hr2; subst. unfold carries in H1, H2. simpl in H1, H2.
    subst. reflexivity. }
  subst texts. split; [exact Hrun|].
  intros Hb. apply (proj1 Hiff) in Hb.
  destruct Hb as [H | (m & t & H & _)]; discriminate H.
Defined.

(** X4: for an authorised request with an index name, [ask] raises
    exactly when embedding the question raises, and then with that same
    exception, which is no [HTTPException]; once the question is
    embedded [ask] returns an answer, whatever the store and the chat
    model do. *)
Theorem ask_raises_only_from_embedding env req authorization w :
  Rag.unauthorized env authorization = false ->
  Rag.ask_index_name req <> "" ->
  (forall e w1,
     Rag.aembed_query env (Rag.question req) w = (Raise e, w1) ->
     Rag.ask env req authorization w = (Raise e, w1) /\ not_http e)
  /\ (forall query_vec w1,
        Rag.aembed_query env (Rag.question req) w = (Ok query_vec, w1) ->
        exists response w',
          Rag.ask env req authorization w = (Ok response, w')).
Proof.
  intros Hauth Hname.
  assert (Hask : Rag.ask env req authorization w
                 = bind (Rag.aembed_query env (Rag.question req))
                     (fun query_vec =>
                        context <- Rag._search_index_sync env
                                     (Rag.ask_index_name req) query_vec 5;;
                        if is_empty (strip context)
                        then ret {| Rag.answer := Rag.NOT_AVAILABLE |}
                        else
                          answer <- Rag.answer_with_context_groq env
                                      (Rag.question req) context
                                      (Rag.history req);;
                          ret {| Rag.answer := answer |}) w).
  { unfold Rag.ask. rewrite Hauth.
    destruct (Rag.ask_index_name req); [contradiction | reflexivity]. }
  rewrite Hask. split.
  - intros e w1 He. split; [apply bind_raise, He|].
    exact (proj2 (EndpointFacts.aembed_query_no_llm _ _ _ _ _ He) e eq_refl).
  - intros qv w1 Hq. rewrite (bind_ok _ _ _ _ _ Hq).
    unfold bind at 1. rewrite EndpointFacts.search_run.
    destruct (is_empty _); [eexists _, _; reflexivity|].
    unfold Rag.answer_with_context_groq.
    match goal with
    | |- context [Rag.try_keys env ?p ?ks] =>
        destruct (try_keys_total env p ks
                    (add_event (EvPinecone (Query (Rag.ask_index_name req) 5))
                               w1)) as (r & w' & Et)
    end.
    unfold bind. rewrite Et. destruct r; eexists _, _; reflexivity.
Qed.

Lemma ask_raises_only_from_embedding_witness :
  fst (Rag.ask Demo.env_embedding_down
         {| Rag.ask_index_name := "webindex-01234567";
            Rag.question := "What is the revenue?";
            Rag.history := None |}
         None Demo.empty_world)
  = Raise (ExternalError "connection refused").
Proof.
  destruct (proj1 (ask_raises_only_from_embedding Demo.env_embedding_down
                     {| Rag.ask_index_name := "webindex-01234567";
                        Rag.question := "What is the revenue?";
                        Rag.history := None |}
                     None Demo.empty_world eq_refl ltac:(discriminate))
              _ _ eq_refl) as [Hrun _].
  rewrite Hrun. reflexivity.
Defined.

(** X5: a request that fails the authorisation check or the input check
    is rejected before any outgoing call: [analyze] and [ask] raise 401
    for a wrong key, and 400 for an empty URL list resp. an empty index
    name; in each case the world is unchanged (no index is created, no
    service is called), and the key is checked before the input. *)
Theorem rejected_requests_touch_nothing env w :
  (forall request authorization,
     Rag.unauthorized env authorization = true ->
     Rag.analyze env request authorization w
     = (Raise (HTTPException 401 "Invalid API Key."), w))
  /\ (forall authorization,
        Rag.unauthorized env authorization = false ->
        Rag.analyze env {| Rag.urls := [] |} authorization w
        = (Raise (HTTPException 400 "No URLs provided."), w))
  /\ (forall req authorization,
        Rag.unauthorized env authorization = true ->
        Rag.ask env req authorization w
        = (Raise (HTTPException 401 "Invalid API Key."), w))
  /\ (forall question history authorization,
        Rag.unauthorized env authorization = false ->
        Rag.ask env {| Rag.ask_index_name := ""; Rag.question := question;
                       Rag.history := history |} authorization w
        = (Raise (HTTPException 400 "index_name required"), w))
  /\ (forall authorization,
        Rag.unauthorized env authorization = true <->
        exists k, API_KEY env = Some k /\ k <> ""
                  /\ authorization <> Some ("Bearer " ++ k)).
Proof.
  split; [|split; [|split; [|split]]].
  - intros request authorization H. unfold Rag.analyze. rewrite H. reflexivity.
  - intros authorization H. unfold Rag.analyze. rewrite H. reflexivity.
  - intros req authorization H. unfold Rag.ask. rewrite H. reflexivity.
  - intros question history authorization H. unfold Rag.ask. rewrite H.
    reflexivity.
  - intros authorization. unfold Rag.unauthorized.
    destruct (API_KEY env) as [k|].
    + destruct k as [|c r]; cbn [PyStr.is_empty negb andb].
      * split; [discriminate|]. intros (k & E & Hk & _). inversion E; subst.
        contradiction.
      * destruct authorization as [a|].
        -- destruct (String.eqb a ("Bearer " ++ String c r)) eqn:Ea;
             cbn [negb].
           ++ apply String.eqb_eq in Ea. subst. split; [discriminate|].
              intros (k & E & _ & Hn). inversion E; subst. contradiction.
           ++ apply String.eqb_neq in Ea. split; [|reflexivity]. intros _.
              eexists. split; [reflexivity|]. split; [discriminate|].
              congruence.
        -- cbn [negb]. split; [|reflexivity]. intros _. eexists.
           split; [reflexivity|]. split; discriminate.
    + split; [discriminate|]. intros (k & E & _). discriminate E.
Qed.

(* ================================================================== *)
(** * Further properties of the key failover *)

(** X6: in [optimize_text_for_rag], [answer_with_context_groq] and
    [generate_summary_with_groq], when the keys tried before [key] all
    fail on the prompt and [key] answers with a non-empty content, the
    function returns that content stripped, and the chat model was called
    once for each key up to [key] and for no key after it. *)
Theorem failover_first_answer env pre key post c :
  random_sample env (GROQ_API_KEYS env) = (pre ++ key :: post)%list ->
  (forall text w,
     (forall k, In k pre ->
        key_fails env k Rag.MODEL_NAME (Rag.optimize_prompt text)) ->
     key_answers env key (Rag.optimize_prompt text) c ->
     Rag.optimize_text_for_rag env text w
     = (Ok (strip c),
        add_events (llm_events (Rag.optimize_prompt text) (pre ++ [key])) w))
  /\ (forall question context history w,
        (forall k, In k pre ->
           key_fails env k Rag.MODEL_NAME
             (Rag.answer_prompt question context history)) ->
        key_answers env key (Rag.answer_prompt question context history) c ->
        Rag.answer_with_context_groq env question context history w
        = (Ok (strip c),
           add_events
             (llm_events (Rag.answer_prompt question context history)
                         (pre ++ [key])) w))
  /\ (forall text w,
        (forall k, In k pre ->
           key_fails env k Rag.MODEL_NAME (Rag.summary_prompt text)) ->
        key_answers env key (Rag.summary_prompt text) c ->
        Rag.generate_summary_with_groq env text w
        = (Ok (strip c),
           add_events (llm_events (Rag.summary_prompt text) (pre ++ [key]))
                      w)).
Proof.
  intros Es. split; [|split].
  - intros text w Hf Ha. unfold Rag.optimize_text_for_rag, bind.
    rewrite Es, (try_keys_first_answer _ _ _ _ _ _ _ Hf Ha). reflexivity.
  - intros q ctx h w Hf Ha. unfold Rag.answer_with_context_groq, bind.
    rewrite Es, (try_keys_first_answer _ _ _ _ _ _ _ Hf Ha). reflexivity.
  - intros text w Hf Ha. unfold Rag.generate_summary_with_groq, bind.
    rewrite Es, (try_keys_first_answer _ _ _ _ _ _ _ Hf Ha). reflexivity.
Qed.

Lemma failover_first_answer_witness :
  Rag.answer_with_context_groq Demo2.env_first_key_down
    "What is the revenue?" "Revenue: 10." None Demo.empty_world
  = (Ok "Revenue is 10.",
     add_events
       (llm_events
          (Rag.answer_prompt "What is the revenue?" "Revenue: 10." None)
          ["k2"; "k1"])
       Demo.empty_world).
Proof.
  apply (proj1 (proj2 (failover_first_answer Demo2.env_first_key_down
                         ["k2"] "k1" [] "  Revenue is 10.  " eq_refl))).
  - intros k [<- | []]. exact I.
  - split; [reflexivity | discriminate].
Defined.

(** X7: whatever the chat model does (raise, reply with nothing, reply
    with content) and whatever keys are configured,
    [optimize_text_for_rag], [answer_with_context_groq] and
    [generate_summary_with_groq] return a string; none of them raises,
    and none of them changes the store. *)
Theorem llm_helpers_never_raise env :
  (forall text w, exists s w',
     Rag.optimize_text_for_rag env text w = (Ok s, w')
     /\ indexes w' = indexes w)
  /\ (forall question context history w, exists s w',
        Rag.answer_with_context_groq env question context history w
        = (Ok s, w')
        /\ indexes w' = indexes w)
  /\ (forall text w, exists s w',
        Rag.generate_summary_with_groq env text w = (Ok s, w')
        /\ indexes w' = indexes w).
Proof.
  assert (Hkeep : forall prompt keys w r w',
             Rag.try_keys env prompt keys w = (r, w') ->
             indexes w' = indexes w).
  { intros prompt keys w r w' H.
    refine (proj1 (obeys_try_keys (fun a b => indexes b = indexes a)
                     (fun _ => True) _ _ _ _ env prompt keys w r w' H));
      first [ reflexivity | intros; simpl; congruence | intros; exact I ]. }
  split; [|split].
  - intros text w. unfold Rag.optimize_text_for_rag, bind.
    destruct (try_keys_total env (Rag.optimize_prompt text)
                (random_sample env (GROQ_API_KEYS env)) w) as (r & w' & E).
    rewrite E. pose proof (Hkeep _ _ _ _ _ E).
    destruct r; eexists _, _; split; (reflexivity || eassumption).
  - intros q ctx h w. unfold Rag.answer_with_context_groq, bind.
    destruct (try_keys_total env (Rag.answer_prompt q ctx h)
                (random_sample env (GROQ_API_KEYS env)) w) as (r & w' & E).
    rewrite E. pose proof (Hkeep _ _ _ _ _ E).
    destruct r; eexists _, _; split; (reflexivity || eassumption).
  - intros text w. unfold Rag.generate_summary_with_groq, bind.
    destruct (try_keys_total env (Rag.summary_prompt text)
                (random_sample env (GROQ_API_KEYS env)) w) as (r & w' & E).
    rewrite E. pose proof (Hkeep _ _ _ _ _ E).
    destruct r; eexists _, _; split; (reflexivity || eassumption).
Qed.

(** X8: the keys are tried in an order that is a rearrangement of the
    configured keys; when every one of them fails on the summary prompt,
    [generate_summary_with_groq] returns its fixed failure sentence
    after calling the chat model exactly once per configured key, in
    that order. *)
Theorem summary_keys_exhausted env :
  Permutation (random_sample env (GROQ_API_KEYS env)) (GROQ_API_KEYS env)
  /\ forall text w,
       (forall k, In k (GROQ_API_KEYS env) ->
          key_fails env k Rag.MODEL_NAME (Rag.summary_prompt text)) ->
       Rag.generate_summary_with_groq env text w
       = (Ok "Summary could not be generated due to an external service error.",
          add_events
            (llm_events (Rag.summary_prompt text)
                        (random_sample env (GROQ_API_KEYS env))) w).
Proof.
  split; [apply sample_aux_perm; reflexivity|].
  intros text w Hfail. unfold Rag.generate_summary_with_groq, bind.
  rewrite try_keys_none; [reflexivity|].
  intros k Hin. apply Hfail.
  exact (FailoverFacts.random_sample_incl _ _ _ Hin).
Qed.

(* ================================================================== *)
(** * Further properties of the index store adapter *)

Module MoreStoreFacts.

(** What [create_index_if_not_exists_async] does for a name that is not
    listed, once the listing has returned. *)
Lemma ensure_new_run env name dim w :
  ~ In name (names w) ->
  pinecone_fault env ListIndexes = None ->
  Rag.create_index_if_not_exists_async env name dim w
  = bind
      (if (5 <=? List.length (names w))%nat
       then match names w with
            | to_delete :: _ =>
                try_except (delete_index env to_delete) (fun _ => ret tt)
            | [] => raise (IndexError "list index out of range")
            end
       else ret tt)
      (fun _ => create_index env name dim "cosine")
      (add_event (EvPinecone ListIndexes) w).
Proof.
  intros Hnew Fl. unfold Rag.create_index_if_not_exists_async.
  unfold bind at 1. rewrite list_indexes_run, Fl.
  apply existsb_eqb_notin in Hnew. rewrite Hnew. reflexivity.
Qed.

Lemma create_index_fault env name dim metric w msg :
  pinecone_fault env (CreateIndex name dim) = Some msg ->
  create_index env name dim metric w
  = (Raise (ExternalError msg),
     add_event (EvPinecone (CreateIndex name dim)) w).
Proof.
  intros F. unfold create_index, request, bind, log, raise.
  rewrite F. reflexivity.
Qed.

(** Deleting the first-listed name of a store with distinct names leaves
    the rest of the listing. *)
Lemma delete_first_names env oldest rest w :
  names w = oldest :: rest ->
  ~ In oldest rest ->
  pinecone_fault env (DeleteIndex oldest) = None ->
  exists w1,
    delete_index env oldest w = (Ok tt, w1)
    /\ names w1 = rest
    /\ trace w1 = (trace w ++ [EvPinecone (DeleteIndex oldest)])%list.
Proof.
  intros En Hold Fd. eexists. split.
  - apply delete_index_ok; [exact Fd | rewrite En; left; reflexivity].
  - split; [|reflexivity].
    unfold names in *. simpl.
    destruct (indexes w) as [|ix ixs]; [discriminate En|].
    simpl in En. inversion En; subst. simpl.
    rewrite String.eqb_refl. simpl. rewrite filter_head_only; auto.
Qed.

End MoreStoreFacts.

(** X9: below the ceiling nothing is evicted: when the store lists fewer
    than 5 indexes, the name is not among them and the store carries out
    the listing and the creation, [create_index_if_not_exists_async]
    makes exactly these two calls (no deletion) and appends an empty
    index of the given name and dimension with the cosine metric. *)
Theorem ensure_index_below_ceiling env name dim w :
  List.length (names w) < 5 ->
  ~ In name (names w) ->
  pinecone_fault env ListIndexes = None ->
  pinecone_fault env (CreateIndex name dim) = None ->
  exists w',
    Rag.create_index_if_not_exists_async env name dim w = (Ok tt, w')
    /\ indexes w'
       = (indexes w ++ [{| idx_name := name; idx_dimension := dim;
                           idx_metric := "cosine"; idx_vectors := [] |}])%list
    /\ trace w' = (trace w ++ [EvPinecone ListIndexes;
                               EvPinecone (CreateIndex name dim)])%list.
Proof.
  intros Hlen Hnew Fl Fc.
  rewrite (MoreStoreFacts.ensure_new_run _ _ _ _ Hnew Fl).
  replace (5 <=? List.length (names w))%nat with false
    by (symmetry; apply Nat.leb_gt; exact Hlen).
  unfold bind, ret.
  rewrite create_index_ok; [|exact Fc | exact Hnew].
  eexists. split; [reflexivity|]. split; [reflexivity|].
  simpl. rewrite <- app_assoc. reflexivity.
Qed.

Lemma ensure_index_below_ceiling_witness :
  exists w',
    Rag.create_index_if_not_exists_async Demo.env "f" 768 Demo2.small_world
    = (Ok tt, w')
    /\ names w' = ["a"; "b"; "f"].
Proof.
  destruct (ensure_index_below_ceiling Demo.env "f" 768 Demo2.small_world
              ltac:(simpl; lia)
              ltac:(simpl; intuition discriminate) eq_refl eq_refl)
    as (w' & Hrun & Hix & _).
  exists w'. split; [exact Hrun|]. unfold names. rewrite Hix. reflexivity.
Defined.

(** X10: at or above the ceiling exactly one index is evicted, whatever
    the excess: when the store lists 5 distinct indexes or more, the
    name is not among them and the store carries out the three calls,
    only the first-listed index is removed and the new one is appended,
    so the store holds as many indexes as before (a store above the
    ceiling stays above it). *)
Theorem ensure_index_evicts_only_one env name dim w oldest rest :
  names w = oldest :: rest ->
  5 <= List.length (names w) ->
  NoDup (names w) ->
  ~ In name (names w) ->
  pinecone_fault env ListIndexes = None ->
  pinecone_fault env (DeleteIndex oldest) = None ->
  pinecone_fault env (CreateIndex name dim) = None ->
  exists w',
    Rag.create_index_if_not_exists_async env name dim w = (Ok tt, w')
    /\ names w' = (rest ++ [name])%list
    /\ List.length (names w') = List.length (names w)
    /\ trace w' = (trace w ++ [EvPinecone ListIndexes;
                               EvPinecone (DeleteIndex oldest);
                               EvPinecone (CreateIndex name dim)])%list.
Proof.
  intros En Hlen Hnd Hnew Fl Fd Fc.
  assert (Hold : ~ In oldest rest)
    by (rewrite En in Hnd; inversion Hnd; assumption).
  assert (Hnr : ~ In name rest)
    by (rewrite En in Hnew; simpl in Hnew; tauto).
  rewrite (MoreStoreFacts.ensure_new_run _ _ _ _ Hnew Fl).
  replace (5 <=? List.length (names w))%nat with true
    by (symmetry; apply Nat.leb_le; exact Hlen).
  rewrite En.
  destruct (MoreStoreFacts.delete_first_names env oldest rest
              (add_event (EvPinecone ListIndexes) w) En Hold Fd)
    as (w1 & Hd & En1 & Ht1).
  unfold bind, try_except. rewrite Hd.
  rewrite create_index_ok; [|exact Fc | rewrite En1; exact Hnr].
  eexists. split; [reflexivity|].
  assert (Ef : names (with_indexes
                 (indexes w1 ++ [{| idx_name := name; idx_dimension := dim;
                                    idx_metric := "cosine";
                                    idx_vectors := [] |}])%list
                 (add_event (EvPinecone (CreateIndex name dim)) w1))
               = (rest ++ [name])%list).
  { unfold names. cbn [indexes with_indexes]. rewrite map_app.
    change (map idx_name (indexes w1)) with (names w1).
    rewrite En1. reflexivity. }
  rewrite Ef. split; [reflexivity|]. split.
  - rewrite length_app. simpl. lia.
  - cbn [trace with_indexes add_event]. rewrite Ht1. simpl.
    rewrite <- !app_assoc. reflexivity.
Qed.

Lemma ensure_index_evicts_only_one_witness :
  exists w',
    Rag.create_index_if_not_exists_async Demo.env "f" 768 Demo2.crowded_world
    = (Ok tt, w')
    /\ names w' = ["b"; "c"; "d"; "e"; "g"; "f"].
Proof.
  destruct (ensure_index_evicts_only_one Demo.env "f" 768 Demo2.crowded_world
              "a" ["b"; "c"; "d"; "e"; "g"] eq_refl
              ltac:(simpl; lia)
              ltac:(unfold names; simpl;
                    repeat (constructor; [simpl; intuition discriminate|]);
                    constructor)
              ltac:(simpl; intuition discriminate) eq_refl eq_refl eq_refl)
    as (w' & Hrun & Hnames & _).
  exists w'. split; [exact Hrun | exact Hnames].
Defined.

(** X11: a refused creation is raised to the caller, and an eviction
    that preceded it is not undone: for a name that is not listed, when
    the store carries out the listing but refuses the creation, the call
    raises the store's error; below the ceiling the listing is as
    before, while at or above it (distinct names, deletion carried out)
    the first-listed index is gone although nothing was created. *)
Theorem ensure_index_creation_refused env name dim w msg :
  ~ In name (names w) ->
  pinecone_fault env ListIndexes = None ->
  pinecone_fault env (CreateIndex name dim) = Some msg ->
  (List.length (names w) < 5 ->
   exists w',
     Rag.create_index_if_not_exists_async env name dim w
     = (Raise (ExternalError msg), w')
     /\ names w' = names w)
  /\ (forall oldest rest,
        names w = oldest :: rest ->
        5 <= List.length (names w) ->
        NoDup (names w) ->
        pinecone_fault env (DeleteIndex oldest) = None ->
        exists w',
          Rag.create_index_if_not_exists_async env name dim w
          = (Raise (ExternalError msg), w')
          /\ names w' = rest).
Proof.
  intros Hnew Fl Fc. rewrite (MoreStoreFacts.ensure_new_run _ _ _ _ Hnew Fl).
  split.
  - intros Hlen.
    replace (5 <=? List.length (names w))%nat with false
      by (symmetry; apply Nat.leb_gt; exact Hlen).
    unfold bind, ret. rewrite (MoreStoreFacts.create_index_fault _ _ _ _ _ _ Fc).
    eexists. split; reflexivity.
  - intros oldest rest En Hlen Hnd Fd.
    assert (Hold : ~ In oldest rest)
      by (rewrite En in Hnd; inversion Hnd; assumption).
    replace (5 <=? List.length (names w))%nat with true
      by (symmetry; apply Nat.leb_le; exact Hlen).
    rewrite En.
    destruct (MoreStoreFacts.delete_first_names env oldest rest
                (add_event (EvPinecone ListIndexes) w) En Hold Fd)
      as (w1 & Hd & En1 & _).
    unfold bind, try_except. rewrite Hd.
    rewrite (MoreStoreFacts.create_index_fault _ _ _ _ _ _ Fc).
    eexists. split; [reflexivity | exact En1].
Qed.

Lemma ensure_index_creation_refused_witness :
  exists w',
    Rag.create_index_if_not_exists_async Demo2.env_create_refused "f" 768
      Demo.full_world
    = (Raise (ExternalError "quota exceeded"), w')
    /\ names w' = ["b"; "c"; "d"; "e"].
Proof.
  apply (proj2 (ensure_index_creation_refused Demo2.env_create_refused "f" 768
                  Demo.full_world "quota exceeded" full_world_new
                  eq_refl eq_refl)
           "a" ["b"; "c"; "d"; "e"] eq_refl ltac:(simpl; lia)
           full_world_nodup eq_refl).
Defined.

(* ================================================================== *)
(** * Further properties of the embedder *)

Module MoreEmbedderFacts.
Import Rag EmbedderFacts.

(** A call to the endpoint logs itself, whatever comes back. *)
Lemma call_embedding_api_world env b w :
  snd (_call_embedding_api env b w) = add_event (EvEmbedding b) w.
Proof.
  unfold _call_embedding_api, bind, log, call.
  destruct (embedding_post env b) as [r|msg]; simpl; [|reflexivity].
  destruct ((200 <=? resp_status r) && (resp_status r <=? 299))%Z; simpl;
    [|reflexivity].
  destruct (resp_json r) as [[vs|]|msg]; reflexivity.
Qed.

Lemma call_embedding_api_fails env b w :
  batch_fails env b ->
  exists e, fst (_call_embedding_api env b w) = Raise e /\ not_http e.
Proof.
  unfold batch_fails, _call_embedding_api, bind, log, call.
  destruct (embedding_post env b) as [r|msg]; simpl.
  - intros [Hs | Hj].
    + rewrite Hs. simpl. eexists. split; [reflexivity|].
      intros c d; discriminate.
    + destruct ((200 <=? resp_status r) && (resp_status r <=? 299))%Z; simpl.
      * destruct (resp_json r) as [[vs|]|msg]; simpl; [contradiction| |];
          (eexists; split; [reflexivity | intros c d; discriminate]).
      * eexists. split; [reflexivity | intros c d; discriminate].
  - intros _. eexists. split; [reflexivity | intros c d; discriminate].
Qed.

(** Gathering the calls for a list of batches logs one call per batch,
    in order, whether or not some of them raise. *)
Lemma gather_world env batches :
  forall w,
    snd (gather (map (_call_embedding_api env) batches) w)
    = add_events (map EvEmbedding batches) w.
Proof.
  induction batches as [|b rest IH]; intros w; simpl.
  - rewrite QueryFacts.add_events_nil. reflexivity.
  - pose proof (call_embedding_api_world env b w) as Hw.
    destruct (_call_embedding_api env b w) as [[vs|e] w1]; simpl in Hw;
      subst w1.
    + unfold bind.
      pose proof (IH (add_event (EvEmbedding b) w)) as H.
      destruct (gather (map (_call_embedding_api env) rest)
                  (add_event (EvEmbedding b) w)) as [[rs|e] w2];
        simpl in *; rewrite H;
        change (add_event (EvEmbedding b) w)
          with (add_events [EvEmbedding b] w);
        rewrite QueryFacts.add_events_app; reflexivity.
    + simpl. rewrite IH.
      change (add_event (EvEmbedding b) w)
        with (add_events [EvEmbedding b] w).
      rewrite QueryFacts.add_events_app. reflexivity.
Qed.

(** One failing batch makes the gathering raise. *)
Lemma gather_raises env batches b :
  In b batches ->
  batch_fails env b ->
  forall w, exists e,
    fst (gather (map (_call_embedding_api env) batches) w) = Raise e
    /\ not_http e.
Proof.
  induction batches as [|b0 rest IH]; intros Hin Hf w; [destruct Hin|].
  simpl.
  destruct (_call_embedding_api env b0 w) as [[vs|e] w1] eqn:E0.
  - destruct Hin as [-> | Hin].
    + destruct (call_embedding_api_fails env b w Hf) as (e & He & _).
      rewrite E0 in He. discriminate He.
    + destruct (IH Hin Hf w1) as (e & He & Hn).
      unfold bind.
      destruct (gather (map (_call_embedding_api env) rest) w1)
        as [[rs|e'] w2]; simpl in He; [discriminate He|].
      inversion He; subst. exists e. split; [reflexivity | exact Hn].
  - exists e. split; [reflexivity|].
    pose proof (obeys_call_embedding_api (fun _ _ => True) (fun _ => True)
                  (fun _ => I) (fun _ _ _ _ _ => I) (fun _ _ _ => I)
                  (fun _ => I) env b0 w _ _ E0) as [_ Hx].
    exact (Hx e eq_refl).
Qed.

Section Starts.
Variable n : nat.
Hypothesis n_pos : 0 < n.

(** The batch starts [range] produces: [0, n, 2n, ...], as many as it
    takes to cover the list. *)
Lemma range_up_starts N :
  forall fuel o, N - o <= fuel ->
    exists m,
      range_up fuel (Z.of_nat o) (Z.of_nat N) (Z.of_nat n)
      = map (fun k => Z.of_nat (o + k * n)) (seq 0 m)
      /\ N - o <= m * n
      /\ (m <> 0 -> (m - 1) * n < N - o).
Proof.
  induction fuel as [|f IH]; intros o Hf; simpl.
  - exists 0. simpl. split; [reflexivity|]. split; [lia | congruence].
  - destruct (Z.of_nat o <? Z.of_nat N)%Z eqn:E.
    + apply Z.ltb_lt in E.
      replace (Z.of_nat o + Z.of_nat n)%Z with (Z.of_nat (o + n)) by lia.
      destruct (IH (o + n)) as (m & Em & Hle & Hlt); [lia|].
      exists (S m). split; [|split].
      * cbn [seq map]. rewrite Em, <- seq_shift, map_map.
        f_equal; [f_equal; lia|].
        apply map_ext. intros k. f_equal. lia.
      * simpl. lia.
      * intros _. simpl. rewrite Nat.sub_0_r.
        destruct m as [|m']; [simpl; lia|].
        specialize (Hlt ltac:(discriminate)). simpl in Hlt.
        rewrite Nat.sub_0_r in Hlt. simpl. lia.
    + apply Z.ltb_ge in E. exists 0. simpl.
      split; [reflexivity|]. split; [lia | congruence].
Qed.

Lemma firstn_app_skipn {A} (l : list A) :
  forall a b, (firstn a l ++ firstn b (skipn a l))%list = firstn (a + b) l.
Proof.
  induction l as [|x r IH]; intros a b.
  - rewrite skipn_nil, !firstn_nil. reflexivity.
  - destruct a as [|a]; simpl; [reflexivity|]. rewrite IH. reflexivity.
Qed.

(** The first [m] blocks of [n] put together are the first [m * n]
    elements. *)
Lemma concat_blocks {A} (l : list A) m :
  List.concat (map (fun k => firstn n (skipn (k * n) l)) (seq 0 m))
  = firstn (m * n) l.
Proof.
  induction m as [|m IH]; [reflexivity|].
  rewrite seq_S, map_app, concat_app, IH. simpl.
  rewrite app_nil_r, firstn_app_skipn. f_equal. lia.
Qed.

End Starts.

(** With a positive batch size, the calls [aembed_documents] gathers are
    those of the batches number [0] to [m - 1]. *)
Lemma aembed_documents_tasks env texts w :
  (0 < EMBEDDING_API_BATCH_SIZE env)%Z ->
  exists m,
    aembed_documents env texts w
    = bind
        (gather
           (map (_call_embedding_api env)
                (map (batch texts (EMBEDDING_API_BATCH_SIZE env)) (seq 0 m))))
        (fun results => ret (List.concat results)) w
    /\ List.length texts <= m * Z.to_nat (EMBEDDING_API_BATCH_SIZE env)
    /\ (m <> 0 ->
        (m - 1) * Z.to_nat (EMBEDDING_API_BATCH_SIZE env) < List.length texts)
    /\ forall k,
         batch texts (EMBEDDING_API_BATCH_SIZE env) k
         = firstn (Z.to_nat (EMBEDDING_API_BATCH_SIZE env))
                  (skipn (k * Z.to_nat (EMBEDDING_API_BATCH_SIZE env)) texts).
Proof.
  intros Hpos. set (bs := EMBEDDING_API_BATCH_SIZE env) in *.
  set (n := Z.to_nat bs).
  assert (Ebs : bs = Z.of_nat n) by (unfold n; lia).
  assert (Hn : 0 < n) by lia.
  assert (Hb : forall k, batch texts bs k = firstn n (skipn (k * n) texts)).
  { intros k. unfold batch.
    replace (Z.of_nat k * bs)%Z with (Z.of_nat (k * n)) by lia.
    rewrite Ebs at 1. apply slice_nat. }
  destruct (range_up_starts n Hn (List.length texts) (List.length texts) 0)
    as (m & Em & Hle & Hlt); [lia|].
  exists m. split; [|split; [lia | split; [intros H; specialize (Hlt H); lia
                                          | exact Hb]]].
  unfold aembed_documents. fold bs. unfold range.
  replace (bs =? 0)%Z with false by (symmetry; apply Z.eqb_neq; lia).
  replace (0 <? bs)%Z with true by (symmetry; apply Z.ltb_lt; lia).
  unfold bind at 1, ret at 1.
  replace (Z.to_nat (Z.of_nat (List.length texts) - 0)) with (List.length texts)
    by lia.
  rewrite Ebs at 1. change 0%Z with (Z.of_nat 0). rewrite Em.
  rewrite <- (map_map (fun i => slice texts i (i + bs)%Z)
                      (_call_embedding_api env)).
  rewrite !map_map.
  rewrite (map_ext
             (fun x => _call_embedding_api env
                         (slice texts (Z.of_nat (0 + x * n))
                                (Z.of_nat (0 + x * n) + bs)%Z))
             (fun x => _call_embedding_api env (batch texts bs x)));
    [reflexivity|].
  intros k. unfold batch.
  replace (Z.of_nat (0 + k * n)) with (Z.of_nat k * bs)%Z by lia.
  reflexivity.
Qed.

End MoreEmbedderFacts.

Import MoreEmbedderFacts.

(** X12: with a positive batch size, [aembed_documents] calls the
    endpoint once per batch, in order, whether or not a call fails; the
    batches put end to end are the input texts, none of them is empty,
    none holds more than [batch_size] texts, and all but the last hold
    exactly [batch_size]. *)
Theorem embedding_calls_partition env texts w :
  (0 < EMBEDDING_API_BATCH_SIZE env)%Z ->
  exists m,
    snd (Rag.aembed_documents env texts w)
    = add_events
        (map (fun k => EvEmbedding
                         (batch texts (EMBEDDING_API_BATCH_SIZE env) k))
             (seq 0 m)) w
    /\ List.concat (map (batch texts (EMBEDDING_API_BATCH_SIZE env)) (seq 0 m))
       = texts
    /\ (forall k, k < m ->
          batch texts (EMBEDDING_API_BATCH_SIZE env) k <> []
          /\ List.length (batch texts (EMBEDDING_API_BATCH_SIZE env) k)
             <= Z.to_nat (EMBEDDING_API_BATCH_SIZE env))
    /\ (forall k, S k < m ->
          List.length (batch texts (EMBEDDING_API_BATCH_SIZE env) k)
          = Z.to_nat (EMBEDDING_API_BATCH_SIZE env)).
Proof.
  intros Hpos.
  destruct (aembed_documents_tasks env texts w Hpos)
    as (m & Erun & Hle & Hlt & Hb).
  set (bs := EMBEDDING_API_BATCH_SIZE env) in *.
  set (n := Z.to_nat bs) in *.
  assert (Hn : 0 < n) by (unfold n; lia).
  assert (Hlen : forall k, List.length (batch texts bs k)
                           = Nat.min n (List.length texts - k * n)).
  { intros k. rewrite Hb, length_firstn, length_skipn. reflexivity. }
  exists m. split; [|split; [|split]].
  - rewrite Erun. unfold bind.
    pose proof (gather_world env (map (batch texts bs) (seq 0 m)) w) as Hw.
    destruct (Rag.gather _ w) as [[rs|e] w1]; simpl in *; rewrite Hw;
      rewrite map_map; reflexivity.
  - rewrite (map_ext _ _ Hb), (concat_blocks n Hn).
    apply firstn_all2. exact Hle.
  - intros k Hk. specialize (Hlt ltac:(lia)).
    assert (Hkn : k * n < List.length texts) by nia.
    split.
    + intros E. pose proof (Hlen k) as Hl. rewrite E in Hl. simpl in Hl. lia.
    + rewrite Hlen. lia.
  - intros k Hk. specialize (Hlt ltac:(lia)).
    assert (Hkn : S k * n < List.length texts) by nia.
    rewrite Hlen. simpl in Hkn. lia.
Qed.

Lemma embedding_calls_partition_witness :
  snd (Rag.aembed_documents Demo.env ["a"; "b"; "c"] Demo.empty_world)
  = add_events [EvEmbedding ["a"; "b"]; EvEmbedding ["c"]] Demo.empty_world.
Proof.
  destruct (embedding_calls_partition Demo.env ["a"; "b"; "c"]
              Demo.empty_world eq_refl) as (m & _ & _ & _ & _).
  reflexivity.
Defined.

(** X13: a failing batch is a hard failure of the whole embedding: with
    a positive batch size, if the endpoint's answer to one of the batches
    is no list of vectors (the request raises, the status is not 2xx,
    the body does not decode or lacks the ["embeddings"] key),
    [aembed_documents] raises; no partial list of vectors is returned,
    and the exception is no [HTTPException]. *)
Theorem embedding_batch_failure_is_fatal env texts k w :
  (0 < EMBEDDING_API_BATCH_SIZE env)%Z ->
  k * Z.to_nat (EMBEDDING_API_BATCH_SIZE env) < List.length texts ->
  batch_fails env (batch texts (EMBEDDING_API_BATCH_SIZE env) k) ->
  exists e w',
    Rag.aembed_documents env texts w = (Raise e, w') /\ not_http e.
Proof.
  intros Hpos Hk Hfail.
  destruct (aembed_documents_tasks env texts w Hpos)
    as (m & Erun & Hle & _ & _).
  assert (Hkm : k < m) by nia.
  destruct (gather_raises env
              (map (batch texts (EMBEDDING_API_BATCH_SIZE env)) (seq 0 m))
              (batch texts (EMBEDDING_API_BATCH_SIZE env) k)
              ltac:(apply in_map, in_seq; lia) Hfail w) as (e & He & Hn).
  rewrite Erun. unfold bind.
  destruct (Rag.gather _ w) as [[rs|e'] w1]; simpl in He; [discriminate He|].
  inversion He; subst. exists e, w1. split; [reflexivity | exact Hn].
Qed.

Lemma embedding_batch_failure_is_fatal_witness :
  fst (Rag.aembed_documents Demo2.env_one_batch_fails ["a"; "b"; "c"]
         Demo.empty_world)
  = Raise (ExternalError "timeout").
Proof.
  destruct (embedding_batch_failure_is_fatal Demo2.env_one_batch_fails
              ["a"; "b"; "c"] 1 Demo.empty_world eq_refl
              ltac:(simpl; lia) I) as (e & w' & _ & _).
  reflexivity.
Defined.

(** X14: [aembed_query] embeds the one text in a single call: with a
    positive batch size, when the endpoint answers the batch [[text]]
    with a list of vectors, the first vector is returned (any further
    one is ignored) and an empty list makes it raise [IndexError]; with
    a negative batch size no call is made and [IndexError] is raised;
    with batch size 0 [ValueError] is raised. *)
Theorem aembed_query_single_call env text w :
  (forall r vs,
     (0 < EMBEDDING_API_BATCH_SIZE env)%Z ->
     embedding_post env [text] = Returns r ->
     (200 <= resp_status r <= 299)%Z ->
     resp_json r = Returns (Some vs) ->
     Rag.aembed_query env text w
     = (match vs with
        | v :: _ => Ok v
        | [] => Raise (IndexError "list index out of range")
        end, add_event (EvEmbedding [text]) w))
  /\ ((EMBEDDING_API_BATCH_SIZE env < 0)%Z ->
      Rag.aembed_query env text w
      = (Raise (IndexError "list index out of range"), w))
  /\ (EMBEDDING_API_BATCH_SIZE env = 0%Z ->
      Rag.aembed_query env text w
      = (Raise (ValueError "range() arg 3 must not be zero"), w)).
Proof.
  split; [|split].
  - intros r vs Hpos Hp [Hlo Hhi] Hj.
    destruct (aembed_documents_tasks env [text] w Hpos)
      as (m & Erun & Hle & Hlt & Hb).
    set (n := Z.to_nat (EMBEDDING_API_BATCH_SIZE env)) in *.
    assert (Hn : 0 < n) by (unfold n; lia).
    assert (Em : m = 1).
    { simpl in Hle, Hlt. destruct m as [|[|m]]; [lia | reflexivity|].
      specialize (Hlt ltac:(discriminate)). simpl in Hlt. lia. }
    subst m.
    assert (Es : batch [text] (EMBEDDING_API_BATCH_SIZE env) 0 = [text]).
    { rewrite Hb. replace n with (S (n - 1)) by lia.
      simpl. rewrite firstn_nil. reflexivity. }
    assert (Ec : Rag._call_embedding_api env [text] w
                 = (Ok vs, add_event (EvEmbedding [text]) w)).
    { unfold Rag._call_embedding_api, bind, log, call. rewrite Hp.
      unfold ret at 1. apply Z.leb_le in Hlo, Hhi. rewrite Hlo, Hhi.
      cbn [andb]. unfold ret at 1. rewrite Hj. reflexivity. }
    unfold Rag.aembed_query. unfold bind at 1. rewrite Erun.
    cbn [seq map Rag.gather]. rewrite Es. unfold bind. rewrite Ec.
    unfold ret. simpl. rewrite app_nil_r. destruct vs; reflexivity.
  - intros Hneg.
    unfold Rag.aembed_query, Rag.aembed_documents, Rag.range.
    set (bs := EMBEDDING_API_BATCH_SIZE env) in *.
    replace (bs =? 0)%Z with false by (symmetry; apply Z.eqb_neq; lia).
    replace (0 <? bs)%Z with false by (symmetry; apply Z.ltb_ge; lia).
    reflexivity.
  - intros Hz.
    unfold Rag.aembed_query, Rag.aembed_documents, Rag.range.
    rewrite Hz. reflexivity.
Qed.

(* ================================================================== *)
(** * Further properties of the ingestion flow *)

Module IngestFacts.
Import PyStr Rag.

(** The loop that builds the records draws one uuid per pair. *)
Lemma to_upsert_from_run env pairs :
  forall i w,
    to_upsert_from env i pairs w
    = (Ok (records_of env i (uuid_count w) pairs),
       {| indexes := indexes w; trace := trace w;
          uuid_count := uuid_count w + List.length pairs |}).
Proof.
  induction pairs as [|[chunk vec] rest IH]; intros i w.
  - simpl. unfold ret. rewrite Nat.add_0_r. destruct w; reflexivity.
  - simpl. unfold bind at 1, uuid4 at 1. unfold bind at 1.
    rewrite IH. unfold ret. simpl. do 2 f_equal. f_equal. lia.
Qed.

Lemma records_of_text env pairs :
  forall i u, map rec_text (records_of env i u pairs) = map fst pairs.
Proof.
  induction pairs as [|[c v] rest IH]; intros i u; simpl;
    [|rewrite IH]; reflexivity.
Qed.

Lemma records_of_values env pairs :
  forall i u, map rec_values (records_of env i u pairs) = map snd pairs.
Proof.
  induction pairs as [|[c v] rest IH]; intros i u; simpl;
    [|rewrite IH]; reflexivity.
Qed.

Lemma records_of_id env pairs :
  forall i u k r,
    nth_error (records_of env i u pairs) k = Some r ->
    rec_id r = ("doc_" ++ of_nat (i + k) ++ "_"
                ++ prefix 8 (uuid4_hex env (u + k)))%string.
Proof.
  induction pairs as [|[c v] rest IH]; intros i u k r H.
  - destruct k; discriminate H.
  - destruct k as [|k]; simpl in H.
    + inversion H; subst. simpl. rewrite !Nat.add_0_r. reflexivity.
    + rewrite (IH _ _ _ _ H).
      replace (S i + k) with (i + S k) by lia.
      replace (S u + k) with (u + S k) by lia. reflexivity.
Qed.

Lemma combine_fst {A B} (l : list A) :
  forall l' : list B, map fst (combine l l') = firstn (List.length l') l.
Proof.
  induction l as [|a l IH]; intros [|b l']; simpl; try reflexivity.
  rewrite IH. reflexivity.
Qed.

Lemma combine_snd {A B} (l : list A) :
  forall l' : list B, map snd (combine l l') = firstn (List.length l) l'.
Proof.
  induction l as [|a l IH]; intros [|b l']; simpl; try reflexivity.
  rewrite IH. reflexivity.
Qed.

(** The groups of at most [n] put end to end are the list. *)
Lemma batches_of_concat {A} n :
  0 < n ->
  forall fuel (l : list A), List.length l <= fuel ->
    List.concat (batches_of fuel n l) = l.
Proof.
  intros Hn. induction fuel as [|f IH]; intros l Hl.
  - destruct l; [reflexivity | simpl in Hl; lia].
  - destruct l as [|a l]; [reflexivity|].
    cbn [batches_of List.concat]. rewrite IH.
    + apply firstn_skipn.
    + rewrite length_skipn.
      change (List.length (a :: l)) with (S (List.length l)) in *. lia.
Qed.

Lemma append_records_nil name ixs : append_records name [] ixs = ixs.
Proof.
  unfold append_records. rewrite <- (map_id ixs) at 2. apply map_ext.
  intros ix. destruct (String.eqb (idx_name ix) name); [|reflexivity].
  rewrite app_nil_r. destruct ix; reflexivity.
Qed.

Lemma append_records_app name r1 r2 ixs :
  append_records name r2 (append_records name r1 ixs)
  = append_records name (r1 ++ r2) ixs.
Proof.
  unfold append_records. rewrite map_map. apply map_ext. intros ix.
  destruct (String.eqb (idx_name ix) name) eqn:E; simpl; rewrite E;
    [rewrite app_assoc|]; reflexivity.
Qed.

Lemma append_records_names name recs ixs :
  map idx_name (append_records name recs ixs) = map idx_name ixs.
Proof.
  unfold append_records. rewrite map_map. apply map_ext. intros ix.
  destruct (String.eqb (idx_name ix) name); reflexivity.
Qed.

(** Writing the batches one after the other writes their records in
    order; only the vectors of the named index change. *)
Lemma upsert_batches_run env name batches :
  (forall b, pinecone_fault env (Upsert name b) = None) ->
  forall w, In name (names w) ->
    exists w',
      _upsert_batches env name batches w = (Ok tt, w')
      /\ indexes w' = append_records name (List.concat batches) (indexes w)
      /\ uuid_count w' = uuid_count w.
Proof.
  intros Hf. induction batches as [|b rest IH]; intros w Hin.
  - exists w. simpl. rewrite append_records_nil. repeat split.
  - simpl.
    assert (Eb : Pinecone.upsert_batch env name b w
                 = (Ok tt,
                    with_indexes (append_records name b (indexes w))
                      (add_event (EvPinecone (Upsert name b)) w))).
    { unfold Pinecone.upsert_batch, Pinecone.request, bind, log, get_world,
        set_indexes, ret. rewrite Hf. simpl.
      apply has_index_in in Hin. rewrite Hin. reflexivity. }
    unfold bind. rewrite Eb.
    destruct (IH (with_indexes (append_records name b (indexes w))
                    (add_event (EvPinecone (Upsert name b)) w)))
      as (w' & Er & Ei & Eu).
    { unfold names. simpl. rewrite append_records_names. exact Hin. }
    exists w'. split; [exact Er|]. split; [|exact Eu].
    rewrite Ei. simpl. apply append_records_app.
Qed.

(** Embedding neither draws a uuid nor touches the store. *)
Lemma aembed_documents_keeps env texts w r w' :
  aembed_documents env texts w = (r, w') ->
  indexes w' = indexes w /\ uuid_count w' = uuid_count w.
Proof.
  intros H.
  refine (proj1 (obeys_aembed_documents
                   (fun a b => indexes b = indexes a
                               /\ uuid_count b = uuid_count a)
                   (fun _ => True) _ _ _ _ env texts w r w' H)).
  - intros a. split; reflexivity.
  - intros a b c [H1 H2] [H3 H4]. split; congruence.
  - intros e a _. split; reflexivity.
  - intros t. exact I.
Qed.

(** With no failure of the store, the index step returns; if the name
    was not listed, the index is appended, empty, to what the eviction
    left. *)
Lemma ensure_no_fault_new env name dim w :
  (forall c, pinecone_fault env c = None) ->
  ~ In name (names w) ->
  exists kept w',
    create_index_if_not_exists_async env name dim w = (Ok tt, w')
    /\ indexes w'
       = (kept ++ [{| idx_name := name; idx_dimension := dim;
                      idx_metric := "cosine"; idx_vectors := [] |}])%list
    /\ uuid_count w' = uuid_count w.
Proof.
  intros Hf Hnew.
  rewrite (MoreStoreFacts.ensure_new_run _ _ _ _ Hnew (Hf _)).
  destruct (5 <=? List.length (names w))%nat eqn:E5.
  - destruct (names w) as [|oldest rest] eqn:En;
      [apply Nat.leb_le in E5; simpl in E5; lia|].
    set (w0 := add_event (EvPinecone ListIndexes) w).
    assert (Hd : delete_index env oldest w0
                 = (Ok tt,
                    with_indexes
                      (filter (fun ix => negb (String.eqb (idx_name ix) oldest))
                              (indexes w0))
                      (add_event (EvPinecone (DeleteIndex oldest)) w0))).
    { apply delete_index_ok; [apply Hf|].
      change (names w0) with (names w). rewrite En. left. reflexivity. }
    unfold bind, try_except. rewrite Hd.
    rewrite create_index_ok; [eexists _, _; repeat split | apply Hf |].
    intros Hin. apply Hnew. rewrite <- En.
    exact (filter_names_incl oldest (indexes w) name Hin).
  - unfold bind, ret.
    rewrite create_index_ok; [eexists _, _; repeat split | apply Hf | exact Hnew].
Qed.

End IngestFacts.

Import IngestFacts.

(** When every batch is answered with one vector per text, the embedder
    returns one vector per text. *)
Lemma aembed_documents_total env resp texts w :
  (0 < EMBEDDING_API_BATCH_SIZE env)%Z ->
  one_vector_per_text env resp ->
  exists vs w',
    Rag.aembed_documents env texts w = (Ok vs, w')
    /\ List.length vs = List.length texts.
Proof.
  intros Hpos Hapi.
  destruct (aembed_documents_tasks env texts w Hpos)
    as (m & Erun & Hle & _ & Hb).
  set (bs := EMBEDDING_API_BATCH_SIZE env) in *.
  assert (Hn : 0 < Z.to_nat bs) by lia.
  destruct (EmbedderFacts.gather_ok env resp
              (map (batch texts bs) (seq 0 m)) Hapi w) as (w' & Eg).
  exists (List.concat (map resp (map (batch texts bs) (seq 0 m)))), w'.
  split.
  - rewrite Erun. unfold bind. rewrite Eg. reflexivity.
  - assert (L : forall bl : list (list string),
               List.length (List.concat (map resp bl))
               = List.length (List.concat bl)).
    { induction bl as [|b bl IH]; [reflexivity|].
      simpl. rewrite !length_app, IH, (proj1 (Hapi b)). reflexivity. }
    rewrite L, (map_ext _ _ Hb), (concat_blocks _ Hn).
    rewrite firstn_all2 by exact Hle. reflexivity.
Qed.

(** The language-model helpers return, and leave the store and the uuid
    counter as they were. *)
Lemma optimize_total env text w :
  exists optimized w',
    Rag.optimize_text_for_rag env text w = (Ok optimized, w')
    /\ indexes w' = indexes w /\ uuid_count w' = uuid_count w.
Proof.
  destruct (try_keys_total env (Rag.optimize_prompt text)
              (random_sample env (GROQ_API_KEYS env)) w) as (r & w' & E).
  assert (Er : exists o, Rag.optimize_text_for_rag env text w = (Ok o, w')).
  { unfold Rag.optimize_text_for_rag, bind. cbv zeta. rewrite E.
    destruct r; eexists; reflexivity. }
  destruct Er as (o & Er). exists o, w'. split; [exact Er|].
  refine (proj1 (obeys_optimize
                   (fun a b => indexes b = indexes a
                               /\ uuid_count b = uuid_count a)
                   (fun _ => True) _ _ _ _ env text w _ w' Er)).
  - intros a. split; reflexivity.
  - intros a b c [H1 H2] [H3 H4]. split; congruence.
  - intros e a _. split; reflexivity.
  - intros k m p. exact I.
Qed.

Lemma summary_total env text w :
  exists s w',
    Rag.generate_summary_with_groq env text w = (Ok s, w')
    /\ indexes w' = indexes w /\ uuid_count w' = uuid_count w.
Proof.
  destruct (try_keys_total env (Rag.summary_prompt text)
              (random_sample env (GROQ_API_KEYS env)) w) as (r & w' & E).
  assert (Er : exists o, Rag.generate_summary_with_groq env text w
                         = (Ok o, w')).
  { unfold Rag.generate_summary_with_groq, bind. cbv zeta. rewrite E.
    destruct r; eexists; reflexivity. }
  destruct Er as (o & Er). exists o, w'. split; [exact Er|].
  refine (proj1 (obeys_summary
                   (fun a b => indexes b = indexes a
                               /\ uuid_count b = uuid_count a)
                   (fun _ => True) _ _ _ _ env text w _ w' Er)).
  - intros a. split; reflexivity.
  - intros a b c [H1 H2] [H3 H4]. split; congruence.
  - intros e a _. split; reflexivity.
  - intros k m p. exact I.
Qed.

(** The write step, once chunking and embedding have returned. *)
Lemma process_run env name text w chunks vectors w1 :
  split_text env text = Returns chunks ->
  Rag.aembed_documents env chunks w = (Ok vectors, w1) ->
  In name (names w) ->
  (forall b, pinecone_fault env (Upsert name b) = None) ->
  exists w',
    Rag.process_text_and_upsert env name text w = (Ok tt, w')
    /\ indexes w'
       = append_records name
           (records_of env 0 (uuid_count w) (combine chunks vectors))
           (indexes w)
    /\ uuid_count w'
       = uuid_count w + List.length (combine chunks vectors).
Proof.
  intros Hsplit Hemb Hin Hf.
  destruct (aembed_documents_keeps _ _ _ _ _ Hemb) as (Ei & Eu).
  set (recs := records_of env 0 (uuid_count w) (combine chunks vectors)).
  set (w2 := {| indexes := indexes w1; trace := trace w1;
                uuid_count := uuid_count w
                              + List.length (combine chunks vectors) |}).
  destruct (upsert_batches_run env name
              (Rag.batches_of (List.length recs) 100 recs) Hf w2)
    as (w' & Er & Ei' & Eu').
  { unfold names, w2. simpl. rewrite Ei. exact Hin. }
  exists w'. split; [|split].
  - unfold Rag.process_text_and_upsert, Rag._chunk_text_sync, call.
    rewrite Hsplit. unfold bind at 1, ret at 1.
    rewrite (bind_ok _ _ _ _ _ Hemb).
    unfold bind. rewrite to_upsert_from_run. rewrite Eu.
    unfold Rag._upsert_sync. exact Er.
  - rewrite Ei', batches_of_concat by lia. unfold w2. simpl.
    rewrite Ei. reflexivity.
  - rewrite Eu'. reflexivity.
Qed.

(** X15: when chunking and embedding return and the store accepts the
    writes, [process_text_and_upsert] returns having appended to the vectors of
    the named index, and to no other index, one record per pair of a
    chunk and its vector, in order: as many records as the shorter of
    the two lists has elements, record [k] carrying chunk [k] as its
    text, vector [k] as its values and the id
    [doc_<k>_<first 8 hex digits of a fresh uuid>]. *)
Theorem process_text_and_upsert_records env name text w chunks vectors w1 :
  split_text env text = Returns chunks ->
  Rag.aembed_documents env chunks w = (Ok vectors, w1) ->
  In name (names w) ->
  (forall b, pinecone_fault env (Upsert name b) = None) ->
  exists recs w',
    Rag.process_text_and_upsert env name text w = (Ok tt, w')
    /\ indexes w' = append_records name recs (indexes w)
    /\ List.length recs = Nat.min (List.length chunks) (List.length vectors)
    /\ map rec_text recs = firstn (List.length vectors) chunks
    /\ map rec_values recs = firstn (List.length chunks) vectors
    /\ forall k r, nth_error recs k = Some r ->
         rec_id r = ("doc_" ++ of_nat k ++ "_"
                     ++ prefix 8 (uuid4_hex env (uuid_count w + k)))%string.
Proof.
  intros Hsplit Hemb Hin Hf.
  destruct (process_run _ _ _ _ _ _ _ Hsplit Hemb Hin Hf) as (w' & Er & Ei & _).
  exists (records_of env 0 (uuid_count w) (combine chunks vectors)), w'.
  split; [exact Er|]. split; [exact Ei|]. split; [|split; [|split]].
  - rewrite <- (length_map rec_text), records_of_text, length_map.
    apply length_combine.
  - rewrite records_of_text. apply combine_fst.
  - rewrite records_of_values. apply combine_snd.
  - intros k r H. exact (records_of_id _ _ _ _ _ _ H).
Qed.

Lemma process_text_and_upsert_records_witness :
  exists recs w',
    Rag.process_text_and_upsert Demo.env "a" "hello" Demo.full_world
    = (Ok tt, w')
    /\ map rec_text recs = ["hello"]
    /\ indexes w' = append_records "a" recs (indexes Demo.full_world).
Proof.
  destruct (process_text_and_upsert_records Demo.env "a" "hello"
              Demo.full_world ["hello"] _ _ eq_refl eq_refl
              (or_introl eq_refl) (fun _ => eq_refl))
    as (recs & w' & E & Ei & _ & Et & _).
  exists recs, w'. split; [exact E|]. split; [exact Et | exact Ei].
Defined.

(** X16: the successful run of [analyze].  For an authorised request
    with at least one URL, a store that refuses nothing and does not yet
    list the generated name, a positive batch size, an embedding endpoint
    that answers every batch with one vector per text and a splitter that
    returns, every step returns, whatever the pages and the language
    model answer: the pages are combined, the index is made under the
    name [webindex-<first 8 hex digits of a fresh uuid>], the combined
    text is optimised, the optimised text is chunked and written, and it
    is the optimised text that is summarised.  [analyze] returns success
    with that name and that summary, and the store then holds under that
    name a 768-dimension cosine index whose records are, in order, the
    chunks of the optimised text, one record per chunk. *)
Theorem analyze_success env request authorization resp w name :
  Rag.unauthorized env authorization = false ->
  Rag.urls request <> [] ->
  (forall c, pinecone_fault env c = None) ->
  (0 < EMBEDDING_API_BATCH_SIZE env)%Z ->
  one_vector_per_text env resp ->
  (forall t, exists chunks, split_text env t = Returns chunks) ->
  name = "webindex-" ++ prefix 8 (uuid4_hex env (uuid_count w)) ->
  ~ In name (names w) ->
  exists combined w1 optimized w2 chunks recs w3 summary w',
    Scraper.fetch_and_combine env (Rag.urls request) w = (Ok combined, w)
    /\ Rag.create_index_if_not_exists_async env name 768 (next_uuid w)
       = (Ok tt, w1)
    /\ Rag.optimize_text_for_rag env combined w1 = (Ok optimized, w2)
    /\ split_text env optimized = Returns chunks
    /\ Rag.process_text_and_upsert env name optimized w2 = (Ok tt, w3)
    /\ Rag.generate_summary_with_groq env optimized w3 = (Ok summary, w')
    /\ Rag.analyze env request authorization w
       = (Ok {| Rag.success := true; Rag.index_name := Some name;
                Rag.summary := Some summary |}, w')
    /\ map rec_text recs = chunks
    /\ In {| idx_name := name; idx_dimension := 768; idx_metric := "cosine";
             idx_vectors := recs |} (indexes w').
Proof.
  intros Hauth Hne Hf Hpos Hapi Hsplit -> Hnew.
  set (name := ("webindex-" ++ prefix 8 (uuid4_hex env (uuid_count w)))%string)
    in *.
  destruct (combined_not_blank env _ Hne) as (c & r & Hy & Hc).
  destruct (ensure_no_fault_new env name 768 (next_uuid w) Hf Hnew)
    as (kept & w1 & Eens & Ei1 & _).
  destruct (optimize_total env (String c r) w1)
    as (opt & w2 & Eopt & Ei2 & _).
  destruct (Hsplit opt) as (chunks & Ec).
  destruct (aembed_documents_total env resp chunks w2 Hpos Hapi)
    as (vs & w2' & Eemb & Elen).
  assert (Hin2 : In name (names w2)).
  { unfold names. rewrite Ei2, Ei1, map_app. apply in_or_app. right.
    left. reflexivity. }
  destruct (process_run env name opt w2 chunks vs w2' Ec Eemb Hin2
              (fun b => Hf _)) as (w3 & Eproc & Ei3 & _).
  destruct (summary_total env opt w3) as (s & w4 & Esum & Ei4 & _).
  exists (String c r), w1, opt, w2, chunks,
    (records_of env 0 (uuid_count w2) (combine chunks vs)), w3, s, w4.
  split; [exact (Hy w)|]. split; [exact Eens|]. split; [exact Eopt|].
  split; [exact Ec|]. split; [exact Eproc|]. split; [exact Esum|].
  split; [|split].
  - unfold Rag.analyze. rewrite Hauth.
    destruct (Rag.urls request) as [|u us]; [contradiction|].
    rewrite (bind_yields _ _ _ _ Hy).
    cbn [is_empty orb]. rewrite (strip_head _ _ Hc).
    cbn [String.length Nat.eqb].
    unfold bind at 1, uuid4 at 1. fold name.
    rewrite (bind_ok _ _ _ _ _ Eens), (bind_ok _ _ _ _ _ Eopt),
      (bind_ok _ _ _ _ _ Eproc), (bind_ok _ _ _ _ _ Esum).
    reflexivity.
  - rewrite records_of_text, combine_fst.
    apply firstn_all2. rewrite Elen. apply Nat.le_refl.
  - rewrite Ei4, Ei3, Ei2, Ei1. unfold append_records. rewrite map_app.
    apply in_or_app. right. simpl. rewrite String.eqb_refl. left. reflexivity.
Qed.

Lemma analyze_success_witness :
  exists summary recs w',
    Rag.analyze Demo.env {| Rag.urls := ["https://example.com/a"] |} None
      Demo.empty_world
    = (Ok {| Rag.success := true;
             Rag.index_name := Some "webindex-01234567";
             Rag.summary := Some summary |}, w')
    /\ In {| idx_name := "webindex-01234567"; idx_dimension := 768;
             idx_metric := "cosine"; idx_vectors := recs |} (indexes w').
Proof.
  destruct (analyze_success Demo.env
              {| Rag.urls := ["https://example.com/a"] |} None
              (map (fun _ => [1%float])) Demo.empty_world _
              eq_refl ltac:(discriminate) (fun _ => eq_refl) eq_refl
              demo_one_vector_per_text
              (fun t => ex_intro _ [t] eq_refl) eq_refl (fun H => H))
    as (combined & w1 & opt & w2 & chunks & recs & w3 & s & w' & _ & _ & _
        & _ & _ & _ & E & _ & Hi).
  exists s, recs, w'. split; [exact E | exact Hi].
Defined.

(* ================================================================== *)
(** * Conversation history *)

Module HistoryFacts.
Import Rag.

(** [history[-10:]] of a history that ends with ten turns is those ten
    turns. *)
Lemma last10_app {A} (older recent : list A) :
  List.length recent = 10 -> last10 (older ++ recent)%list = recent.
Proof.
  intros H. unfold last10. rewrite length_app, H.
  replace (List.length older + 10 - 10) with (List.length older) by lia.
  rewrite skipn_app, skipn_all, Nat.sub_diag. reflexivity.
Qed.

Lemma last10_short {A} (h : list A) : List.length h <= 10 -> last10 h = h.
Proof.
  intros H. unfold last10.
  replace (List.length h - 10) with 0 by lia. reflexivity.
Qed.

Lemma history_block_app (older recent : list ChatMessage) :
  List.length recent = 10 ->
  history_block (Some (older ++ recent)%list) = history_block (Some recent).
Proof.
  intros H. unfold history_block.
  rewrite (last10_app older recent H), (last10_short recent) by lia.
  destruct recent as [|m recent]; [discriminate H|].
  destruct older; reflexivity.
Qed.

Lemma format_excel_app (older recent : list HistoryItem) :
  List.length recent = 10 ->
  ExcelGenerator._format_history (Some (older ++ recent)%list)
  = ExcelGenerator._format_history (Some recent).
Proof.
  intros H. unfold ExcelGenerator._format_history.
  rewrite (last10_app older recent H), (last10_short recent) by lia.
  destruct recent as [|m recent]; [discriminate H|].
  destruct older; reflexivity.
Qed.

Lemma format_visuals_app (older recent : list DictMessage) :
  List.length recent = 10 ->
  Visuals._format_history (Some (older ++ recent)%list)
  = Visuals._format_history (Some recent).
Proof.
  intros H. unfold Visuals._format_history.
  rewrite (last10_app older recent H), (last10_short recent) by lia.
  destruct recent as [|m recent]; [discriminate H|].
  destruct older; reflexivity.
Qed.

End HistoryFacts.

(** X17: only the last ten turns of the conversation count.  [ask] runs
    the same, event for event, and answers the same when the turns before
    the last ten are dropped from the history; what the two
    [_format_history] helpers do, the history block they build or the
    exception they raise, is the same too, whatever the dropped entries
    are. *)
Theorem history_beyond_ten_ignored env name q auth
    (older recent : list Rag.ChatMessage)
    (items_before items_last : list HistoryItem)
    (dicts_before dicts_last : list DictMessage) w :
  List.length recent = 10 ->
  List.length items_last = 10 ->
  List.length dicts_last = 10 ->
  Rag.ask env {| Rag.ask_index_name := name; Rag.question := q;
                 Rag.history := Some (older ++ recent)%list |} auth w
  = Rag.ask env {| Rag.ask_index_name := name; Rag.question := q;
                   Rag.history := Some recent |} auth w
  /\ ExcelGenerator._format_history (Some (items_before ++ items_last)%list)
     = ExcelGenerator._format_history (Some items_last)
  /\ Visuals._format_history (Some (dicts_before ++ dicts_last)%list)
     = Visuals._format_history (Some dicts_last).
Proof.
  intros H Hi Hd. split; [|split].
  - unfold Rag.ask. cbn [Rag.ask_index_name Rag.question Rag.history].
    destruct (Rag.unauthorized env auth); [reflexivity|].
    destruct (is_empty name); [reflexivity|].
    unfold bind.
    destruct (Rag.aembed_query env q w) as [[v|e] w1]; [|reflexivity].
    destruct (Rag._search_index_sync env name v 5 w1) as [[ctx|e] w2];
      [|reflexivity].
    destruct (is_empty (strip ctx)); [reflexivity|].
    unfold Rag.answer_with_context_groq, Rag.answer_prompt.
    rewrite (HistoryFacts.history_block_app older recent H). reflexivity.
  - exact (HistoryFacts.format_excel_app items_before items_last Hi).
  - exact (HistoryFacts.format_visuals_app dicts_before dicts_last Hd).
Qed.

Lemma history_beyond_ten_ignored_witness :
  let turn := {| Rag.role := "user"; Rag.text := "And the profit?" |} in
  let old := {| Rag.role := "user"; Rag.text := "Hello" |} in
  Rag.ask Demo3.env_blank_answer
    {| Rag.ask_index_name := "webindex-01234567";
       Rag.question := "What is the revenue?";
       Rag.history := Some (old :: repeat turn 10) |} None Demo.empty_world
  = Rag.ask Demo3.env_blank_answer
      {| Rag.ask_index_name := "webindex-01234567";
         Rag.question := "What is the revenue?";
         Rag.history := Some (repeat turn 10) |} None Demo.empty_world
  /\ ExcelGenerator._format_history
       (Some (NotDict
              :: repeat (Dict {| d_role := Some (FStr "user");
                                 d_text := None |}) 10))
     = ExcelGenerator._format_history
         (Some (repeat (Dict {| d_role := Some (FStr "user");
                                d_text := None |}) 10)).
Proof.
  destruct (history_beyond_ten_ignored Demo3.env_blank_answer
              "webindex-01234567" "What is the revenue?" None
              [{| Rag.role := "user"; Rag.text := "Hello" |}]
              (repeat {| Rag.role := "user";
                         Rag.text := "And the profit?" |} 10)
              [NotDict]
              (repeat (Dict {| d_role := Some (FStr "user");
                               d_text := None |}) 10)
              []
              (repeat {| d_role := Some (FStr "user"); d_text := None |} 10)
              Demo.empty_world eq_refl eq_refl eq_refl)
    as (Hask & Hexcel & _).
  split; [exact Hask | exact Hexcel].
Defined.

(* ================================================================== *)
(** * Code fences *)

Module FenceFacts.
Import PyStr PyText.

Lemma append_assoc (a b c : string) :
  ((a ++ b) ++ c)%string = (a ++ (b ++ c))%string.
Proof. induction a as [|x a IH]; simpl; [|rewrite IH]; reflexivity. Qed.

Lemma starts_with_app sep b : starts_with sep (sep ++ b) = true.
Proof.
  induction sep as [|c sep IH]; simpl; [reflexivity|].
  rewrite Ascii.eqb_refl. exact IH.
Qed.

(** A split has at least one piece. *)
Lemma split_sep_aux_cons sep :
  forall s skip cur, exists a rest, split_sep_aux sep skip cur s = a :: rest.
Proof.
  induction s as [|c r IH]; intros skip cur; simpl.
  - eexists _, _. reflexivity.
  - destruct skip as [|k]; [|apply IH].
    destruct (starts_with sep (String c r)); [|apply IH].
    eexists _, _. reflexivity.
Qed.

(** If the separator occurs, there are at least two. *)
Lemma split_sep_aux_two c sep :
  forall s cur,
    contains (String c sep) s = true ->
    exists a b rest, split_sep_aux (String c sep) 0 cur s = a :: b :: rest.
Proof.
  induction s as [|x r IH]; intros cur H.
  - discriminate H.
  - cbn [contains] in H. cbn [split_sep_aux].
    destruct (starts_with (String c sep) (String x r)).
    + destruct (split_sep_aux_cons (String c sep) r
                  (String.length (String c sep) - 1) "")
        as (b & rest & E).
      rewrite E. eexists _, _, _. reflexivity.
    + apply IH. exact H.
Qed.

(** Characters passed over are not looked at. *)
Lemma split_sep_aux_skip sep cur b :
  forall x, split_sep_aux sep (String.length x) cur (x ++ b)
            = split_sep_aux sep 0 cur b.
Proof.
  induction x as [|c x IH]; simpl; [|exact IH].
  destruct b; reflexivity.
Qed.

(** At an occurrence the piece read so far is closed. *)
Lemma split_sep_aux_at c sep cur b :
  split_sep_aux (String c sep) 0 cur (String c sep ++ b)
  = cur :: split_sep_aux (String c sep) 0 "" b.
Proof.
  change (String c sep ++ b)%string with (String c (sep ++ b)).
  cbn [split_sep_aux].
  change (String c (sep ++ b)) with (String c sep ++ b)%string.
  rewrite starts_with_app.
  replace (String.length (String c sep) - 1) with (String.length sep)
    by (cbn [String.length]; lia).
  rewrite split_sep_aux_skip. reflexivity.
Qed.

(** No fence starts in a text without backticks. *)
Lemma split_sep_aux_tickless sep b :
  forall a cur,
    tickless a = true ->
    split_sep_aux (String "`" sep) 0 cur (a ++ b)
    = split_sep_aux (String "`" sep) 0 (cur ++ a) b.
Proof.
  induction a as [|c a IH]; intros cur H.
  - rewrite PyStrFacts.append_empty_r. reflexivity.
  - simpl in H. apply andb_prop in H. destruct H as [Hc Ha].
    change (String c a ++ b)%string with (String c (a ++ b)).
    cbn [split_sep_aux starts_with].
    rewrite Ascii.eqb_sym. apply negb_true_iff in Hc. rewrite Hc.
    cbn [andb]. rewrite (IH _ Ha), append_assoc. reflexivity.
Qed.

Lemma contains_tickless sep :
  forall a, tickless a = true -> contains (String "`" sep) a = false.
Proof.
  induction a as [|c a IH]; intros H; [reflexivity|].
  simpl in H. apply andb_prop in H. destruct H as [Hc Ha].
  cbn [contains starts_with]. rewrite Ascii.eqb_sym.
  apply negb_true_iff in Hc. rewrite Hc. cbn [andb orb]. exact (IH Ha).
Qed.

Lemma contains_after sep b :
  forall a, contains sep b = true -> contains sep (a ++ b) = true.
Proof.
  induction a as [|c a IH]; intros H; [exact H|].
  change (String c a ++ b)%string with (String c (a ++ b)).
  cbn [contains]. rewrite (IH H). apply orb_true_r.
Qed.

Lemma contains_at sep a b : contains sep (a ++ sep ++ b) = true.
Proof.
  apply contains_after. destruct sep as [|c sep]; [destruct b; reflexivity|].
  change (String c sep ++ b)%string with (String c (sep ++ b)).
  cbn [contains].
  change (String c (sep ++ b)) with (String c sep ++ b)%string.
  rewrite starts_with_app. reflexivity.
Qed.

(** In a text without backticks before and after one fence marker, the
    only place where a separator that begins with three backticks can
    occur is the marker. *)
Lemma contains_one_fence sep a b :
  tickless a = true -> tickless b = true ->
  contains (String "`" (String "`" (String "`" sep))) (a ++ "```" ++ b)
  = starts_with sep b.
Proof.
  intros Ha Hb. induction a as [|c a IH].
  - change ("" ++ "```" ++ b)%string
      with (String "`" (String "`" (String "`" b))).
    cbn [contains starts_with]. rewrite !Ascii.eqb_refl. cbn [andb].
    rewrite (contains_tickless _ b Hb).
    destruct b as [|d b]; [rewrite !orb_false_r; reflexivity|].
    simpl in Hb. apply andb_prop in Hb. destruct Hb as [Hd _].
    apply negb_true_iff in Hd. rewrite (Ascii.eqb_sym "`" d), Hd.
    cbn [andb]. rewrite !orb_false_r. reflexivity.
  - simpl in Ha. apply andb_prop in Ha. destruct Ha as [Hc Ha].
    change (String c a ++ "```" ++ b)%string
      with (String c (a ++ "```" ++ b)).
    cbn [contains starts_with]. rewrite Ascii.eqb_sym.
    apply negb_true_iff in Hc. rewrite Hc. cbn [andb orb]. exact (IH Ha).
Qed.

End FenceFacts.

Module FenceFacts2.
Import PyStr PyText FenceFacts.

Lemma starts_with_split p :
  forall s, starts_with p s = true -> exists r, s = (p ++ r)%string.
Proof.
  induction p as [|a p IH]; intros s H.
  - exists s. reflexivity.
  - destruct s as [|b s]; [discriminate H|].
    simpl in H. apply andb_prop in H. destruct H as [Hab Hs].
    apply Ascii.eqb_eq in Hab. subst b.
    destruct (IH s Hs) as (r & ->). exists r. reflexivity.
Qed.

Lemma starts_with_same a p s :
  starts_with (String a p) (String a s) = starts_with p s.
Proof. cbn [starts_with]. rewrite Ascii.eqb_refl. reflexivity. Qed.

(** A word without backticks that does not begin a text does not begin it
    either when a backtick follows the text. *)
Lemma starts_with_before_tick x :
  forall p body,
    tickless p = true ->
    starts_with p body = false ->
    starts_with p (body ++ String "`" x) = false.
Proof.
  induction p as [|a p IH]; intros body Hp H; [discriminate H|].
  simpl in Hp. apply andb_prop in Hp. destruct Hp as [Ha Hp].
  destruct body as [|b body].
  - cbn [append starts_with]. apply negb_true_iff in Ha. rewrite Ha.
    reflexivity.
  - change (String b body ++ String "`" x)%string
      with (String b (body ++ String "`" x)).
    cbn [starts_with] in *. destruct (Ascii.eqb a b); [|reflexivity].
    cbn [andb] in *. exact (IH body Hp H).
Qed.

(** After a fence marker that a character other than a backtick follows,
    a longer marker is found at the fence or further on. *)
Lemma contains_past_fence sep a d b :
  tickless a = true ->
  Ascii.eqb d "`" = false ->
  contains (String "`" (String "`" (String "`" sep)))
    (a ++ "```" ++ String d b)
  = starts_with sep (String d b)
    || contains (String "`" (String "`" (String "`" sep))) (String d b).
Proof.
  intros Ha Hd. induction a as [|c a IH].
  - change ("" ++ "```" ++ String d b)%string
      with (String "`" (String "`" (String "`" (String d b)))).
    set (long := String "`" (String "`" (String "`" sep))).
    assert (E1 : starts_with long (String "`" (String "`" (String d b)))
                 = false).
    { unfold long. rewrite !starts_with_same. cbn [starts_with].
      rewrite (Ascii.eqb_sym "`" d), Hd. reflexivity. }
    assert (E2 : starts_with long (String "`" (String d b)) = false).
    { unfold long. rewrite !starts_with_same. cbn [starts_with].
      rewrite (Ascii.eqb_sym "`" d), Hd. reflexivity. }
    assert (E0 : starts_with long
                   (String "`" (String "`" (String "`" (String d b))))
                 = starts_with sep (String d b)).
    { unfold long. rewrite !starts_with_same. reflexivity. }
    change (contains long (String "`" (String "`" (String "`" (String d b)))))
      with (starts_with long
              (String "`" (String "`" (String "`" (String d b))))
            || (starts_with long (String "`" (String "`" (String d b)))
                || (starts_with long (String "`" (String d b))
                    || contains long (String d b)))).
    rewrite E0, E1, E2. reflexivity.
  - simpl in Ha. apply andb_prop in Ha. destruct Ha as [Hc Ha].
    change (String c a ++ "```" ++ String d b)%string
      with (String c (a ++ "```" ++ String d b)).
    cbn [contains starts_with]. rewrite Ascii.eqb_sym.
    apply negb_true_iff in Hc. rewrite Hc. cbn [andb orb]. exact (IH Ha).
Qed.

(** The piece that a json fence closed by a bare fence leaves open. *)
Lemma json_fence_close post cur :
  tickless post = true ->
  exists t rest,
    split_sep_aux "```json" 0 cur ("```" ++ post) = (cur ++ t)%string :: rest
    /\ (t = "" \/ t = ("```" ++ post)%string).
Proof.
  intros Hp. destruct (starts_with "json" post) eqn:E.
  - destruct (starts_with_split _ _ E) as (r & ->).
    exists "", (split_sep_aux "```json" 0 "" r). split; [|left; reflexivity].
    rewrite PyStrFacts.append_empty_r.
    exact (split_sep_aux_at "`" "``json" cur r).
  - exists ("```" ++ post)%string, []. split; [|right; reflexivity].
    change ("```" ++ post)%string
      with (String "`" (String "`" (String "`" post))).
    assert (T : forall x, starts_with (String "`" x) post = false).
    { intros x. destruct post as [|d post]; [reflexivity|].
      simpl in Hp. apply andb_prop in Hp. destruct Hp as [Hd _].
      apply negb_true_iff in Hd. cbn [starts_with].
      rewrite Ascii.eqb_sym, Hd. reflexivity. }
    assert (E0 : starts_with "```json"
                   (String "`" (String "`" (String "`" post))) = false).
    { rewrite !starts_with_same. exact E. }
    assert (E1 : starts_with "```json" (String "`" (String "`" post))
                 = false).
    { rewrite !starts_with_same. apply T. }
    assert (E2 : starts_with "```json" (String "`" post) = false).
    { rewrite !starts_with_same. apply T. }
    change (split_sep_aux "```json" 0 cur
              (String "`" (String "`" (String "`" post))))
      with (if starts_with "```json"
                  (String "`" (String "`" (String "`" post)))
            then cur :: split_sep_aux "```json" (String.length "```json" - 1)
                          "" (String "`" (String "`" post))
            else split_sep_aux "```json" 0 (cur ++ "`")
                   (String "`" (String "`" post))).
    rewrite E0.
    change (split_sep_aux "```json" 0 (cur ++ "`")
              (String "`" (String "`" post)))
      with (if starts_with "```json" (String "`" (String "`" post))
            then (cur ++ "`")%string
                 :: split_sep_aux "```json" (String.length "```json" - 1)
                      "" (String "`" post)
            else split_sep_aux "```json" 0 ((cur ++ "`") ++ "`")
                   (String "`" post)).
    rewrite E1.
    change (split_sep_aux "```json" 0 ((cur ++ "`") ++ "`") (String "`" post))
      with (if starts_with "```json" (String "`" post)
            then ((cur ++ "`") ++ "`")%string
                 :: split_sep_aux "```json" (String.length "```json" - 1)
                      "" post
            else split_sep_aux "```json" 0 (((cur ++ "`") ++ "`") ++ "`")
                   post).
    rewrite E2.
    rewrite <- (PyStrFacts.append_empty_r post) at 1.
    rewrite (split_sep_aux_tickless "``json" "" post _ Hp).
    cbn [split_sep_aux]. rewrite !append_assoc. reflexivity.
Qed.

(** A text without backticks is one piece. *)
Lemma split_sep_tickless sep a :
  tickless a = true -> split_sep (String "`" sep) a = [a].
Proof.
  intros H. unfold split_sep.
  rewrite <- (PyStrFacts.append_empty_r a) at 1.
  rewrite (split_sep_aux_tickless sep "" a "" H). reflexivity.
Qed.

(** The first piece of a text that begins without backticks up to a
    fence. *)
Lemma split_sep_first sep a b :
  tickless a = true ->
  split_sep (String "`" sep) (a ++ String "`" sep ++ b)
  = a :: split_sep (String "`" sep) b.
Proof.
  intros H. unfold split_sep.
  rewrite (split_sep_aux_tickless sep _ a "" H).
  exact (split_sep_aux_at "`" sep a b).
Qed.

End FenceFacts2.

Import FenceFacts FenceFacts2.

(** X18: the removal of code fences never raises, whatever the model
    wrote: the two indexings it does after [split] are within range.  A
    reply without a backtick is passed on as it is. *)
Theorem unfence_never_raises content :
  exists s,
    yields (unfence content) s
    /\ (tickless content = true -> s = content).
Proof.
  unfold unfence.
  destruct (PyText.contains "```json" content) eqn:Ej.
  - destruct (split_sep_aux_two "`" "``json" content "" Ej)
      as (a & b & rest & E).
    destruct (split_sep_aux_cons "```" b 0 "") as (x & rest' & E').
    exists (strip x). split.
    + intros w. unfold PyText.split_sep. rewrite E.
      unfold PyText.item at 1. cbn [nth_error]. unfold bind at 1, ret at 1.
      rewrite E'. reflexivity.
    + intros H. rewrite (contains_tickless _ _ H) in Ej. discriminate Ej.
  - destruct (PyText.contains "```" content) eqn:Eb.
    + destruct (split_sep_aux_two "`" "``" content "" Eb)
        as (a & b & rest & E).
      destruct (split_sep_aux_cons "```" b 0 "") as (x & rest' & E').
      exists (strip x). split.
      * intros w. unfold PyText.split_sep. rewrite E.
        unfold PyText.item at 1. cbn [nth_error]. unfold bind at 1, ret at 1.
        rewrite E'. reflexivity.
      * intros H. rewrite (contains_tickless _ _ H) in Eb. discriminate Eb.
    + exists content. split; [intros w; reflexivity | reflexivity].
Qed.

(** X19: a fenced block comes back without its fence.  When the text
    before the block, the block and the text after it hold no backtick,
    a reply [pre ```json body ``` post] is reduced to the stripped
    [body]; so is a reply [pre ``` body ``` post] with a bare fence,
    provided neither a non-empty [body] nor [post] begins with [json]. *)
Theorem unfence_fenced_block pre body post :
  tickless pre = true ->
  tickless body = true ->
  tickless post = true ->
  yields (unfence (pre ++ "```json" ++ body ++ "```" ++ post)) (strip body)
  /\ (body <> "" ->
      PyText.starts_with "json" body = false ->
      PyText.starts_with "json" post = false ->
      yields (unfence (pre ++ "```" ++ body ++ "```" ++ post)) (strip body)).
Proof.
  intros Hpre Hbody Hpost. split.
  - intros w. unfold unfence.
    rewrite (contains_at "```json" pre (body ++ "```" ++ post)).
    rewrite (split_sep_first "``json" pre (body ++ "```" ++ post) Hpre).
    unfold PyText.item at 1. cbn [nth_error].
    unfold PyText.split_sep at 1.
    rewrite (split_sep_aux_tickless "``json" ("```" ++ post) body "" Hbody).
    destruct (json_fence_close post ("" ++ body) Hpost)
      as (t & rest & E & Ht).
    rewrite E. unfold bind at 1, ret at 1. cbn [append].
    destruct Ht as [-> | ->].
    + rewrite PyStrFacts.append_empty_r, (split_sep_tickless "``" body Hbody).
      reflexivity.
    + rewrite (split_sep_first "``" body post Hbody). reflexivity.
  - intros Hne Hb Hp w. unfold unfence.
    destruct body as [|d body']; [contradiction|].
    assert (Hd : Ascii.eqb d "`" = false).
    { simpl in Hbody. apply andb_prop in Hbody.
      apply negb_true_iff. exact (proj1 Hbody). }
    change (String d body' ++ "```" ++ post)%string
      with (String d (body' ++ "```" ++ post)).
    rewrite (contains_past_fence "json" pre d (body' ++ "```" ++ post)
               Hpre Hd).
    change (String d (body' ++ "```" ++ post))
      with (String d body' ++ "```" ++ post)%string.
    assert (Es : PyText.starts_with "json"
                   (String d body' ++ "```" ++ post) = false)
      by exact (starts_with_before_tick ("``" ++ post) "json"
                  (String d body') eq_refl Hb).
    rewrite Es.
    rewrite (contains_one_fence "json" (String d body') post Hbody Hpost), Hp.
    cbn [orb].
    rewrite (contains_at "```" pre (String d body' ++ "```" ++ post)).
    rewrite (split_sep_first "``" pre (String d body' ++ "```" ++ post) Hpre).
    rewrite (split_sep_first "``" (String d body') post Hbody).
    unfold PyText.item at 1. cbn [nth_error]. unfold bind at 1, ret at 1.
    rewrite (split_sep_tickless "``" (String d body') Hbody). reflexivity.
Qed.

Lemma unfence_fenced_block_witness :
  yields (unfence "Here it is: ```json [1, 2] ``` Done.") "[1, 2]".
Proof.
  exact (proj1 (unfence_fenced_block "Here it is: " " [1, 2] " " Done."
                  eq_refl eq_refl eq_refl)).
Defined.

(* ================================================================== *)
(** * The export endpoints *)

Module ExportFacts.
Import PyStr.

Lemma is_http_status status detail :
  (status = 400 \/ status = 401 \/ status = 500)%Z ->
  is_http (HTTPException status detail).
Proof. intros H. exists status, detail. split; [reflexivity | exact H]. Qed.

Lemma only_http_ret {A} (a : A) : only_http (ret a).
Proof. intros w e w' H. discriminate H. Qed.

Lemma only_http_raise {A} e : is_http e -> only_http (@raise A e).
Proof. intros He w e' w' H. inversion H; subst. exact He. Qed.

Lemma only_http_bind {A B} (m : M A) (k : A -> M B) :
  only_http m -> (forall a, only_http (k a)) -> only_http (bind m k).
Proof.
  intros Hm Hk w e w' H. unfold bind in H.
  destruct (m w) as [[a|e1] w1] eqn:E.
  - exact (Hk a _ _ _ H).
  - inversion H; subst. exact (Hm _ _ _ E).
Qed.

(** A block whose handler raises an [HTTPException] raises nothing
    else. *)
Lemma only_http_try {A} (body : M A) e :
  is_http e -> only_http (try_except body (fun _ => raise e)).
Proof.
  intros He w e' w' H. unfold try_except in H.
  destruct (body w) as [[a|e1] w1]; [discriminate H|].
  inversion H; subst. exact He.
Qed.

Lemma only_http_http_or_500 {A} detail (body : M A) :
  (forall w e w', body w = (Raise e, w') -> is_http e \/ not_http e) ->
  only_http (http_or_500 detail body).
Proof.
  intros Hb w e w' H. unfold http_or_500, try_except in H.
  destruct (body w) as [[a|e1] w1] eqn:E; [discriminate H|].
  destruct (Hb _ _ _ E) as [Hh | Hn].
  - destruct Hh as (s & d & -> & Hs). inversion H; subst.
    apply is_http_status, Hs.
  - destruct e1 as [s d|m|m|m|m];
      [exfalso; exact (Hn s d eq_refl) | ..];
      inversion H; subst; apply is_http_status; auto.
Qed.

Lemma random_choice_at_in env draw pool :
  pool <> [] ->
  exists key, In key pool /\ yields (random_choice_at env draw pool) key.
Proof.
  intros Hne. destruct pool as [|d rest] eqn:Ep; [contradiction|].
  rewrite <- Ep.
  exists (nth (Nat.modulo (randbelow env draw) (List.length pool)) pool d).
  split.
  - apply nth_In, Nat.mod_upper_bound. rewrite Ep. discriminate.
  - intros w. rewrite Ep. reflexivity.
Qed.

Lemma only_http_yields {A} (m : M A) a : yields m a -> only_http m.
Proof. intros Hy w e w' H. rewrite Hy in H. discriminate H. Qed.

(** What the classification raises: the 500 of a configuration without
    keys, or the [AttributeError] of a history that does not format; in
    both cases nothing has been done. *)
Lemma excel_intent_raise env data w e w' :
  ExcelGenerator.create_excel_intent env data w = (Raise e, w') ->
  w' = w
  /\ ((GROQ_API_KEYS env = []
       /\ e = HTTPException 500 "GROQ API keys not configured.")
      \/ (GROQ_API_KEYS env <> []
          /\ forallb well_formed (recent_items (ExcelGenerator.history data))
             = false
          /\ exists m, e = AttributeError m)).
Proof.
  intros H. destruct (GROQ_API_KEYS env) as [|k ks] eqn:Ek.
  - unfold ExcelGenerator.create_excel_intent in H. rewrite Ek in H.
    inversion H; subst. split; [reflexivity|]. left. split; reflexivity.
  - destruct (forallb well_formed
                (recent_items (ExcelGenerator.history data))) eqn:Hwf.
    + destruct (IntentFacts.excel_intent_run env) as (key & _ & Hrun);
        [rewrite Ek; discriminate|].
      destruct (IntentFacts.format_excel_ok _ Hwf) as (block & Hb).
      rewrite (Hrun data block w Hb) in H. discriminate H.
    + destruct (IntentFacts.format_excel_bad _ Hwf) as (m & Hb).
      unfold ExcelGenerator.create_excel_intent in H. rewrite Ek in H.
      unfold bind in H. rewrite Hb in H. inversion H; subst.
      split; [reflexivity|]. right. split; [discriminate|].
      split; [reflexivity|]. exists m. reflexivity.
Qed.

Lemma visuals_intent_raise env data w e w' :
  Visuals.create_visuals_intent env data w = (Raise e, w') ->
  w' = w
  /\ ((GROQ_API_KEYS env = []
       /\ e = HTTPException 500 "GROQ API keys not configured.")
      \/ (GROQ_API_KEYS env <> []
          /\ forallb well_formed (recent_dicts (Visuals.history data)) = false
          /\ exists m, e = AttributeError m)).
Proof.
  intros H. destruct (GROQ_API_KEYS env) as [|k ks] eqn:Ek.
  - unfold Visuals.create_visuals_intent in H. rewrite Ek in H.
    inversion H; subst. split; [reflexivity|]. left. split; reflexivity.
  - destruct (forallb well_formed
                (recent_dicts (Visuals.history data))) eqn:Hwf.
    + destruct (IntentFacts.visuals_intent_run env) as (key & _ & Hrun);
        [rewrite Ek; discriminate|].
      destruct (IntentFacts.format_visuals_ok _ Hwf) as (block & Hb).
      rewrite (Hrun data block w Hb) in H. discriminate H.
    + destruct (IntentFacts.format_visuals_bad _ Hwf) as (m & Hb).
      unfold Visuals.create_visuals_intent in H. rewrite Ek in H.
      unfold bind in H. rewrite Hb in H. inversion H; subst.
      split; [reflexivity|]. right. split; [discriminate|].
      split; [reflexivity|]. exists m. reflexivity.
Qed.

(** A classification that returned has built its history block. *)
Lemma excel_intent_ok env data w intent w' :
  ExcelGenerator.create_excel_intent env data w = (Ok intent, w') ->
  exists block,
    yields (ExcelGenerator._format_history (ExcelGenerator.history data))
           block.
Proof.
  intros H.
  destruct (forallb well_formed
              (recent_items (ExcelGenerator.history data))) eqn:Hwf;
    [exact (IntentFacts.format_excel_ok _ Hwf)|].
  exfalso. destruct (IntentFacts.format_excel_bad _ Hwf) as (m & Hb).
  unfold ExcelGenerator.create_excel_intent in H.
  destruct (GROQ_API_KEYS env); [discriminate H|].
  unfold bind in H. rewrite Hb in H. discriminate H.
Qed.

Lemma visuals_intent_ok env data w intent w' :
  Visuals.create_visuals_intent env data w = (Ok intent, w') ->
  exists block,
    yields (Visuals._format_history (Visuals.history data)) block.
Proof.
  intros H.
  destruct (forallb well_formed
              (recent_dicts (Visuals.history data))) eqn:Hwf;
    [exact (IntentFacts.format_visuals_ok _ Hwf)|].
  exfalso. destruct (IntentFacts.format_visuals_bad _ Hwf) as (m & Hb).
  unfold Visuals.create_visuals_intent in H.
  destruct (GROQ_API_KEYS env); [discriminate H|].
  unfold bind in H. rewrite Hb in H. discriminate H.
Qed.

(** The conversion of the history for the chat branch touches nothing,
    and what it raises is no [HTTPException]. *)
Lemma to_chat_message_cases tools m w :
  (exists c, to_chat_message tools m w = (Ok c, w))
  \/ (exists e, to_chat_message tools m w = (Raise e, w) /\ not_http e).
Proof.
  unfold to_chat_message, item_get, bind, ret, raise.
  destruct m as [[r t]|]; simpl.
  - destruct r as [[r|r]|], t as [[t|t]|]; simpl;
      try (left; eexists; reflexivity);
      match goal with
      | |- context [call ?o] =>
          destruct o; simpl;
          [left; eexists; reflexivity
          | right; eexists; split; [reflexivity | intros c d; discriminate]]
      end.
  - right. eexists. split; [reflexivity | intros c d; discriminate].
Qed.

Lemma chat_history_cases tools msgs w :
  (exists cs, chat_history tools msgs w = (Ok cs, w))
  \/ (exists e, chat_history tools msgs w = (Raise e, w) /\ not_http e).
Proof.
  induction msgs as [|m rest IH]; simpl.
  - left. eexists. reflexivity.
  - unfold bind.
    destruct (to_chat_message_cases tools m w) as [(c & ->) | (e & -> & He)].
    + destruct IH as [(cs & ->) | (e & -> & He)].
      * left. eexists. reflexivity.
      * right. exists e. split; [reflexivity | exact He].
    + right. exists e. split; [reflexivity | exact He].
Qed.

Lemma chat_history_typed tools msgs :
  forallb typed msgs = true ->
  exists cs, yields (chat_history tools msgs) cs.
Proof.
  induction msgs as [|m rest IH]; intros H.
  - exists []. intros w. reflexivity.
  - simpl in H. apply andb_prop in H. destruct H as [Hm Hr].
    destruct (IH Hr) as (cs & Hcs).
    destruct m as [[r t]|]; [|discriminate Hm].
    destruct r as [[r|r]|], t as [[t|t]|]; try discriminate Hm;
      eexists; intros w; simpl;
      unfold bind, to_chat_message, item_get, bind, ret; simpl;
      rewrite Hcs; reflexivity.
Qed.

Lemma forallb_skipn {A} (f : A -> bool) l :
  forallb f l = true -> forall n, forallb f (skipn n l) = true.
Proof.
  induction l as [|a l IH]; intros H n.
  - rewrite skipn_nil. reflexivity.
  - destruct n as [|n]; [exact H|].
    simpl in H. apply andb_prop in H. simpl. exact (IH (proj2 H) n).
Qed.

Lemma typed_well_formed msgs :
  forallb typed msgs = true -> forallb well_formed msgs = true.
Proof.
  induction msgs as [|m rest IH]; intros H; [reflexivity|].
  simpl in *. apply andb_prop in H. destruct H as [Hm Hr].
  rewrite (IH Hr), andb_true_r.
  destruct m as [[r t]|]; [|discriminate Hm].
  simpl in *. apply andb_prop in Hm. exact (proj1 Hm).
Qed.

(** What [ask] raises: one of its two rejections, with the world as it
    was, or an exception that is no [HTTPException]. *)
Lemma ask_raise env req authorization w e w' :
  Rag.ask env req authorization w = (Raise e, w') ->
  (e = HTTPException 401 "Invalid API Key." /\ w' = w)
  \/ (e = HTTPException 400 "index_name required" /\ w' = w)
  \/ not_http e.
Proof.
  unfold Rag.ask. intros H.
  destruct (Rag.unauthorized env authorization).
  { inversion H; subst. left. split; reflexivity. }
  destruct (is_empty (Rag.ask_index_name req)).
  { inversion H; subst. right. left. split; reflexivity. }
  right. right.
  destruct (bind_inv _ _ _ _ _ H) as [(v & w1 & Hv & Hrest) | (e0 & He & Er)].
  2: { inversion Er; subst e0.
       exact (proj2 (EndpointFacts.aembed_query_no_llm _ _ _ _ _ He) e
                eq_refl). }
  - exfalso. unfold bind at 1 in Hrest.
    rewrite EndpointFacts.search_run in Hrest.
    destruct (is_empty _); [discriminate Hrest|].
    unfold Rag.answer_with_context_groq in Hrest.
    match type of Hrest with
    | context [Rag.try_keys env ?p ?ks] =>
        destruct (try_keys_total env p ks
                    (add_event (EvPinecone (Query (Rag.ask_index_name req) 5))
                               w1)) as (r & w2 & Et)
    end.
    unfold bind in Hrest. rewrite Et in Hrest.
    destruct r; discriminate Hrest.
Qed.

Lemma ask_raise_http env req authorization w e w' :
  Rag.ask env req authorization w = (Raise e, w') ->
  is_http e \/ not_http e.
Proof.
  intros H. destruct (ask_raise _ _ _ _ _ _ H) as [[-> _] | [[-> _] | Hn]];
    [left; apply is_http_status; auto
    | left; apply is_http_status; auto
    | right; exact Hn].
Qed.

Lemma ask_then_raise_http {A} env req authorization (k : Rag.AskResponse -> A)
    w e w' :
  (ask_response <- Rag.ask env req authorization;; ret (k ask_response)) w
  = (Raise e, w') ->
  is_http e \/ not_http e.
Proof.
  intros H.
  destruct (bind_inv _ _ _ _ _ H) as [(v & w1 & _ & Hr) | (e0 & He & Er)].
  - discriminate Hr.
  - inversion Er; subst e0. exact (ask_raise_http _ _ _ _ _ _ He).
Qed.

(** The chat branch: the conversion of the history, then [ask]. *)
Lemma chat_then_raise_http {A} env tools msgs index query authorization
    (k : Rag.AskResponse -> A) w e w' :
  (chat_history <- chat_history tools msgs;;
   ask_response <-
     Rag.ask env (chat_request index query chat_history) authorization;;
   ret (k ask_response)) w
  = (Raise e, w') ->
  is_http e \/ not_http e.
Proof.
  intros H.
  destruct (bind_inv _ _ _ _ _ H) as [(cs & w1 & _ & Hr) | (e0 & He & Er)].
  - exact (ask_then_raise_http _ _ _ _ _ _ _ Hr).
  - inversion Er; subst e0. right.
    destruct (chat_history_cases tools msgs w) as [(cs & E) | (e1 & E & Hn)];
      rewrite E in He; [discriminate He|].
    inversion He; subst. exact Hn.
Qed.

End ExportFacts.

Module ExportFacts2.
Import PyStr ExportFacts.

Lemma ask_unauthorized env req authorization w :
  Rag.unauthorized env authorization = true ->
  Rag.ask env req authorization w
  = (Raise (HTTPException 401 "Invalid API Key."), w).
Proof. intros H. unfold Rag.ask. rewrite H. reflexivity. Qed.

(** With a history that formats, only [HTTPException]s come out of what
    follows the classification. *)
Lemma only_http_excel_rest env tools data authorization block intent :
  yields (ExcelGenerator._format_history (ExcelGenerator.history data))
         block ->
  only_http
    (if ExcelGenerator.is_chat intent then
       http_or_500 (fun m => m)
         (chat_history <-
            chat_history tools
              (match ExcelGenerator.history data with
               | Some h => h
               | None => []
               end);;
          ask_response <-
            Rag.ask env
              (chat_request (ExcelGenerator.index data)
                 (ExcelGenerator.query data) chat_history)
              authorization;;
          ret {| ExcelEndpoint.message := Rag.answer ask_response;
                 ExcelEndpoint.response_type := "chat";
                 ExcelEndpoint.filename := None;
                 ExcelEndpoint.file_base64 := None |})
     else
       rag_answer <-
         http_or_500 (fun m => "Failed to retrieve data for Excel: " ++ m)
           (ask_response <-
              Rag.ask env
                (data_request (ExcelGenerator.index data)
                   (ExcelGenerator.query data))
                authorization;;
            ret (Rag.answer ask_response));;
       if is_empty rag_answer
       then raise (HTTPException 400 "No data found to export.")
       else
         history_block <-
           ExcelGenerator._format_history (ExcelGenerator.history data);;
         let prompt :=
           ExcelEndpoint.structure_prompt history_block rag_answer
             (ExcelGenerator.query data) in
         match GROQ_API_KEYS env with
         | [] => raise (HTTPException 500 "GROQ API keys not configured.")
         | _ :: _ =>
             key <- random_choice_at env 1 (GROQ_API_KEYS env);;
             parsed <-
               try_except (ExcelEndpoint.structure env tools key prompt)
                 (fun _ =>
                    raise (HTTPException 500
                             "Failed to generate structured data for Excel."));;
             match parsed with
             | None =>
                 raise (HTTPException 500
                          "Failed to structure data into table format.")
             | Some table_data =>
                 file_base64 <-
                   try_except (call (build_excel_base64 tools table_data))
                     (fun _ =>
                        raise (HTTPException 500
                                 "Failed to generate Excel file."));;
                 ret {| ExcelEndpoint.message :=
                          "Excel generated with "
                          ++ of_nat (List.length table_data) ++ " rows.";
                        ExcelEndpoint.response_type := "excel";
                        ExcelEndpoint.filename := Some "export.xlsx";
                        ExcelEndpoint.file_base64 := Some file_base64 |}
             end
         end).
Proof.
  intros Hb. destruct (ExcelGenerator.is_chat intent).
  - apply only_http_http_or_500. intros w e w' H.
    exact (chat_then_raise_http _ _ _ _ _ _ _ _ _ _ H).
  - apply only_http_bind.
    { apply only_http_http_or_500. intros w e w' H.
      exact (ask_then_raise_http _ _ _ _ _ _ _ H). }
    intros rag_answer. destruct (is_empty rag_answer).
    { apply only_http_raise, is_http_status. auto. }
    apply only_http_bind; [exact (only_http_yields _ _ Hb)|].
    intros history_block. cbv zeta.
    destruct (GROQ_API_KEYS env) as [|k ks].
    { apply only_http_raise, is_http_status. auto. }
    apply only_http_bind; [apply only_http_ret|]. intros key.
    apply only_http_bind; [apply only_http_try, is_http_status; auto|].
    intros [table_data|]; [|apply only_http_raise, is_http_status; auto].
    apply only_http_bind; [apply only_http_try, is_http_status; auto|].
    intros file. apply only_http_ret.
Qed.

Lemma only_http_visuals_rest env tools data authorization block intent :
  yields (Visuals._format_history (Visuals.history data)) block ->
  only_http
    (if Visuals.is_chat intent then
       http_or_500 (fun m => m)
         (chat_history <-
            chat_history tools
              (map Dict
                 (match Visuals.history data with
                  | Some h => h
                  | None => []
                  end));;
          ask_response <-
            Rag.ask env
              (chat_request (Visuals.index data) (Visuals.query data)
                 chat_history)
              authorization;;
          ret (VisualsEndpoint.Chat (Rag.answer ask_response)))
     else
       rag_answer <-
         http_or_500
           (fun m => "Failed to retrieve data for visualization: " ++ m)
           (ask_response <-
              Rag.ask env
                (data_request (Visuals.index data) (Visuals.query data))
                authorization;;
            ret (Rag.answer ask_response));;
       history_block <- Visuals._format_history (Visuals.history data);;
       let prompt :=
         VisualsEndpoint.code_prompt history_block rag_answer
           (Visuals.query data) in
       match GROQ_API_KEYS env with
       | [] => raise (HTTPException 500 "GROQ API keys not configured.")
       | _ :: _ =>
           key <- random_choice_at env 1 (GROQ_API_KEYS env);;
           try_except (VisualsEndpoint.generate_code env tools key prompt)
             (fun _ =>
                raise (HTTPException 500
                         "Failed to generate visualization code."))
       end).
Proof.
  intros Hb. destruct (Visuals.is_chat intent).
  - apply only_http_http_or_500. intros w e w' H.
    exact (chat_then_raise_http _ _ _ _ _ _ _ _ _ _ H).
  - apply only_http_bind.
    { apply only_http_http_or_500. intros w e w' H.
      exact (ask_then_raise_http _ _ _ _ _ _ _ H). }
    intros rag_answer.
    apply only_http_bind; [exact (only_http_yields _ _ Hb)|].
    intros history_block. cbv zeta.
    destruct (GROQ_API_KEYS env) as [|k ks].
    { apply only_http_raise, is_http_status. auto. }
    apply only_http_bind; [apply only_http_ret|]. intros key.
    apply only_http_try, is_http_status. auto.
Qed.

(** A reply the loop over the keys returns is the stripped content of a
    key's answer. *)
Lemma try_keys_some_inv env prompt keys :
  forall w s w',
    Rag.try_keys env prompt keys w = (Ok (Some s), w') ->
    exists key c,
      In key keys /\ key_answers env key prompt c /\ s = strip c.
Proof.
  induction keys as [|key rest IH]; intros w s w' H; [discriminate H|].
  simpl in H. unfold bind, try_except, Groq.ainvoke, bind, log, call in H.
  assert (Hrest : forall w0,
            Rag.try_keys env prompt rest w0 = (Ok (Some s), w') ->
            exists key0 c,
              In key0 (key :: rest) /\ key_answers env key0 prompt c
              /\ s = strip c).
  { intros w0 H0. destruct (IH _ _ _ H0) as (k0 & c & Hin & Ha & Es).
    exists k0, c. split; [right; exact Hin|]. split; assumption. }
  destruct (groq_ainvoke env key Rag.MODEL_NAME prompt) as [[msg|]|m] eqn:E;
    simpl in H; try exact (Hrest _ H).
  destruct msg as [[c|]]; simpl in H; try exact (Hrest _ H).
  destruct c as [|a c]; simpl in H; [exact (Hrest _ H)|].
  inversion H; subst. exists key, (String a c).
  split; [left; reflexivity|]. split; [|reflexivity].
  split; [exact E | discriminate].
Qed.

(** What [ask] answers: the fixed sentence, or what the answering model
    was asked with a context that is not blank. *)
Lemma ask_ok env req authorization w resp w' :
  Rag.ask env req authorization w = (Ok resp, w') ->
  Rag.answer resp = Rag.NOT_AVAILABLE
  \/ exists context w1,
       is_empty (strip context) = false
       /\ Rag.answer_with_context_groq env (Rag.question req) context
            (Rag.history req) w1
          = (Ok (Rag.answer resp), w').
Proof.
  unfold Rag.ask. intros H.
  destruct (Rag.unauthorized env authorization); [discriminate H|].
  destruct (is_empty (Rag.ask_index_name req)); [discriminate H|].
  destruct (bind_inv _ _ _ _ _ H) as [(v & w1 & _ & H1) | (e0 & _ & Er)];
    [|discriminate Er].
  destruct (bind_inv _ _ _ _ _ H1) as [(ctx & w2 & _ & H2) | (e0 & _ & Er)];
    [|discriminate Er].
  destruct (is_empty (strip ctx)) eqn:Ec.
  - inversion H2; subst. left. reflexivity.
  - right. exists ctx, w2. split; [exact Ec|].
    destruct (bind_inv _ _ _ _ _ H2) as [(a & w3 & Ha & H3) | (e0 & _ & Er)];
      [|discriminate Er].
    inversion H3; subst. exact Ha.
Qed.

(** What comes out of the two [except] clauses around [ask]. *)
Lemma http_or_500_raise {A} detail (body : M A) w e w' :
  http_or_500 detail body w = (Raise e, w') ->
  body w = (Raise e, w') \/ exists m, e = HTTPException 500 (detail m).
Proof.
  unfold http_or_500, try_except. intros H.
  destruct (body w) as [[a|e1] w1]; [discriminate H|].
  destruct e1; inversion H; subst; eauto.
Qed.

Lemma http_or_500_ok {A} detail (body : M A) w a w' :
  http_or_500 detail body w = (Ok a, w') -> body w = (Ok a, w').
Proof.
  unfold http_or_500, try_except. intros H.
  destruct (body w) as [[a1|e1] w1]; [exact H|].
  destruct e1; discriminate H.
Qed.

End ExportFacts2.

Import ExportFacts ExportFacts2.

(** X20: what comes out of the export endpoints.  Whatever the
    embedding endpoint, the store, the chat model, the JSON parser, the
    workbook writer and the validation of the history do, [create_excel],
    and [create_visuals] up to the point where it runs the generated
    code, raise nothing but an [HTTPException] with status 400, 401 or
    500, a malformed history apart: when one of the last ten entries of
    the history is no dict, or has a role that is no string, and a key is
    configured, the [AttributeError] of [_format_history] comes out as it
    is, and nothing has been called by then. *)
Theorem export_exceptions env tools authorization :
  (forall data w e w',
     ExcelEndpoint.create_excel env tools data authorization w
     = (Raise e, w') ->
     is_http e
     \/ (forallb well_formed (recent_items (ExcelGenerator.history data))
         = false
         /\ (exists m, e = AttributeError m)
         /\ w' = w))
  /\ (forall data w e w',
        VisualsEndpoint.create_visuals env tools data authorization w
        = (Raise e, w') ->
        is_http e
        \/ (forallb well_formed (recent_dicts (Visuals.history data)) = false
            /\ (exists m, e = AttributeError m)
            /\ w' = w))
  /\ (forall data w,
        GROQ_API_KEYS env <> [] ->
        forallb well_formed (recent_items (ExcelGenerator.history data))
        = false ->
        exists m,
          ExcelEndpoint.create_excel env tools data authorization w
          = (Raise (AttributeError m), w))
  /\ (forall data w,
        GROQ_API_KEYS env <> [] ->
        forallb well_formed (recent_dicts (Visuals.history data)) = false ->
        exists m,
          VisualsEndpoint.create_visuals env tools data authorization w
          = (Raise (AttributeError m), w)).
Proof.
  split; [|split; [|split]].
  - intros data w e w' H. unfold ExcelEndpoint.create_excel in H.
    destruct (bind_inv _ _ _ _ _ H)
      as [(intent & w1 & Hi & H1) | (e0 & Hi & Er)].
    + left. destruct (excel_intent_ok _ _ _ _ _ Hi) as (block & Hb).
      exact (only_http_excel_rest env tools data authorization block intent
               Hb _ _ _ H1).
    + inversion Er; subst e0.
      destruct (excel_intent_raise _ _ _ _ _ Hi)
        as (Ew & [(_ & ->) | (_ & Hwf & Hm)]).
      * left. apply is_http_status. auto.
      * right. split; [exact Hwf|]. split; [exact Hm | exact Ew].
  - intros data w e w' H. unfold VisualsEndpoint.create_visuals in H.
    destruct (bind_inv _ _ _ _ _ H)
      as [(intent & w1 & Hi & H1) | (e0 & Hi & Er)].
    + left. destruct (visuals_intent_ok _ _ _ _ _ Hi) as (block & Hb).
      exact (only_http_visuals_rest env tools data authorization block intent
               Hb _ _ _ H1).
    + inversion Er; subst e0.
      destruct (visuals_intent_raise _ _ _ _ _ Hi)
        as (Ew & [(_ & ->) | (_ & Hwf & Hm)]).
      * left. apply is_http_status. auto.
      * right. split; [exact Hwf|]. split; [exact Hm | exact Ew].
  - intros data w Hkeys Hwf.
    destruct (IntentFacts.format_excel_bad _ Hwf) as (m & Hb). exists m.
    unfold ExcelEndpoint.create_excel, ExcelGenerator.create_excel_intent.
    destruct (GROQ_API_KEYS env); [contradiction|].
    unfold bind. rewrite Hb. reflexivity.
  - intros data w Hkeys Hwf.
    destruct (IntentFacts.format_visuals_bad _ Hwf) as (m & Hb). exists m.
    unfold VisualsEndpoint.create_visuals, Visuals.create_visuals_intent.
    destruct (GROQ_API_KEYS env); [contradiction|].
    unfold bind. rewrite Hb. reflexivity.
Qed.

(** X21: the export endpoints check the API key only inside [ask], after
    the intent was classified.  With a key for the chat model
    configured, a request whose authorisation is refused and whose
    history entries are dicts with strings (or nothing) for role and text
    gets the 401 of [ask], and by then one call to the chat model, the
    classification, has been made; nothing else has happened. *)
Theorem unauthorised_export_calls_llm env authorization :
  Rag.unauthorized env authorization = true ->
  GROQ_API_KEYS env <> [] ->
  (forall tools data w,
     forallb typed (match ExcelGenerator.history data with
                    | Some h => h
                    | None => []
                    end) = true ->
     exists key block,
       In key (GROQ_API_KEYS env)
       /\ yields (ExcelGenerator._format_history
                    (ExcelGenerator.history data)) block
       /\ ExcelEndpoint.create_excel env tools data authorization w
          = (Raise (HTTPException 401 "Invalid API Key."),
             add_event
               (EvLlm key "llama-3.3-70b-versatile"
                  (ExcelGenerator.classify_prompt block
                     (ExcelGenerator.query data))) w))
  /\ (forall tools data w,
        forallb typed (map Dict (match Visuals.history data with
                                 | Some h => h
                                 | None => []
                                 end)) = true ->
        exists key block,
          In key (GROQ_API_KEYS env)
          /\ yields (Visuals._format_history (Visuals.history data)) block
          /\ VisualsEndpoint.create_visuals env tools data authorization w
             = (Raise (HTTPException 401 "Invalid API Key."),
                add_event
                  (EvLlm key "llama-3.3-70b-versatile"
                     (Visuals.classify_prompt block (Visuals.query data)))
                  w)).
Proof.
  intros Hauth Hkeys. split.
  - destruct (IntentFacts.excel_intent_run env Hkeys) as (key & Hin & Hrun).
    intros tools data w Ht.
    assert (Hwf : forallb well_formed
                    (recent_items (ExcelGenerator.history data)) = true).
    { apply typed_well_formed. unfold recent_items, Rag.last10.
      apply forallb_skipn. exact Ht. }
    destruct (IntentFacts.format_excel_ok _ Hwf) as (block & Hb).
    destruct (chat_history_typed tools _ Ht) as (cs & Hcs).
    exists key, block. split; [exact Hin|]. split; [exact Hb|].
    unfold ExcelEndpoint.create_excel.
    rewrite (bind_ok _ _ _ _ _ (Hrun data block w Hb)).
    destruct (ExcelGenerator.is_chat _);
      unfold http_or_500, try_except, bind;
      [rewrite Hcs|]; rewrite (ask_unauthorized _ _ _ _ Hauth); reflexivity.
  - destruct (IntentFacts.visuals_intent_run env Hkeys) as (key & Hin & Hrun).
    intros tools data w Ht.
    assert (Hwf : forallb well_formed (recent_dicts (Visuals.history data))
                  = true).
    { apply typed_well_formed. unfold recent_dicts, Rag.last10.
      destruct (Visuals.history data) as [h|]; [|reflexivity].
      rewrite <- (length_map Dict h), <- skipn_map.
      apply forallb_skipn. exact Ht. }
    destruct (IntentFacts.format_visuals_ok _ Hwf) as (block & Hb).
    destruct (chat_history_typed tools _ Ht) as (cs & Hcs).
    exists key, block. split; [exact Hin|]. split; [exact Hb|].
    unfold VisualsEndpoint.create_visuals.
    rewrite (bind_ok _ _ _ _ _ (Hrun data block w Hb)).
    destruct (Visuals.is_chat _);
      unfold http_or_500, try_except, bind;
      [rewrite Hcs|]; rewrite (ask_unauthorized _ _ _ _ Hauth); reflexivity.
Qed.

Lemma unauthorised_export_calls_llm_witness :
  exists key,
    ExcelEndpoint.create_excel Demo3.env_locked Demo3.tools
      Demo3.excel_request None Demo.empty_world
    = (Raise (HTTPException 401 "Invalid API Key."),
       add_event
         (EvLlm key "llama-3.3-70b-versatile"
            (ExcelGenerator.classify_prompt "" "Export the revenue"))
         Demo.empty_world).
Proof.
  destruct (proj1 (unauthorised_export_calls_llm Demo3.env_locked None
                     eq_refl ltac:(discriminate))
              Demo3.tools Demo3.excel_request Demo.empty_world eq_refl)
    as (key & block & _ & Hb & E).
  exists key.
  assert (Eb : block = "").
  { pose proof (Hb Demo.empty_world) as Hy. inversion Hy. reflexivity. }
  rewrite Eb in E. exact E.
Defined.

(** X22: [create_excel] raises its 400, No data found to export, only when
    the data step found a context that is not blank and the answering
    model replied to it with whitespace and nothing else.  A store with
    nothing to the point never leads to it: [ask] then answers with its
    fixed sentence, which is not empty. *)
Theorem excel_no_data_means_blank_reply env tools data authorization w w' :
  ExcelEndpoint.create_excel env tools data authorization w
  = (Raise (HTTPException 400 "No data found to export."), w') ->
  exists key context c,
    In key (GROQ_API_KEYS env)
    /\ is_empty (strip context) = false
    /\ key_answers env key
         (Rag.answer_prompt (ExcelGenerator.query data) context (Some [])) c
    /\ strip c = "".
Proof.
  unfold ExcelEndpoint.create_excel. intros H.
  destruct (bind_inv _ _ _ _ _ H) as [(intent & w1 & Hi & H1) | (e0 & Hi & Er)].
  2: { inversion Er; subst e0.
       destruct (excel_intent_raise _ _ _ _ _ Hi)
         as (_ & [(_ & E) | (_ & _ & (m & E))]); discriminate E. }
  destruct (excel_intent_ok _ _ _ _ _ Hi) as (block & Hblock).
  assert (Hask : forall A (k : Rag.AskResponse -> A) req detail w0,
            http_or_500 detail
              (ask_response <- Rag.ask env req authorization;;
               ret (k ask_response)) w0
            <> (Raise (HTTPException 400 "No data found to export."), w')).
  { intros A k req detail w0 Hr.
    destruct (http_or_500_raise _ _ _ _ _ Hr) as [Hb | (m & Em)];
      [|discriminate Em].
    destruct (bind_inv _ _ _ _ _ Hb) as [(v & w2 & _ & Hv) | (e0 & He & Er)];
      [discriminate Hv|].
    inversion Er; subst e0.
    destruct (ask_raise _ _ _ _ _ _ He) as [[E _] | [[E _] | Hn]];
      [discriminate E | discriminate E | exact (Hn _ _ eq_refl)]. }
  destruct (ExcelGenerator.is_chat intent).
  { exfalso.
    destruct (http_or_500_raise _ _ _ _ _ H1) as [Hb | (m & Em)];
      [|discriminate Em].
    destruct (bind_inv _ _ _ _ _ Hb) as [(cs & w2 & _ & Hr) | (e0 & He & Er)].
    - destruct (bind_inv _ _ _ _ _ Hr)
        as [(v & w3 & _ & Hv) | (e0 & He & Er)]; [discriminate Hv|].
      inversion Er; subst e0.
      destruct (ask_raise _ _ _ _ _ _ He) as [[E _] | [[E _] | Hn]];
        [discriminate E | discriminate E | exact (Hn _ _ eq_refl)].
    - inversion Er; subst e0.
      destruct (chat_history_cases tools
                  (match ExcelGenerator.history data with
                   | Some h => h
                   | None => []
                   end) w1) as [(cs & E) | (e1 & E & Hn)];
        rewrite E in He; [discriminate He|].
      inversion He; subst. exact (Hn _ _ eq_refl). }
  destruct (bind_inv _ _ _ _ _ H1) as [(ans & w2 & Ha & H2) | (e0 & He & Er)].
  2: { inversion Er; subst e0. exact (False_ind _ (Hask _ _ _ _ _ He)). }
  destruct (is_empty ans) eqn:Eans.
  - apply http_or_500_ok in Ha.
    destruct (bind_inv _ _ _ _ _ Ha) as [(resp & w3 & Hr & Hret) | (e0 & _ & Er)];
      [|discriminate Er].
    inversion Hret; subst.
    destruct (Rag.answer resp) as [|a s] eqn:Eresp; [|discriminate Eans].
    destruct (ask_ok _ _ _ _ _ _ Hr) as [Hn | (context & w4 & Hc & Hg)].
    { rewrite Eresp in Hn. discriminate Hn. }
    rewrite Eresp in Hg. unfold Rag.answer_with_context_groq in Hg.
    cbn [Rag.question Rag.history data_request] in Hg.
    destruct (bind_inv _ _ _ _ _ Hg) as [(r & w5 & Ht & Hm) | (e0 & _ & Er)];
      [|discriminate Er].
    destruct r as [s|]; [|discriminate Hm].
    inversion Hm; subst.
    destruct (try_keys_some_inv _ _ _ _ _ _ Ht) as (key & c & Hin & Hk & Es).
    exists key, context, c. split; [|split; [exact Hc|split; [exact Hk|]]].
    + apply (Permutation_in key (sample_aux_perm (randbelow env) _ _ eq_refl)).
      exact Hin.
    + symmetry. exact Es.
  - exfalso. rewrite (bind_yields _ _ _ _ Hblock) in H2. cbv zeta in H2.
    destruct (GROQ_API_KEYS env) as [|k ks]; [discriminate H2|].
    unfold random_choice_at, bind, ret, try_except in H2.
    destruct (ExcelEndpoint.structure _ _ _ _ _) as [[[t|]|e1] w3];
      try discriminate H2.
    destruct (call _ _) as [[f|e2] w4]; discriminate H2.
Qed.

Lemma excel_no_data_means_blank_reply_witness :
  exists key context c,
    In key ["k1"; "k2"]
    /\ is_empty (strip context) = false
    /\ key_answers Demo3.env_blank_answer key
         (Rag.answer_prompt "Export the revenue" context (Some [])) c
    /\ strip c = "".
Proof.
  exact (excel_no_data_means_blank_reply Demo3.env_blank_answer Demo3.tools
           Demo3.excel_request None Demo.empty_world _ eq_refl).
Defined.

(* ================================================================== *)
(** * Column headers *)

Module HeaderFacts.
Import PyStr Header.

Lemma lstrip_is_lstrip_of s : lstrip s = lstrip_of is_space s.
Proof. induction s as [|c r IH]; simpl; [|rewrite IH]; reflexivity. Qed.

Lemma rstrip_is_rstrip_of s : rstrip s = rstrip_of is_space s.
Proof. induction s as [|c r IH]; simpl; [|rewrite IH]; reflexivity. Qed.

Section Chars.
Variable p : ascii -> bool.

Lemma lstrip_of_app a b :
  all_chars p a = true -> lstrip_of p (a ++ b) = lstrip_of p b.
Proof.
  induction a as [|c a IH]; intros H; [reflexivity|].
  simpl in H. apply andb_prop in H. destruct H as [Hc Ha].
  simpl. rewrite Hc. exact (IH Ha).
Qed.

Lemma rstrip_of_all b : all_chars p b = true -> rstrip_of p b = "".
Proof.
  induction b as [|c b IH]; intros H; [reflexivity|].
  simpl in H. apply andb_prop in H. destruct H as [Hc Hb].
  simpl. rewrite (IH Hb), Hc. reflexivity.
Qed.

Lemma rstrip_of_app a b :
  all_chars p b = true -> rstrip_of p (a ++ b) = rstrip_of p a.
Proof.
  intros H. induction a as [|c a IH]; [exact (rstrip_of_all b H)|].
  simpl. rewrite IH. reflexivity.
Qed.

Lemma rstrip_of_clear r :
  forall c, p (last_of c r) = false -> rstrip_of p (String c r) = String c r.
Proof.
  induction r as [|d r IH]; intros c H.
  - simpl in *. rewrite H. reflexivity.
  - change (rstrip_of p (String c (String d r)))
      with (if p c && is_empty (rstrip_of p (String d r))
            then EmptyString else String c (rstrip_of p (String d r))).
    rewrite (IH d H). cbn [is_empty]. rewrite andb_false_r. reflexivity.
Qed.

Lemma lstrip_of_head s c r : lstrip_of p s = String c r -> p c = false.
Proof.
  induction s as [|d s IH]; intros H; [discriminate H|].
  simpl in H. destruct (p d) eqn:E; [exact (IH H)|].
  inversion H; subst. exact E.
Qed.

Lemma rstrip_of_last s :
  forall c r, rstrip_of p s = String c r -> p (last_of c r) = false.
Proof.
  induction s as [|d s IH]; intros c r H; [discriminate H|].
  simpl in H. destruct (rstrip_of p s) as [|e t] eqn:E.
  - cbn [is_empty] in H. rewrite andb_true_r in H.
    destruct (p d) eqn:Ed; [discriminate H|].
    inversion H; subst. exact Ed.
  - cbn [is_empty] in H. rewrite andb_false_r in H.
    inversion H; subst. exact (IH _ _ eq_refl).
Qed.

Lemma rstrip_of_keeps_head c r :
  p c = false -> exists r', rstrip_of p (String c r) = String c r'.
Proof. intros H. simpl. rewrite H. eexists. reflexivity. Qed.

Lemma last_of_app a :
  forall c d r, last_of c (a ++ String d r) = last_of d r.
Proof. induction a as [|x a IH]; intros c d r; [reflexivity|]. apply IH. Qed.

End Chars.

Lemma star_not_space c : is_star c = true -> is_space c = false.
Proof.
  unfold is_star. intros H. apply Ascii.eqb_eq in H. subst c. reflexivity.
Qed.

Lemma last_of_all p s :
  forall y, all_chars p (String y s) = true -> p (last_of y s) = true.
Proof.
  induction s as [|z s IH]; intros y H.
  - simpl in *. rewrite andb_true_r in H. exact H.
  - simpl in H. apply andb_prop in H. exact (IH z (proj2 H)).
Qed.

Lemma last_wrapped c r stars :
  is_space (last_of c r) = false ->
  all_chars is_star stars = true ->
  is_space (last_of c (r ++ stars)) = false.
Proof.
  intros Hl Hs. destruct stars as [|y s].
  - rewrite PyStrFacts.append_empty_r. exact Hl.
  - rewrite last_of_app. exact (star_not_space _ (last_of_all _ _ _ Hs)).
Qed.

End HeaderFacts.

Import Header HeaderFacts.

(** X23: the cleaning of a column header.  A cleaned header never begins
    nor ends with an asterisk.  A header that itself begins and ends with
    something other than whitespace and asterisks comes back as it is
    from any wrapping in asterisks and then in whitespace, such as the
    Markdown bold of a model's reply. *)
Theorem clean_header_strips_markers :
  (forall col,
     match clean_header col with
     | EmptyString => True
     | String c r => is_star c = false /\ is_star (last_of c r) = false
     end)
  /\ (forall ws1 stars1 c r stars2 ws2,
        all_chars is_space ws1 = true ->
        all_chars is_star stars1 = true ->
        is_space c = false -> is_star c = false ->
        is_space (last_of c r) = false -> is_star (last_of c r) = false ->
        all_chars is_star stars2 = true ->
        all_chars is_space ws2 = true ->
        clean_header (ws1 ++ stars1 ++ String c r ++ stars2 ++ ws2)
        = String c r).
Proof.
  split.
  - intros col. unfold clean_header.
    destruct (lstrip_of is_star (strip col)) as [|c r] eqn:E; [exact I|].
    pose proof (lstrip_of_head _ _ _ _ E) as Hc.
    destruct (rstrip_of_keeps_head is_star c r Hc) as (r' & E').
    rewrite E'. split; [exact Hc|].
    exact (rstrip_of_last _ _ _ _ E').
  - intros ws1 stars1 c r stars2 ws2 Hw1 Hs1 Hcs Hc Hls Hl Hs2 Hw2.
    unfold clean_header, strip.
    set (core := (stars1 ++ String c r ++ stars2)%string).
    assert (Hcore : exists x t,
               core = String x t /\ is_space x = false
               /\ is_space (last_of x t) = false).
    { unfold core. destruct stars1 as [|x s1].
      - exists c, (r ++ stars2)%string. split; [reflexivity|].
        split; [exact Hcs | exact (last_wrapped _ _ _ Hls Hs2)].
      - simpl in Hs1. apply andb_prop in Hs1. destruct Hs1 as [Hx Hs1].
        exists x, (s1 ++ String c (r ++ stars2))%string.
        split; [reflexivity|]. split; [exact (star_not_space _ Hx)|].
        rewrite last_of_app. exact (last_wrapped _ _ _ Hls Hs2). }
    destruct Hcore as (x & t & Ecore & Hx & Ht).
    assert (Estrip : rstrip (lstrip (ws1 ++ core ++ ws2)) = core).
    { rewrite lstrip_is_lstrip_of, rstrip_is_rstrip_of.
      rewrite (lstrip_of_app is_space ws1 _ Hw1).
      rewrite Ecore. change (String x t ++ ws2)%string
        with (String x (t ++ ws2)).
      cbn [lstrip_of]. rewrite Hx.
      change (String x (t ++ ws2)) with (String x t ++ ws2)%string.
      rewrite (rstrip_of_app is_space _ ws2 Hw2).
      exact (rstrip_of_clear is_space t x Ht). }
    replace (ws1 ++ stars1 ++ String c r ++ stars2 ++ ws2)%string
      with (ws1 ++ core ++ ws2)%string
      by (unfold core; rewrite !FenceFacts.append_assoc; reflexivity).
    rewrite Estrip. unfold core.
    rewrite (lstrip_of_app is_star stars1 _ Hs1).
    change (String c r ++ stars2)%string with (String c (r ++ stars2)).
    cbn [lstrip_of]. rewrite Hc.
    change (String c (r ++ stars2)) with (String c r ++ stars2)%string.
    rewrite (rstrip_of_app is_star _ stars2 Hs2).
    exact (rstrip_of_clear is_star r c Hl).
Qed.
